(** * JESX: the render / route / re-render core of [src/jesx.js]

    A shallow embedding of the [JESX] class and of the dispatch function
    [j].  JavaScript values are a small inductive type, the live document
    is a store of nodes addressed by reference (so that moving a node with
    [appendChild] is visible through every alias), and every method is a
    state transformer returning an [outcome]: a normal return, a thrown
    exception (with the state reached when it was thrown), or exhaustion
    of the recursion budget that bounds nested calls into user components. *)

From Stdlib Require Import Ascii.
From stdpp Require Import gmap strings list pretty.

Set Warnings "-register-all".

(** ** JavaScript values *)

(** Function values.  [Class c] is a component class (constructible, its
    instances have a [render] method); [Arrow k] is any other callable that
    cannot be used with [new], such as an arrow function. *)
Inductive fn :=
| Class (c : nat)
| Arrow (k : nat).

(** Numbers are the integers of magnitude below 10^21, the ones whose
    string form is their decimal notation.  Objects are plain records of
    data properties, without accessors; an own method is considered only
    where a definition says so.  Objects and arrays are immutable values:
    the code under study never mutates a property bag or a child sequence
    it was given.  Nodes are references into the document store. *)
Inductive value :=
| VUndef
| VNull
| VBool (b : bool)
| VNum (n : Z)
| VStr (s : string)
| VSym (d : string)
| VArr (l : list value)
| VObj (o : list (string * value))
| VFun (f : fn)
| VNode (r : nat)
| VInstance.

(** Property keys: strings, or symbols (a symbol used as a key is kept as
    it is, it is not converted to a string). *)
Inductive pkey :=
| KStr (s : string)
| KSym (d : string).

#[global] Instance pkey_eq_dec : EqDecision pkey.
Proof. solve_decision. Defined.

#[global] Instance pkey_countable : Countable pkey.
Proof.
  refine (inj_countable'
            (fun k => match k with KStr s => inl s | KSym d => inr d end)
            (fun x => match x with inl s => KStr s | inr d => KSym d end) _).
  by intros [].
Defined.

#[global] Instance fn_eq_dec : EqDecision fn.
Proof. solve_decision. Defined.

(** ToBoolean. *)
Definition truthy (v : value) : bool :=
  match v with
  | VUndef | VNull => false
  | VBool b => b
  | VNum n => negb (Z.eqb n 0)
  | VStr s => negb (String.eqb s "")
  | _ => true
  end.

(** The [typeof] operator. *)
Definition typeof (v : value) : string :=
  match v with
  | VUndef => "undefined"
  | VNull => "object"
  | VBool _ => "boolean"
  | VNum _ => "number"
  | VStr _ => "string"
  | VSym _ => "symbol"
  | VFun _ => "function"
  | VArr _ | VObj _ | VNode _ | VInstance => "object"
  end.

Definition is_function (v : value) : bool :=
  match v with VFun _ => true | _ => false end.

(** [v != null] *)
Definition not_nullish (v : value) : bool :=
  match v with VUndef | VNull => false | _ => true end.

(** [Array.prototype.join(",")] on already converted elements. *)
Fixpoint join_comma (l : list string) : string :=
  match l with
  | [] => ""
  | [s] => s
  | s :: r => s +:+ "," +:+ join_comma r
  end.

Section Conversions.

(** The string form of a function (its source text) and of a node (its
    interface tag, such as [[object HTMLDivElement]]) is fixed by the
    host; it is left abstract. *)
Variable host_string : value -> string.

(** The abstract operation ToString on these values.  [None] stands for
    the [TypeError] raised on a symbol.  Plain objects inherit
    [Object.prototype.toString]; array elements [null] and [undefined]
    print as the empty string. *)
Fixpoint to_string (v : value) : option string :=
  match v with
  | VUndef => Some "undefined"
  | VNull => Some "null"
  | VBool true => Some "true"
  | VBool false => Some "false"
  | VNum n => Some (pretty n)
  | VStr s => Some s
  | VSym _ => None
  | VArr l =>
      join_comma <$>
        (fix elems (l : list value) : option (list string) :=
           match l with
           | [] => Some []
           | x :: r =>
               match (match x with
                      | VUndef | VNull => Some ""
                      | _ => to_string x
                      end), elems r with
               | Some s, Some ss => Some (s :: ss)
               | _, _ => None
               end
           end) l
  | VObj _ => Some "[object Object]"
  | VFun _ | VNode _ => Some (host_string v)
  | VInstance => Some "[object Object]"
  end.

(** The function [String(v)]: as ToString, but a symbol prints as its
    descriptive string instead of raising. *)
Definition String_ (v : value) : option string :=
  match v with
  | VSym d => Some ("Symbol(" +:+ d +:+ ")")
  | _ => to_string v
  end.

(** ToPropertyKey. *)
Definition to_key (v : value) : option pkey :=
  match v with
  | VSym d => Some (KSym d)
  | _ => KStr <$> to_string v
  end.

End Conversions.

(** Structural equality on values, used where the code compares with
    [===] or looks a value up in a [Set]. *)
Fixpoint value_eqb (a b : value) {struct a} : bool :=
  match a, b with
  | VUndef, VUndef | VNull, VNull | VInstance, VInstance => true
  | VBool x, VBool y => Bool.eqb x y
  | VNum x, VNum y => Z.eqb x y
  | VStr x, VStr y => String.eqb x y
  | VSym x, VSym y => String.eqb x y
  | VFun f, VFun g => bool_decide (f = g)
  | VNode r, VNode q => Nat.eqb r q
  | VArr l, VArr m =>
      (fix go (l m : list value) {struct l} : bool :=
         match l, m with
         | [], [] => true
         | x :: l', y :: m' => value_eqb x y && go l' m'
         | _, _ => false
         end) l m
  | VObj o, VObj p =>
      (fix go (o p : list (string * value)) {struct o} : bool :=
         match o, p with
         | [], [] => true
         | (k, x) :: o', (k', y) :: p' =>
             String.eqb k k' && value_eqb x y && go o' p'
         | _, _ => false
         end) o p
  | _, _ => false
  end.

(** ** Objects as property lists *)

(** Own properties in insertion order.  [obj_set] is the assignment
    [o[k] = v]: an existing key keeps its position. *)
Fixpoint obj_get (o : list (string * value)) (k : string) : option value :=
  match o with
  | [] => None
  | (k', v) :: r => if String.eqb k' k then Some v else obj_get r k
  end.

Fixpoint obj_set (o : list (string * value)) (k : string) (v : value)
  : list (string * value) :=
  match o with
  | [] => [(k, v)]
  | (k', v') :: r =>
      if String.eqb k' k then (k, v) :: r else (k', v') :: obj_set r k v
  end.

(** The names every plain object inherits from [Object.prototype]; each of
    them reads as a function, or for [__proto__] as the prototype object
    itself, so each of them is truthy. *)
Definition object_prototype_names : list string :=
  [ "constructor"; "__defineGetter__"; "__defineSetter__"; "hasOwnProperty";
    "__lookupGetter__"; "__lookupSetter__"; "isPrototypeOf";
    "propertyIsEnumerable"; "toString"; "valueOf"; "__proto__";
    "toLocaleString" ].

Definition inherited (k : string) : bool :=
  bool_decide (k ∈ object_prototype_names).

(** ** The document store *)

Inductive node_kind :=
| KDocument
| KElement (tag : string)
| KText (data : string).

(** A node of the host document.  [n_attrs] is the attribute list in the
    order the attributes were first set, [n_classes] the token list behind
    [classList], [n_style] the assignments made through [element.style]
    (recorded, not parsed as CSS), [n_kids] the child references in
    document order and [n_parent] the parent reference. *)
Record dnode := DNode {
  n_kind : node_kind;
  n_attrs : list (string * string);
  n_classes : list string;
  n_style : list (string * string);
  n_kids : list nat;
  n_parent : option nat
}.

(** A registered template: the arguments of the first build. *)
Record descriptor := Descriptor {
  d_tag : value;
  d_props : value;
  d_children : list value
}.

(** The process-wide state: the node store (a reference is an index; the
    [Document] node is reference [0]), the own properties of
    [__jesx_templates_raw], the own properties of [instance.config], the
    members of [instance.loadedStyles], the global variables visible to
    inline expressions, [window.location.hash], and what was written with
    [console.error]. *)
Record state := State {
  heap : list dnode;
  registry : gmap pkey descriptor;
  config : list (string * value);
  loadedStyles : list value;
  globals : gmap string value;
  location_hash : string;
  console : list string
}.

Definition document : nat := 0.

Definition set_heap (h : list dnode) (st : state) : state :=
  State h (registry st) (config st) (loadedStyles st) (globals st)
        (location_hash st) (console st).

Definition set_registry (r : gmap pkey descriptor) (st : state) : state :=
  State (heap st) r (config st) (loadedStyles st) (globals st)
        (location_hash st) (console st).

Definition set_config (c : list (string * value)) (st : state) : state :=
  State (heap st) (registry st) c (loadedStyles st) (globals st)
        (location_hash st) (console st).

Definition set_loadedStyles (l : list value) (st : state) : state :=
  State (heap st) (registry st) (config st) l (globals st)
        (location_hash st) (console st).

Definition set_console (l : list string) (st : state) : state :=
  State (heap st) (registry st) (config st) (loadedStyles st) (globals st)
        (location_hash st) l.

(** ** Outcomes and the state-and-exception monad *)

Inductive outcome (A : Type) :=
| Ok (a : A) (st : state)
| Throw (e : string) (st : state)
| OutOfFuel.

Arguments Ok {A} a st.
Arguments Throw {A} e st.
Arguments OutOfFuel {A}.

Definition M (A : Type) : Type := state -> outcome A.

Definition ret {A} (a : A) : M A := fun st => Ok a st.

Definition throw {A} (e : string) : M A := fun st => Throw e st.

Definition bind {A B} (m : M A) (k : A -> M B) : M B :=
  fun st =>
    match m st with
    | Ok a st' => k a st'
    | Throw e st' => Throw e st'
    | OutOfFuel => OutOfFuel
    end.

Notation "'let!' x ':=' m 'in' k" := (bind m (fun x => k))
  (at level 10, x pattern, m at level 100, k at level 200).
Notation "m ';;' k" := (bind m (fun _ => k))
  (at level 100, k at level 200, right associativity).

Definition get_state : M state := fun st => Ok st st.

Definition modify (f : state -> state) : M unit := fun st => Ok tt (f st).

(** [xs.forEach(f)] *)
Fixpoint forEach {A} (f : A -> M unit) (xs : list A) : M unit :=
  match xs with
  | [] => ret tt
  | x :: r => f x ;; forEach f r
  end.

(** The state an outcome ends in, when it ends. *)
Definition final_state {A} (o : outcome A) : option state :=
  match o with
  | Ok _ st | Throw _ st => Some st
  | OutOfFuel => None
  end.

(** ** Host primitives on the store *)

Definition new_node (k : node_kind) : dnode := DNode k [] [] [] [] None.

Definition with_attrs (f : list (string * string) -> list (string * string))
  (n : dnode) : dnode :=
  DNode (n_kind n) (f (n_attrs n)) (n_classes n) (n_style n) (n_kids n)
        (n_parent n).

Definition with_classes (f : list string -> list string) (n : dnode) : dnode :=
  DNode (n_kind n) (n_attrs n) (f (n_classes n)) (n_style n) (n_kids n)
        (n_parent n).

Definition with_style (f : list (string * string) -> list (string * string))
  (n : dnode) : dnode :=
  DNode (n_kind n) (n_attrs n) (n_classes n) (f (n_style n)) (n_kids n)
        (n_parent n).

Definition with_kids (f : list nat -> list nat) (n : dnode) : dnode :=
  DNode (n_kind n) (n_attrs n) (n_classes n) (n_style n) (f (n_kids n))
        (n_parent n).

Definition with_parent (p : option nat) (n : dnode) : dnode :=
  DNode (n_kind n) (n_attrs n) (n_classes n) (n_style n) (n_kids n) p.

(** Attribute lists behave like ordered maps from names to strings. *)
Fixpoint attr_get (l : list (string * string)) (k : string) : option string :=
  match l with
  | [] => None
  | (k', v) :: r => if String.eqb k' k then Some v else attr_get r k
  end.

Fixpoint attr_set (l : list (string * string)) (k v : string)
  : list (string * string) :=
  match l with
  | [] => [(k, v)]
  | (k', v') :: r =>
      if String.eqb k' k then (k, v) :: r else (k', v') :: attr_set r k v
  end.

Definition remove_ref (c : nat) (l : list nat) : list nat :=
  filter (fun x => x <> c) l.

(** Replace the occurrences of [old] by [new], in place. *)
Definition replace_ref (old new : nat) (l : list nat) : list nat :=
  (fun x => if Nat.eqb x old then new else x) <$> l.

(** Remove a node from its parent, if it has one. *)
Definition detach (c : nat) (h : list dnode) : list dnode :=
  match h !! c with
  | Some n =>
      match n_parent n with
      | Some q => alter (with_parent None) c (alter (with_kids (remove_ref c)) q h)
      | None => h
      end
  | None => h
  end.

(** Is [a] the node [r] or one of its ancestors?  The parent chain is
    followed for at most [fuel] steps. *)
Fixpoint inclusive_ancestor (fuel : nat) (h : list dnode) (a r : nat) : bool :=
  Nat.eqb a r ||
  match fuel with
  | O => false
  | S f =>
      match h !! r with
      | Some n =>
          match n_parent n with
          | Some q => inclusive_ancestor f h a q
          | None => false
          end
      | None => false
      end
  end.

Definition is_text (n : dnode) : bool :=
  match n_kind n with KText _ => true | _ => false end.

Definition is_document (n : dnode) : bool :=
  match n_kind n with KDocument => true | _ => false end.

Definition is_element (n : dnode) : bool :=
  match n_kind n with KElement _ => true | _ => false end.

Definition tag_of (n : dnode) : option string :=
  match n_kind n with KElement t => Some t | _ => None end.

Definition has_element_child (h : list dnode) (n : dnode) (except : option nat)
  : bool :=
  existsb (fun k =>
             match h !! k with
             | Some kn => is_element kn && negb (bool_decide (Some k = except))
             | None => false
             end) (n_kids n).

(** The first result a search gives along a list. *)
Fixpoint first_some {A B} (f : A -> option B) (l : list A) : option B :=
  match l with
  | [] => None
  | x :: r => match f x with Some y => Some y | None => first_some f r end
  end.

(** The first element with the given [id] attribute, in document order,
    in the subtree of [r]. *)
Fixpoint find_by_id (fuel : nat) (h : list dnode) (id : string) (r : nat)
  : option nat :=
  match fuel with
  | O => None
  | S f =>
      match h !! r with
      | Some n =>
          if is_element n && bool_decide (attr_get (n_attrs n) "id" = Some id)
          then Some r
          else first_some (find_by_id f h id) (n_kids n)
      | None => None
      end
  end.

(** [node.textContent] (read): the text of the descendants, in order. *)
Fixpoint text_content (fuel : nat) (h : list dnode) (r : nat) : string :=
  match fuel with
  | O => ""
  | S f =>
      match h !! r with
      | Some n =>
          match n_kind n with
          | KText d => d
          | _ => foldr (fun k acc => text_content f h k +:+ acc) "" (n_kids n)
          end
      | None => ""
      end
  end.

(** The descendants of [r] (itself excluded) that are elements with the
    given tag, in document order: [r.querySelectorAll(tag)]. *)
Fixpoint descendants_by_tag (fuel : nat) (h : list dnode) (tag : string)
  (r : nat) : list nat :=
  match fuel with
  | O => []
  | S f =>
      match h !! r with
      | Some n =>
          flat_map (fun k =>
                      match h !! k with
                      | Some kn =>
                          (if bool_decide (tag_of kn = Some tag) then [k] else [])
                            ++ descendants_by_tag f h tag k
                      | None => []
                      end) (n_kids n)
      | None => []
      end
  end.

Definition child_with (h : list dnode) (P : dnode -> bool) (r : nat)
  : option nat :=
  match h !! r with
  | Some n =>
      first_some (fun k => match h !! k with
                           | Some kn => if P kn then Some k else None
                           | None => None
                           end) (n_kids n)
  | None => None
  end.

Definition documentElement (h : list dnode) : option nat :=
  child_with h is_element document.

(** [document.head] and [document.body]; [None] is [null]. *)
Definition document_head (h : list dnode) : option nat :=
  match documentElement h with
  | Some e => child_with h (fun n => bool_decide (tag_of n = Some "head")) e
  | None => None
  end.

Definition document_body (h : list dnode) : option nat :=
  match documentElement h with
  | Some e =>
      child_with h (fun n => bool_decide (tag_of n = Some "body")
                             || bool_decide (tag_of n = Some "frameset")) e
  | None => None
  end.

(** A class token may be neither empty nor contain ASCII white space. *)
Definition is_space (a : ascii) : bool :=
  bool_decide (Ascii.nat_of_ascii a ∈ [32; 9; 10; 12; 13]).

Fixpoint has_space (s : string) : bool :=
  match s with
  | EmptyString => false
  | String a r => is_space a || has_space r
  end.

(** ASCII lower case: in an HTML document [document.createElement] and
    [setAttribute] convert the name they are given to lower case. *)
Definition is_upper (a : ascii) : bool :=
  (65 <=? Ascii.nat_of_ascii a) && (Ascii.nat_of_ascii a <=? 90).

Definition lower_char (a : ascii) : ascii :=
  if is_upper a then Ascii.ascii_of_nat (Ascii.nat_of_ascii a + 32) else a.

Fixpoint lower (s : string) : string :=
  match s with
  | EmptyString => EmptyString
  | String a r => String (lower_char a) (lower r)
  end.

(** Names without upper-case ASCII letters, which the conversion keeps. *)
Fixpoint no_upper (s : string) : bool :=
  match s with
  | EmptyString => true
  | String a r => negb (is_upper a) && no_upper r
  end.

(** ** User code *)

(** The first argument of [j], as its documentation types it: a tag name
    or a function. *)
Inductive jhead :=
| HTag (t : string)
| HFun (f : fn).

Definition head_value (h : jhead) : value :=
  match h with HTag t => VStr t | HFun f => VFun f end.

(** What a component's [render] method evaluates: a value at hand, an
    array literal, or a call [j(head, props, ...kids)]. *)
Inductive expr :=
| ELit (v : value)
| EArr (es : list expr)
| ECall (hd : jhead) (props : value) (kids : list expr).

(** ** A concrete host, for running the model *)

Module Example.

Definition host_string (v : value) : string :=
  match v with
  | VFun _ => "function () { [native code] }"
  | _ => "[object HTMLElement]"
  end.

(** Names without white space. *)
Definition valid_name (s : string) : bool :=
  negb (String.eqb s "") && negb (has_space s).

Definition css_property (s : string) : bool := true.

Definition is_digit (a : ascii) : bool :=
  let n := nat_of_ascii a in (48 <=? n)%nat && (n <=? 57)%nat.

Fixpoint all_digits (s : string) : bool :=
  match s with
  | EmptyString => true
  | String a r => is_digit a && all_digits r
  end.

Fixpoint digits_value (acc : Z) (s : string) : Z :=
  match s with
  | EmptyString => acc
  | String a r => digits_value (10 * acc + Z.of_nat (nat_of_ascii a - 48))%Z r
  end.

Fixpoint split_plus (s : string) (cur : string) : list string :=
  match s with
  | EmptyString => [cur]
  | String a r =>
      if Ascii.eqb a "+"%char then cur :: split_plus r EmptyString
      else split_plus r (cur +:+ String a EmptyString)
  end.

(** An operand: a decimal literal, the call [Symbol()], or a global
    variable ([None], a [ReferenceError], when it is not defined). *)
Definition operand (g : gmap string value) (s : string) : option value :=
  if String.eqb s "" then None
  else if all_digits s then Some (VNum (digits_value 0 s))
  else if String.eqb s "Symbol()" then Some (VSym "")
  else g !! s.

Definition add_numbers (a b : option value) : option value :=
  match a, b with
  | Some (VNum x), Some (VNum y) => Some (VNum (x + y))
  | _, _ => None
  end.

(** [Function(body)()] for bodies [return e] where [e] is one operand or a
    sum of operands that are numbers; the examples use nothing else. *)
Definition call_Function (g : gmap string value) (body : string)
  : option value :=
  if String.prefix "return " body then
    match split_plus (String.substring 7 (String.length body - 7) body)
                     EmptyString with
    | [] => None
    | [x] => operand g x
    | x :: r => foldl (fun acc y => add_numbers acc (operand g y)) (operand g x) r
    end
  else None.

(** The empty document [<html><head></head><body></body></html>]. *)
Definition empty_document : list dnode :=
  [ DNode KDocument [] [] [] [1] None;
    DNode (KElement "html") [] [] [] [2; 3] (Some 0);
    DNode (KElement "head") [] [] [] [] (Some 1);
    DNode (KElement "body") [] [] [] [] (Some 1) ].

(** The configuration the constructor installs (lines 25-38). *)
Definition default_config : list (string * value) :=
  [ ("title", VStr "Site");
    ("ui", VObj [("theme", VStr "light")]);
    ("style", VNull);
    ("styles", VArr []);
    ("global", VObj [("headers", VArr []); ("footers", VArr []);
                     ("pages", VArr [VStr "*"])]);
    ("pages", VObj []) ].

(** The state when the module has been loaded. *)
Definition initial : state :=
  State empty_document ∅ default_config [] ∅ "" [].

(** Component classes: class [0] renders a paragraph with an inline
    expression, every other class [c] renders an element with the
    identifier [c] followed by the class number. *)
Definition components (c : nat) (props : value) : expr :=
  match c with
  | O => ECall (HTag "p") VNull [ELit (VStr "total J{2+3}")]
  | S _ => ECall (HTag "nav") (VObj [("id", VStr ("c" +:+ pretty c))])
             [ELit (VStr "part")]
  end.

Definition with_config (c : list (string * value)) (st : state) : state :=
  State (heap st) (registry st) c (loadedStyles st) (globals st)
        (location_hash st) (console st).

Definition with_hash (h : string) (st : state) : state :=
  State (heap st) (registry st) (config st) (loadedStyles st) (globals st)
        h (console st).

Definition with_globals (g : gmap string value) (st : state) : state :=
  State (heap st) (registry st) (config st) (loadedStyles st) g
        (location_hash st) (console st).

(** A site with two pages, two global headers and one global footer. *)
Definition site_config : list (string * value) :=
  [ ("title", VStr "Site");
    ("ui", VObj [("theme", VStr "light")]);
    ("style", VNull);
    ("styles", VArr []);
    ("global", VObj [("headers", VArr [VFun (Class 1); VFun (Class 2)]);
                     ("footers", VArr [VFun (Class 3)]);
                     ("pages", VArr [VStr "*"])]);
    ("pages", VObj [("/", VFun (Class 0)); ("/about", VFun (Class 4))]) ].

Definition site : state := with_config site_config initial.

(** A page map whose root entry is an arrow function. *)
Definition arrow_site : state :=
  with_config (obj_set default_config "pages"
                 (VObj [("/", VFun (Arrow 0))])) initial.

(** A document whose body holds [<div id="constructor"></div>]. *)
Definition constructor_document : list dnode :=
  [ DNode KDocument [] [] [] [1] None;
    DNode (KElement "html") [] [] [] [2; 3] (Some 0);
    DNode (KElement "head") [] [] [] [] (Some 1);
    DNode (KElement "body") [] [] [] [4] (Some 1);
    DNode (KElement "div") [("id", "constructor")] [] [] [] (Some 3) ].

Definition constructor_page : state :=
  State constructor_document ∅ default_config [] ∅ "" [].

(** A page whose body holds the element built by
    [j("span", {id: "x"}, "J{counter}")] when [counter] was [1]; the
    variable has since become [2]. *)
Definition counter_descriptor : descriptor :=
  Descriptor (VStr "span") (VObj [("id", VStr "x")]) [VStr "J{counter}"].

Definition counter_document : list dnode :=
  [ DNode KDocument [] [] [] [1] None;
    DNode (KElement "html") [] [] [] [2; 3] (Some 0);
    DNode (KElement "head") [] [] [] [] (Some 1);
    DNode (KElement "body") [] [] [] [4] (Some 1);
    DNode (KElement "span") [("id", "x")] [] [] [5] (Some 3);
    DNode (KText "1") [] [] [] [] (Some 4) ].

Definition counter_page : state :=
  State counter_document {[ KStr "x" := counter_descriptor ]} default_config []
        {[ "counter" := VNum 2 ]} "" [].

(** A site whose global header is a node made once: the class [1]
    returns the node [4], a detached [header] element, on every render,
    and the site lists it twice. *)
Definition cached_components (c : nat) (props : value) : expr :=
  match c with
  | O => ECall (HTag "p") VNull [ELit (VStr "page")]
  | S _ => ELit (VNode 4)
  end.

Definition banner_document : list dnode :=
  empty_document ++ [DNode (KElement "header") [] [] [] [] None].

Definition banner_config : list (string * value) :=
  [ ("title", VStr "Site");
    ("ui", VObj [("theme", VStr "light")]);
    ("style", VNull);
    ("styles", VArr []);
    ("global", VObj [("headers", VArr [VFun (Class 1); VFun (Class 1)]);
                     ("footers", VArr []);
                     ("pages", VArr [VStr "*"])]);
    ("pages", VObj [("/", VFun (Class 0))]) ].

Definition banner_site : state :=
  State banner_document ∅ banner_config [] ∅ "" [].

End Example.

Section JESX.

(** What the host and the user decide.  [host_string] is the string form
    of functions and nodes; [valid_tag] and [valid_attr] say which names
    [document.createElement] and [setAttribute] accept;
    [css_property] says which names are properties of [element.style];
    [call_Function g body] is the result of [Function(body)()] with the
    global variables [g], [None] when building or calling the function
    throws (inline expressions are taken to have no effect on the state);
    [render_of c props] is the body of the [render] method of an
    instance of component class [c] constructed with [props]. *)
Variable host_string : value -> string.
Variable valid_tag : string -> bool.
Variable valid_attr : string -> bool.
Variable css_property : string -> bool.
Variable call_Function : gmap string value -> string -> option value.
Variable render_of : nat -> value -> expr.

#[local] Abbreviation to_string := (to_string host_string).
#[local] Abbreviation String_ := (String_ host_string).
#[local] Abbreviation to_key := (to_key host_string).

(** *** DOM methods *)

Definition alloc (n : dnode) : M nat :=
  fun st => Ok (length (heap st)) (set_heap (heap st ++ [n]) st).

(** [document.createElement(tag)] in an HTML document: the name is
    checked as given and the element is named by its lower-case form
    (the letters [A] to [Z] are replaced). *)
Definition document_createElement (tag : value) : M nat :=
  match to_string tag with
  | None => throw "TypeError"
  | Some name =>
      if valid_tag name then alloc (new_node (KElement (lower name)))
      else throw "InvalidCharacterError"
  end.

(** [document.createTextNode(data)] *)
Definition document_createTextNode (data : string) : M nat :=
  alloc (new_node (KText data)).

(** [el.setAttribute(name, value)] on an element of an HTML document:
    the name is checked as given and the attribute is named by its
    lower-case form. *)
Definition setAttribute (el : nat) (name : string) (v : value) : M unit :=
  match to_string v with
  | None => throw "TypeError"
  | Some s =>
      if valid_attr name
      then modify (fun st =>
             set_heap (alter (with_attrs (fun l => attr_set l (lower name) s))
                             el (heap st)) st)
      else throw "InvalidCharacterError"
  end.

(** [el.classList.add(token)] *)
Definition classList_add (el : nat) (token : string) : M unit :=
  if String.eqb token "" then throw "SyntaxError"
  else if has_space token then throw "InvalidCharacterError"
  else modify (fun st =>
         set_heap (alter (with_classes (fun l =>
                            if bool_decide (token ∈ l) then l
                            else l ++ [token])) el (heap st)) st).

(** [el.style[prop] = val]: assigning a name that is not a style
    property has no effect on the document; [null] is the empty string. *)
Definition style_set (el : nat) (prop : string) (v : value) : M unit :=
  if css_property prop then
    match (match v with VNull => Some "" | _ => to_string v end) with
    | None => throw "TypeError"
    | Some s =>
        modify (fun st =>
          set_heap (alter (with_style (fun l => attr_set l prop s)) el
                          (heap st)) st)
    end
  else ret tt.

(** [parent.appendChild(child)]: the child leaves its former parent and
    becomes the last child of [parent]. *)
Definition appendChild (parent : nat) (child : value) : M unit :=
  fun st =>
    let h := heap st in
    match child with
    | VNode c =>
        match h !! parent, h !! c with
        | Some pn, Some cn =>
            if is_text pn || is_document cn
               || inclusive_ancestor (length h) h c parent
               || (is_document pn
                   && (is_text cn || has_element_child h pn None))
            then Throw "HierarchyRequestError" st
            else Ok tt (set_heap
                          (alter (with_parent (Some parent)) c
                             (alter (with_kids (fun l => l ++ [c])) parent
                                (detach c h))) st)
        | _, _ => Throw "TypeError" st
        end
    | _ => Throw "TypeError" st
    end.

(** [parent.replaceChild(newNode, old)] *)
Definition replaceChild (parent : nat) (newNode : value) (old : nat)
  : M unit :=
  fun st =>
    let h := heap st in
    match newNode with
    | VNode c =>
        match h !! parent, h !! c, h !! old with
        | Some pn, Some cn, Some on =>
            if is_text pn || is_document cn
               || inclusive_ancestor (length h) h c parent
            then Throw "HierarchyRequestError" st
            else if negb (bool_decide (n_parent on = Some parent))
            then Throw "NotFoundError" st
            else if is_document pn
                    && (is_text cn || has_element_child h pn (Some old))
            then Throw "HierarchyRequestError" st
            else if Nat.eqb c old then Ok tt st
            else Ok tt (set_heap
                          (alter (with_parent None) old
                             (alter (with_parent (Some parent)) c
                                (alter (with_kids (replace_ref old c)) parent
                                   (detach c h)))) st)
        | _, _, _ => Throw "TypeError" st
        end
    | _ => Throw "TypeError" st
    end.

(** [el.innerHTML = ''] *)
Definition clear_children (el : nat) : M unit :=
  modify (fun st =>
    let h := heap st in
    match h !! el with
    | Some n =>
        set_heap (alter (with_kids (fun _ => [])) el
                    (foldr (fun k acc => alter (with_parent None) k acc) h
                           (n_kids n))) st
    | None => st
    end).

(** [document.getElementById(id)]; [None] is [null]. *)
Definition getElementById (id : value) : M (option nat) :=
  match to_string id with
  | None => throw "TypeError"
  | Some s =>
      fun st =>
        Ok (if String.eqb s "" then None
            else find_by_id (length (heap st)) (heap st) s document) st
  end.

(** [node.parentNode] *)
Definition parentNode (r : nat) : M (option nat) :=
  fun st => Ok (match heap st !! r with
                | Some n => n_parent n
                | None => None
                end) st.

(** *** Inline expressions *)

(** The callback given to [replace]: the value of the expression, or the
    string ["undefined"] when building or calling the function throws. *)
Definition inline_value (g : gmap string value) (e : string) : value :=
  match call_Function g ("return " +:+ e) with
  | Some v => v
  | None => VStr "undefined"
  end.

(** [str.replace(/J\{([^}]+)\}/g, callback)].  The scan is outside a
    pattern ([inside = None]) or has read [J{] and the characters [body]
    after it.  The first [}] closes the pattern when [body] is not empty;
    [replace] then converts what the callback returned with ToString,
    which is where [None] (a [TypeError]) comes from. *)
Fixpoint replace_inline (g : gmap string value) (s : string)
  (inside : option string) : option string :=
  match s, inside with
  | EmptyString, None => Some EmptyString
  | EmptyString, Some body => Some ("J{" +:+ body)
  | String c r, Some body =>
      if Ascii.eqb c "}"%char
      then if String.eqb body ""
           then (fun t => "J{}" +:+ t) <$> replace_inline g r None
           else match to_string (inline_value g body) with
                | Some t => (fun u => t +:+ u) <$> replace_inline g r None
                | None => None
                end
      else replace_inline g r (Some (body +:+ String c EmptyString))
  | String c r, None =>
      match r with
      | String c' r' =>
          if Ascii.eqb c "J"%char && Ascii.eqb c' "{"%char
          then replace_inline g r' (Some EmptyString)
          else String c <$> replace_inline g r None
      | EmptyString => Some (String c EmptyString)
      end
  end.

(** Does the closing brace occur in [s]? *)
Fixpoint has_close (s : string) : bool :=
  match s with
  | EmptyString => false
  | String c r => Ascii.eqb c "}"%char || has_close r
  end.

Definition evalTemplate (str : string) : M string :=
  fun st =>
    match replace_inline (globals st) str None with
    | Some t => Ok t st
    | None => Throw "TypeError" st
    end.

(** *** Property access *)

Fixpoint indexed (i : nat) (l : list value) : list (string * value) :=
  match l with
  | [] => []
  | x :: r => (pretty i, x) :: indexed (S i) r
  end.

Fixpoint chars (s : string) : list value :=
  match s with
  | EmptyString => []
  | String c r => VStr (String c EmptyString) :: chars r
  end.

(** [Object.entries(v)]; [None] is the [TypeError] on [null] and
    [undefined].  Functions and nodes have no own enumerable properties;
    the instance has its two fields, [loadedStyles] standing as the string
    a [Set] converts to. *)
Definition entries (st : state) (v : value) : option (list (string * value)) :=
  match v with
  | VUndef | VNull => None
  | VObj o => Some o
  | VArr l => Some (indexed 0 l)
  | VStr s => Some (indexed 0 (chars s))
  | VInstance =>
      Some [("config", VObj (config st)); ("loadedStyles", VStr "[object Set]")]
  | _ => Some []
  end.

(** [v.id] on a value that is neither [null] nor [undefined]: an own
    property of an object, the reflected attribute of an element. *)
Definition get_id (st : state) (v : value) : value :=
  match v with
  | VObj o => default VUndef (obj_get o "id")
  | VNode r =>
      match heap st !! r with
      | Some n =>
          if is_element n then VStr (default "" (attr_get (n_attrs n) "id"))
          else VUndef
      | None => VUndef
      end
  | _ => VUndef
  end.

(** *** The template registry *)

(** What [__jesx_templates_raw[key]] reads: a registered descriptor, a
    member inherited from [Object.prototype], or [undefined]. *)
Inductive registry_read :=
| RDescriptor (d : descriptor)
| RInherited (name : string)
| RUndefined.

Definition registry_get (st : state) (k : pkey) : registry_read :=
  match registry st !! k with
  | Some d => RDescriptor d
  | None =>
      match k with
      | KStr s => if inherited s then RInherited s else RUndefined
      | KSym _ => RUndefined
      end
  end.

Definition registry_truthy (r : registry_read) : bool :=
  match r with RUndefined => false | _ => true end.

(** Lines 163-166: remember the arguments of the first build that carries
    a truthy [id]. *)
Definition register_template (tag props : value) (children : list value)
  : M unit :=
  fun st =>
    let nodeId := if truthy props then get_id st props else props in
    if truthy nodeId then
      match to_key nodeId with
      | None => Throw "TypeError" st
      | Some k =>
          if registry_truthy (registry_get st k) then Ok tt st
          else Ok tt (set_registry
                        (<[k := Descriptor tag props children]> (registry st)) st)
      end
    else Ok tt st.

(** *** The element builder *)

Definition entries_or_throw (v : value) : M (list (string * value)) :=
  fun st =>
    match entries st v with
    | Some l => Ok l st
    | None => Throw "TypeError" st
    end.

(** Lines 172-186: one entry of the property bag. *)
Definition set_property (element : nat) (kv : string * value) : M unit :=
  let (key, v) := kv in
  if String.eqb key "class" && String.eqb (typeof v) "object" then
    let! l := entries_or_throw v in
    forEach (fun ce : string * value =>
               if truthy (snd ce) then classList_add element (fst ce)
               else ret tt) l
  else if String.eqb key "style" && String.eqb (typeof v) "object" then
    let! l := entries_or_throw v in
    forEach (fun pv : string * value => style_set element (fst pv) (snd pv)) l
  else setAttribute element key v.

Definition text_of (v : value) : M string :=
  match String_ v with
  | Some s => ret s
  | None => throw "TypeError"
  end.

(** Lines 200-210: the local function [appendChild] of [createElement]. *)
Fixpoint append_child (element : nat) (child : value) {struct child} : M unit :=
  match child with
  | VArr l =>
      (fix each (l : list value) : M unit :=
         match l with
         | [] => ret tt
         | x :: r => append_child element x ;; each r
         end) l
  | VStr _ | VNum _ =>
      let! s := text_of child in
      let! t := evalTemplate s in
      let! n := document_createTextNode t in
      appendChild element (VNode n)
  | VNode _ => appendChild element child
  | VUndef | VNull => ret tt
  | _ =>
      let! s := text_of child in
      let! n := document_createTextNode s in
      appendChild element (VNode n)
  end.

(** [new component(props)] followed by [instance.render()].  [ev] runs the
    body of a [render] method. *)
Definition instantiate_and_render (ev : expr -> M value) (f : fn)
  (props : value) : M value :=
  match f with
  | Class c => ev (render_of c props)
  | Arrow _ => throw "TypeError"
  end.

(** [JESX.createElement(tag, props, ...children)] *)
Definition createElement (ev : expr -> M value) (tag props : value)
  (children : list value) : M value :=
  match tag with
  | VFun f => instantiate_and_render ev f props
  | _ =>
      register_template tag props children ;;
      let! element := document_createElement tag in
      (if truthy props then
         let! l := entries_or_throw props in
         forEach (set_property element) l
       else ret tt) ;;
      forEach (append_child element) children ;;
      ret (VNode element)
  end.

(** *** Configuration access *)

(** [v[k]] for the fixed names the code reads ([ui], [theme], [global],
    [pages], [headers], ...), none of which is inherited: an own property
    or [undefined]; reading from [null] or [undefined] throws. *)
Definition get_field (v : value) (k : string) : M value :=
  match v with
  | VUndef | VNull => throw "TypeError"
  | VObj o => ret (default VUndef (obj_get o k))
  | _ => ret VUndef
  end.

Definition config_field (k : string) : M value :=
  fun st => Ok (default VUndef (obj_get (config st) k)) st.

(** [a.forEach(f)] on a value of this model.  Arrays have the method;
    strings, numbers, booleans, symbols, functions and nodes have none,
    and an object is taken to own no callable [forEach] (sets and other
    collections are not among the values). *)
Definition forEach_value (f : value -> M unit) (a : value) : M unit :=
  match a with
  | VArr l => forEach f l
  | _ => throw "TypeError"
  end.

Fixpoint is_substring (sub s : string) : bool :=
  String.prefix sub s ||
  match s with
  | EmptyString => false
  | String _ r => is_substring sub r
  end.

(** [a.includes(x)] for a string [x]: membership in an array, substring
    of a string, no such method otherwise. *)
Definition includes (a : value) (x : string) : M bool :=
  match a with
  | VArr l => ret (existsb (fun y => value_eqb y (VStr x)) l)
  | VStr s => ret (is_substring x s)
  | _ => throw "TypeError"
  end.

(** *** The route resolver *)

(** [String.prototype.slice(1)] *)
Definition slice1 (s : string) : string :=
  match s with
  | EmptyString => EmptyString
  | String _ r => r
  end.

(** [JESX.getCurrentRoute()] *)
Definition getCurrentRoute : M string :=
  fun st =>
    let hash := slice1 (location_hash st) in
    Ok (if truthy (VStr hash) then "/" +:+ hash else "/") st.

(** [JESX.shouldHaveGlobal(page)] *)
Definition shouldHaveGlobal (page : string) : M bool :=
  let! g := config_field "global" in
  let! globalPages := get_field g "pages" in
  let! star := includes globalPages "*" in
  if star then ret true else includes globalPages page.

(** [JESX.getGlobalHeaders(page)] and [JESX.getGlobalFooters(page)] *)
Definition getGlobalHeaders (page : string) : M value :=
  let! b := shouldHaveGlobal page in
  if b then (let! g := config_field "global" in get_field g "headers")
  else ret (VArr []).

Definition getGlobalFooters (page : string) : M value :=
  let! b := shouldHaveGlobal page in
  if b then (let! g := config_field "global" in get_field g "footers")
  else ret (VArr []).

(** *** Style sheets *)

Definition loaded (url : value) : M bool :=
  fun st => Ok (existsb (value_eqb url) (loadedStyles st)) st.

Definition head_or_throw : M nat :=
  fun st =>
    match document_head (heap st) with
    | Some r => Ok r st
    | None => Throw "TypeError" st
    end.

Definition body_or_throw : M nat :=
  fun st =>
    match document_body (heap st) with
    | Some r => Ok r st
    | None => Throw "TypeError" st
    end.

(** Assigning a reflected property such as [link.rel] or [link.href]. *)
Definition set_reflected (el : nat) (name : string) (v : value) : M unit :=
  match to_string v with
  | None => throw "TypeError"
  | Some s =>
      modify (fun st =>
        set_heap (alter (with_attrs (fun l => attr_set l name s)) el (heap st))
                 st)
  end.

(** The body shared by [addDefaultStyles] and [addStyle]. *)
Definition addStyle (url : value) : M unit :=
  let! has := loaded url in
  if has then ret tt
  else
    let! link := document_createElement (VStr "link") in
    set_reflected link "rel" (VStr "stylesheet") ;;
    set_reflected link "href" url ;;
    let! head := head_or_throw in
    appendChild head (VNode link) ;;
    modify (fun st => set_loadedStyles (loadedStyles st ++ [url]) st).

Definition addDefaultStyles : M unit := addStyle (VStr "defaultstyles.css").

(** [JESX.addStyles(urls)] *)
Definition addStyles (urls : value) : M unit := forEach_value addStyle urls.

(** What [el.textContent = v] stores: [null] and [undefined] are the
    empty string, every other value its string form. *)
Definition text_data (v : value) : option string :=
  match v with
  | VNull | VUndef => Some ""
  | _ => to_string v
  end.

(** [JESX.addInlineStyle(css)] *)
Definition addInlineStyle (css : value) : M unit :=
  let! head := head_or_throw in
  let! st := get_state in
  let h := heap st in
  if existsb (fun s => value_eqb (VStr (text_content (length h) h s)) css)
             (descendants_by_tag (length h) h "style" head)
  then ret tt
  else
    let! style := document_createElement (VStr "style") in
    match text_data css with
    | None => throw "TypeError"
    | Some s =>
        (if String.eqb s "" then ret tt
         else let! t := document_createTextNode s in
              appendChild style (VNode t)) ;;
        let! head := head_or_throw in
        appendChild head (VNode style)
    end.

(** [Object.assign(target, source)]: the own properties of the source
    are assigned to the target in order.  This is what the code does for
    every key but [__proto__], whose assignment sets the prototype of the
    target instead of a field; sources that own that key are excluded
    where this function is reasoned about. *)
Definition object_assign (st : state) (target : list (string * value))
  (source : value) : list (string * value) :=
  match entries st source with
  | Some l => foldl (fun acc kv => obj_set acc (fst kv) (snd kv)) target l
  | None => target
  end.

Definition is_array (v : value) : bool :=
  match v with VArr _ => true | _ => false end.

(** [JESX.cfg(config)] *)
Definition cfg (overlay : value) : M value :=
  modify (fun st => set_config (object_assign st (config st) overlay) st) ;;
  let! ui := config_field "ui" in
  (if truthy ui then
     let! theme := get_field ui "theme" in
     if truthy theme then
       let! body := body_or_throw in
       setAttribute body "data-theme" theme
     else ret tt
   else ret tt) ;;
  let! style := config_field "style" in
  (if truthy style then addStyle style else ret tt) ;;
  let! styles := config_field "styles" in
  (if truthy styles && is_array styles then addStyles styles else ret tt) ;;
  let! inlineStyle := config_field "inlineStyle" in
  (if truthy inlineStyle then addInlineStyle inlineStyle else ret tt) ;;
  ret VInstance.

(** *** Running user code *)

Section Calls.

(** [jrec] is the function [j] as the bodies below call it. *)
Variable jrec : list value -> M value.

(** Evaluate the body of a [render] method, arguments left to right. *)
Fixpoint eval_expr (e : expr) : M value :=
  match e with
  | ELit v => ret v
  | EArr es =>
      let! vs :=
        (fix each (es : list expr) : M (list value) :=
           match es with
           | [] => ret []
           | x :: r => let! v := eval_expr x in
                       let! vs := each r in ret (v :: vs)
           end) es in
      ret (VArr vs)
  | ECall hd props kids =>
      let! vs :=
        (fix each (es : list expr) : M (list value) :=
           match es with
           | [] => ret []
           | x :: r => let! v := eval_expr x in
                       let! vs := each r in ret (v :: vs)
           end) kids in
      jrec (head_value hd :: props :: vs)
  end.

(** [JESX.renderComponent(component)] *)
Definition renderComponent (component : value) : M value :=
  match component with
  | VFun f => instantiate_and_render eval_expr f VUndef
  | _ => throw "TypeError"
  end.

Definition node_or_throw (v : value) : M nat :=
  match v with
  | VNode r => ret r
  | _ => throw "TypeError"
  end.

(** [pages.hasOwnProperty(route) ? pages[route] : pages['/']].  A route
    starts with [/], so only a plain object can own it.  An own property
    named [hasOwnProperty] shadows the method: calling a class or a value
    that is no function throws, and an arrow function is taken to return
    [undefined]. *)
Definition select_component (pages : value) (route : string) : M value :=
  match pages with
  | VUndef | VNull => throw "TypeError"
  | VObj o =>
      match obj_get o "hasOwnProperty" with
      | Some (VFun (Arrow _)) => ret (default VUndef (obj_get o "/"))
      | Some _ => throw "TypeError"
      | None =>
          match obj_get o route with
          | Some c => ret c
          | None => ret (default VUndef (obj_get o "/"))
          end
      end
  | _ => ret VUndef
  end.

(** Lines 275-276: the route and the body component of a render pass. *)
Definition selected_component : M (string * value) :=
  let! route := getCurrentRoute in
  let! pages := config_field "pages" in
  let! component := select_component pages route in
  ret (route, component).

(** Lines 282-288: the mount container, created and appended to the body
    when the document has none. *)
Definition mount_container : M nat :=
  let! found := getElementById (VStr "app") in
  match found with
  | Some r => ret r
  | None =>
      let! v := jrec [VStr "div"; VObj [("id", VStr "app")]] in
      let! body := body_or_throw in
      appendChild body v ;;
      node_or_throw v
  end.

(** Lines 290-335: render the body component, inject the style sheets,
    clear the container and fill it. *)
Definition fill_container (root : nat) (route : string) (component : value)
  : M value :=
  if truthy component then
    let! content := renderComponent component in
    let! has := loaded (VStr "defaultstyles.css") in
    (if has then ret tt else addDefaultStyles) ;;
    let! style := config_field "style" in
    (if truthy style then
       let! has := loaded style in
       if has then ret tt else addStyle style
     else ret tt) ;;
    let! styles := config_field "styles" in
    (if truthy styles then
       forEach_value (fun url =>
                        let! has := loaded url in
                        if has then ret tt else addStyle url) styles
     else ret tt) ;;
    clear_children root ;;
    let! mainv := jrec [VStr "div"; VObj [("class", VStr "main-content")]] in
    let! headers := getGlobalHeaders route in
    forEach_value (fun HeaderClass =>
                     let! header := renderComponent HeaderClass in
                     appendChild root header) headers ;;
    let! main := node_or_throw mainv in
    (match content with
     | VArr l => forEach (fun element => appendChild main element) l
     | _ => appendChild main content
     end) ;;
    appendChild root mainv ;;
    let! footers := getGlobalFooters route in
    forEach_value (fun FooterClass =>
                     let! footer := renderComponent FooterClass in
                     appendChild root footer) footers ;;
    ret VUndef
  else ret VUndef.

(** [JESX.renderApp()] *)
Definition renderApp : M value :=
  let! rc := selected_component in
  let route := fst rc in
  let component := snd rc in
  if negb (String.eqb (typeof component) "function") then
    modify (fun st =>
      set_console (console st ++ ["Invalid component for route: " +:+ route])
                  st) ;;
    ret VUndef
  else
    let! root := mount_container in
    fill_container root route component.

(** [JESX.rcmp(id)].  Spreading [tpl.children] throws when [tpl] is a
    member inherited from [Object.prototype], which has no such field. *)
Definition rcmp (id : value) : M value :=
  let! found := getElementById id in
  match found with
  | None => ret VUndef
  | Some node =>
      let! parent := parentNode node in
      match parent with
      | None => ret VUndef
      | Some parent =>
          fun st =>
            match to_key id with
            | None => Throw "TypeError" st
            | Some k =>
                match registry_get st k with
                | RUndefined => Ok VUndef st
                | RInherited _ => Throw "TypeError" st
                | RDescriptor tpl =>
                    (let! newNode :=
                       jrec (d_tag tpl :: d_props tpl :: d_children tpl) in
                     replaceChild parent newNode node ;;
                     ret VUndef) st
                end
            end
      end
  end.

(** The body of [j(...args)]. *)
Definition dispatch (args : list value) : M value :=
  let arg0 := default VUndef (args !! 0) in
  let arg1 := default VUndef (args !! 1) in
  if value_eqb arg0 (VStr "cfg") then cfg arg1
  else if value_eqb arg0 (VStr "render") then renderApp
  else if value_eqb arg0 (VStr "rcmp") then rcmp arg1
  else createElement eval_expr arg0 arg1 (drop 2 args).

End Calls.

(** The function [j], with a bound on the depth of nested calls. *)
Fixpoint j (fuel : nat) (args : list value) : M value :=
  match fuel with
  | O => fun _ => OutOfFuel
  | S n => dispatch (j n) args
  end.


(** [new v()] succeeds: [v] is a component class. *)
Definition constructible (v : value) : bool :=
  match v with VFun (Class _) => true | _ => false end.

(** The node [document.getElementById(s)] finds. *)
Definition live_node (st : state) (s : string) : option nat :=
  if String.eqb s "" then None
  else find_by_id (length (heap st)) (heap st) s document.

Definition parent_of (st : state) (r : nat) : option nat :=
  match heap st !! r with
  | Some n => n_parent n
  | None => None
  end.

(** Left-to-right evaluation of a list of expressions, the loop that
    [eval_expr] runs on the elements of an array and on the arguments of a
    call. *)
Fixpoint eval_list (ev : expr -> M value) (es : list expr) : M (list value) :=
  match es with
  | [] => ret []
  | x :: r => let! v := ev x in let! vs := eval_list ev r in ret (v :: vs)
  end.

(** The three control tokens of [j]. *)
Definition control_tokens : list string := ["cfg"; "render"; "rcmp"].

(** The call [j(...args)] reaches the part of the builder that creates an
    element: its first argument is no control token and no function. *)
Definition builds (args : list value) : bool :=
  let arg0 := default VUndef (args !! 0) in
  negb (value_eqb arg0 (VStr "cfg")) && negb (value_eqb arg0 (VStr "render"))
  && negb (value_eqb arg0 (VStr "rcmp")) && negb (is_function arg0).

(** A tag that is a string and none of the control tokens. *)
Definition tag_ok (v : value) : bool :=
  match v with
  | VStr s => negb (bool_decide (s ∈ control_tokens))
  | _ => false
  end.

(** The state an outcome ends in, or [st0] when there is none. *)
Definition state_after {A} (o : outcome A) (st0 : state) : state :=
  default st0 (final_state o).

(** Views of a store: the children and the parent of a reference that is
    in the store. *)
Definition hkids (h : list dnode) (x : nat) : option (list nat) :=
  n_kids <$> h !! x.

Definition hpar (h : list dnode) (x : nat) : option (option nat) :=
  n_parent <$> h !! x.

(** Every parent reference points into the store. *)
Definition closed_parents (h : list dnode) : Prop :=
  Forall (fun n => match n_parent n with
                   | Some q => q < length h
                   | None => True
                   end) h.

(** Two stores agree below [n]. *)
Definition agree (n : nat) (h h' : list dnode) : Prop :=
  forall y, y < n -> h' !! y = h !! y.

(** The parents of the nodes from [n] on are themselves from [n] on. *)
Definition new_parents (n : nat) (h : list dnode) : Prop :=
  forall r nd q, h !! r = Some nd -> n <= r -> n_parent nd = Some q -> n <= q.

(** The nodes a value refers to as a child (directly or through nested
    arrays) are all from [n] on. *)
Fixpoint child_nodes_from (n : nat) (v : value) {struct v} : Prop :=
  match v with
  | VNode r => n <= r
  | VArr l =>
      (fix all (l : list value) : Prop :=
         match l with
         | [] => True
         | x :: r => child_nodes_from n x /\ all r
         end) l
  | _ => True
  end.

(** The state [s] was reached from [st0] by work on nodes from [n] on
    only: the store grew, it agrees with the store of [st0] below [n],
    the nodes from [n] on have their parents from [n] on, and the
    configuration and the global variables are those of [st0]. *)
Definition built_over (n : nat) (st0 s : state) : Prop :=
  n <= length (heap s) /\ agree n (heap st0) (heap s) /\
  new_parents n (heap s) /\ config s = config st0 /\
  globals s = globals st0.

(** While the builder works on the element [el]: [el] is one of the new
    nodes and has no parent. *)
Definition building (n : nat) (st0 : state) (el : nat) (s : state) : Prop :=
  built_over n st0 s /\ n <= el /\ hpar (heap s) el = Some None.

(** The text node the builder appends to [el]. *)
Definition text_node (el : nat) (t : string) : dnode :=
  DNode (KText t) [] [] [] [] (Some el).

(** In the store [h] the references [ks] are text nodes under [el] that
    hold, in order, the texts [texts] after substitution with the global
    variables [g]. *)
Definition text_kids (g : gmap string value) (el : nat) (h : list dnode)
  (ks : list nat) (texts : list string) : Prop :=
  Forall2 (fun k text =>
             exists t, replace_inline g text None = Some t /\
                       h !! k = Some (text_node el t)) ks texts.

(** A change of a node that leaves its kind, children and parent. *)
Definition cosmetic (f : dnode -> dnode) : Prop :=
  forall nd, n_kind (f nd) = n_kind nd /\ n_kids (f nd) = n_kids nd /\
             n_parent (f nd) = n_parent nd.

(** A value that holds no node where the builder would look for a child. *)
Fixpoint node_free (v : value) {struct v} : bool :=
  match v with
  | VNode _ => false
  | VArr l =>
      (fix all (l : list value) : bool :=
         match l with
         | [] => true
         | x :: r => node_free x && all r
         end) l
  | _ => true
  end.

(** Render bodies that build their output anew: the values at hand hold
    no node, and no call has a control token as its first argument. *)
Fixpoint pure_expr (e : expr) {struct e} : bool :=
  match e with
  | ELit v => node_free v
  | EArr es =>
      (fix all (es : list expr) : bool :=
         match es with
         | [] => true
         | x :: r => pure_expr x && all r
         end) es
  | ECall hd _ kids =>
      match hd with
      | HTag t => tag_ok (VStr t)
      | HFun _ => true
      end
      && (fix all (es : list expr) : bool :=
            match es with
            | [] => true
            | x :: r => pure_expr x && all r
            end) kids
  end.

(** The nodes among the elements of an array. *)
Definition top_nodes (l : list value) : list nat :=
  omap (fun x => match x with VNode r => Some r | _ => None end) l.

(** The nodes a rendered output consists of. *)
Definition nodes_of (v : value) : list nat :=
  match v with
  | VNode r => [r]
  | VArr l => top_nodes l
  | _ => []
  end.

(** A value made of nodes from [n] on; those the value consists of are
    distinct and have no parent in the store [h]. *)
Definition fresh_value (n : nat) (h : list dnode) (v : value) : Prop :=
  child_nodes_from n v /\
  Forall (fun r => hpar h r = Some None) (nodes_of v) /\
  NoDup (nodes_of v).

(** What a call of [j] made by a render body that builds anew does, when
    it returns: it works on new nodes only and returns a fresh value. *)
Definition call_spec (jrec : list value -> M value) : Prop :=
  forall hd props vs n st0 st v st',
    match hd with HTag t => tag_ok (VStr t) = true | HFun _ => True end ->
    Forall (child_nodes_from n) vs ->
    built_over n st0 st ->
    jrec (head_value hd :: props :: vs) st = Ok v st' ->
    built_over n st0 st' /\ length (heap st) <= length (heap st') /\
    fresh_value (length (heap st)) (heap st') v.

(** While style sheets are injected: the store grew from [n], the nodes
    below [n] have the parents they had in [s0], and the configuration is
    that of [s0]. *)
Definition parents_kept (n : nat) (s0 s : state) : Prop :=
  n <= length (heap s) /\
  (forall x, x < n -> hpar (heap s) x = hpar (heap s0) x) /\
  config s = config s0.

(** [shouldHaveGlobal] and the two global lists as functions of the
    configuration; [None] stands for the [TypeError] of reading a field of
    [undefined] or of calling a missing [includes]. *)
Definition applies_global (cfg : list (string * value)) (page : string)
  : option bool :=
  match default VUndef (obj_get cfg "global") with
  | VObj o =>
      match default VUndef (obj_get o "pages") with
      | VArr l =>
          Some (existsb (fun y => value_eqb y (VStr "*")) l
                || existsb (fun y => value_eqb y (VStr page)) l)
      | VStr s => Some (is_substring "*" s || is_substring page s)
      | _ => None
      end
  | _ => None
  end.

Definition global_list (cfg : list (string * value)) (which page : string)
  : option value :=
  match applies_global cfg page with
  | Some true =>
      match default VUndef (obj_get cfg "global") with
      | VObj o => Some (default VUndef (obj_get o which))
      | _ => None
      end
  | Some false => Some (VArr [])
  | None => None
  end.

(** The kind and the attributes of a reference that is in the store. *)
Definition hface (h : list dnode) (x : nat)
  : option (node_kind * list (string * string)) :=
  (fun nd => (n_kind nd, n_attrs nd)) <$> h !! x.

(** The children one child argument of the builder stands for: a nested
    array stands for its elements, [null] and [undefined] for nothing. *)
Fixpoint leaves (v : value) {struct v} : list value :=
  match v with
  | VArr l =>
      (fix each (l : list value) : list value :=
         match l with
         | [] => []
         | x :: r => leaves x ++ each r
         end) l
  | VUndef | VNull => []
  | _ => [v]
  end.

Definition is_leaf (v : value) : bool :=
  match v with
  | VArr _ | VUndef | VNull => false
  | _ => true
  end.

(** An entry of a property bag that the builder hands to [setAttribute]:
    its key is not [class] or [style] with a value of type [object]. *)
Definition plain_prop (kv : string * value) : bool :=
  negb (String.eqb (fst kv) "class" && String.eqb (typeof (snd kv)) "object")
  && negb (String.eqb (fst kv) "style"
           && String.eqb (typeof (snd kv)) "object").

(** The [link] element [addStyle] creates for a style sheet. *)
Definition link_node (href : string) (parent : option nat) : dnode :=
  DNode (KElement "link") [("rel", "stylesheet"); ("href", href)] [] [] []
        parent.

(** The [style] element that [addInlineStyle] has built for the text
    [css], before it is appended to the head: the views of the store [h]
    that matter. *)
Definition fresh_style (h : list dnode) (style : nat) (css : string) : Prop :=
  n_kind <$> h !! style = Some (KElement "style") /\
  hpar h style = Some None /\
  (hkids h style = Some [] /\ css = "" \/
   hkids h style = Some [S style] /\
   n_kind <$> h !! S style = Some (KText css)).

(** The kinds of the nodes that the injection of style sheets creates. *)
Definition style_kind (k : node_kind) : Prop :=
  k = KElement "link" \/ k = KElement "style" \/ exists d, k = KText d.

(** Strings, numbers and booleans: primitive values, which have no
    [forEach] method. *)
Definition primitive (v : value) : bool :=
  match v with
  | VStr _ | VNum _ | VBool _ => true
  | _ => false
  end.

(** The outcome is a normal return. *)
Definition returns {A} (o : outcome A) : bool :=
  match o with Ok _ _ => true | _ => false end.

(** Every child reference of the store is a node of the store. *)
Definition closed_kids (h : list dnode) : Prop :=
  Forall (fun n => Forall (fun k => k < length h) (n_kids n)) h.

(** A document with the head [hd], all references being nodes of the
    store. *)
Definition headed (hd : nat) (st : state) : Prop :=
  closed_parents (heap st) /\ closed_kids (heap st) /\
  document_head (heap st) = Some hd.

(** A document that has a head and a body, all references being nodes of
    the store. *)
Definition well_formed (st : state) : Prop :=
  closed_parents (heap st) /\ closed_kids (heap st) /\
  is_Some (document_head (heap st)) /\ is_Some (document_body (heap st)).

(** The field [k] of the configuration [c] overlaid with [o]. *)
Definition overlaid (o c : list (string * value)) (k : string)
  : option value :=
  match obj_get o k with
  | Some v => Some v
  | None => obj_get c k
  end.

Definition string_or_falsy (v : value) : bool :=
  match v with
  | VStr _ => true
  | _ => negb (truthy v)
  end.

Definition is_string (v : value) : bool :=
  match v with VStr _ => true | _ => false end.

(** The fields that [cfg] acts on have the documented shape: [ui] is
    missing, falsy or an object whose [theme] is a string or falsy;
    [style] and [inlineStyle] are strings or falsy; [styles], when it is
    an array, holds strings. *)
Definition well_shaped (field : string -> option value) : bool :=
  match field "ui" with
  | Some (VObj u) => string_or_falsy (default VUndef (obj_get u "theme"))
  | Some ui => negb (truthy ui)
  | None => true
  end
  && string_or_falsy (default VUndef (field "style"))
  && match field "styles" with
     | Some (VArr l) => forallb is_string l
     | _ => true
     end
  && string_or_falsy (default VUndef (field "inlineStyle")).

(** Letters, digits, [_], [$] and the sign [+]. *)
Definition is_simple_char (a : ascii) : bool :=
  let n := Ascii.nat_of_ascii a in
  ((48 <=? n) && (n <=? 57)) || ((65 <=? n) && (n <=? 90))
  || ((97 <=? n) && (n <=? 122)) || (n =? 95) || (n =? 36) || (n =? 43).

Fixpoint simple_chars (s : string) : bool :=
  match s with
  | EmptyString => true
  | String a r => is_simple_char a && simple_chars r
  end.

(** An expression made of words and additions, such as [counter] or
    [a+1], and without an increment: variables, literals and keywords,
    added up.  Evaluating it changes nothing. *)
Definition simple_expression (e : string) : bool :=
  negb (String.eqb e "") && simple_chars e && negb (is_substring "++" e).

(** Every pattern [J{e}] of the text has a simple expression.  The scan
    is that of [replace_inline]. *)
Fixpoint simple_patterns (s : string) (inside : option string) : bool :=
  match s, inside with
  | EmptyString, _ => true
  | String c r, Some body =>
      if Ascii.eqb c "}"%char
      then (String.eqb body "" || simple_expression body)
           && simple_patterns r None
      else simple_patterns r (Some (body +:+ String c EmptyString))
  | String c r, None =>
      match r with
      | String c' r' =>
          if Ascii.eqb c "J"%char && Ascii.eqb c' "{"%char
          then simple_patterns r' (Some EmptyString)
          else simple_patterns r None
      | EmptyString => true
      end
  end.

(** The strings of a value, which the builder takes as templates when
    the value is a child, have simple expressions only. *)
Fixpoint inert_value (v : value) {struct v} : bool :=
  match v with
  | VStr s => simple_patterns s None
  | VArr l =>
      (fix all (l : list value) : bool :=
         match l with
         | [] => true
         | x :: r => inert_value x && all r
         end) l
  | _ => true
  end.

(** Render bodies whose templates have simple expressions only. *)
Fixpoint inert (e : expr) {struct e} : bool :=
  match e with
  | ELit v => inert_value v
  | EArr es =>
      (fix all (es : list expr) : bool :=
         match es with
         | [] => true
         | x :: r => inert x && all r
         end) es
  | ECall _ _ kids =>
      (fix all (es : list expr) : bool :=
         match es with
         | [] => true
         | x :: r => inert x && all r
         end) kids
  end.

(** The loop of a render pass over the global components [comps], from
    the state [s] to the state [s']: each component is rendered, which
    returns a node, and that node is appended to the container [root]
    before the next component is rendered; the nodes in [hs] are the ones
    returned, in the order of [comps].  What a step has added to the
    store is still the same when the loop ends. *)
Inductive render_trace (jrec : list value -> M value) (root : nat)
  : list value -> list nat -> state -> state -> Prop :=
| render_trace_nil (s : state) : render_trace jrec root [] [] s s
| render_trace_cons (C : value) (comps : list value) (h : nat)
    (hs : list nat) (s s1 s2 s' : state) :
    renderComponent jrec C s = Ok (VNode h) s1 ->
    appendChild root (VNode h) s1 = Ok tt s2 ->
    render_trace jrec root comps hs s2 s' ->
    (forall y, length (heap s) <= y -> y < length (heap s2) ->
               heap s' !! y = heap s2 !! y) ->
    render_trace jrec root (C :: comps) (h :: hs) s s'.

(** The text a template stands for when its inline expressions are
    simple, in the words of the specification: each pattern [J{e}] is
    replaced by the string form of the value of [e] with the global
    variables [g], or by [undefined] when evaluating [e] fails; the text
    around the patterns is kept. *)
Inductive substituted (g : gmap string value) : string -> string -> Prop :=
| substituted_plain (s : string) :
    is_substring "J{" s = false -> substituted g s s
| substituted_value (pre e post : string) (v : value) (t rest : string) :
    is_substring "J{" pre = false -> simple_expression e = true ->
    call_Function g ("return " +:+ e) = Some v -> to_string v = Some t ->
    substituted g post rest ->
    substituted g (pre +:+ "J{" +:+ e +:+ "}" +:+ post) (pre +:+ t +:+ rest)
| substituted_failed (pre e post rest : string) :
    is_substring "J{" pre = false -> simple_expression e = true ->
    call_Function g ("return " +:+ e) = None ->
    substituted g post rest ->
    substituted g (pre +:+ "J{" +:+ e +:+ "}" +:+ post)
      (pre +:+ "undefined" +:+ rest).

(** ** Specifications of state transformers *)

(** [hoare F P m Q E]: started in a state satisfying [P], the computation [m]
    either returns a value and a state related by [Q], or throws in a
    state satisfying [E]; it may exhaust the call budget only if [F]
    holds, so [hoare False] also says that [m] ends. *)
Definition hoare {A} (F : Prop) (P : state -> Prop) (m : M A)
  (Q : A -> state -> Prop) (E : state -> Prop) : Prop :=
  forall st, P st ->
    match m st with
    | Ok a st' => Q a st'
    | Throw _ st' => E st'
    | OutOfFuel => F
    end.

(** [I] holds in every state [m] can end in. *)
Definition preserves {A} (F : Prop) (I : state -> Prop) (m : M A) : Prop :=
  hoare F I m (fun _ => I) I.

(** Invariants that survive what the host primitives do to the state:
    adding a node of a kind [N] allows, changing a node without changing
    its kind, and updating the loaded styles or the console. *)
Record stable (N : node_kind -> Prop) (I : state -> Prop) : Prop := Stable {
  stable_alloc : forall st k, N k -> I st ->
                   I (set_heap (heap st ++ [new_node k]) st);
  stable_alter : forall st r f, (forall n, n_kind (f n) = n_kind n) -> I st ->
                   I (set_heap (alter f r (heap st)) st);
  stable_loaded : forall st l, I st -> I (set_loadedStyles l st);
  stable_console : forall st l, I st -> I (set_console l st)
}.

(** * Properties *)

(** ** The route resolver *)

Lemma truthy_str (s : string) : truthy (VStr s) = negb (String.eqb s "").
Proof. reflexivity. Qed.

(** C9: [getCurrentRoute] always returns, never the empty string; it
    returns [/] when [location.hash] is empty (no fragment) or is the bare
    marker, and [/x] when the hash is [#x] with [x] not empty. *)
Theorem getCurrentRoute_spec (st : state) :
  (exists r, getCurrentRoute st = Ok r st /\ r <> "") /\
  (location_hash st = "" -> getCurrentRoute st = Ok "/" st) /\
  (location_hash st = "#" -> getCurrentRoute st = Ok "/" st) /\
  (forall x, x <> "" -> location_hash st = "#" +:+ x ->
             getCurrentRoute st = Ok ("/" +:+ x) st).
Proof.
  unfold getCurrentRoute. repeat split.
  - destruct (truthy (VStr (slice1 (location_hash st)))); eexists; split;
      try reflexivity; discriminate.
  - intros ->. reflexivity.
  - intros ->. reflexivity.
  - intros x Hx ->. cbn [slice1 String.append].
    rewrite truthy_str. destruct x as [|a x]; [congruence | reflexivity].
Qed.

(** ** Selecting the body component *)

Lemma route_keys_no_method (o : list (string * value)) (k : string) :
  Forall (fun kv => String.prefix "/" (fst kv) = true) o ->
  String.prefix "/" k = false ->
  obj_get o k = None.
Proof.
  induction 1 as [|[k' v] o Hk _ IH]; intros Hn; [reflexivity|].
  cbn [obj_get]. destruct (String.eqb_spec k' k) as [->|_]; [|auto].
  cbn [fst] in Hk. congruence.
Qed.

(** C7: when the page map is an object keyed by route paths, the body
    component is the entry of the current route if the map has one, and
    otherwise what the map holds for [/]. *)
Theorem selected_component_fallback (st : state) (o : list (string * value)) :
  obj_get (config st) "pages" = Some (VObj o) ->
  Forall (fun kv => String.prefix "/" (fst kv) = true) o ->
  exists route,
    getCurrentRoute st = Ok route st /\
    selected_component st =
      Ok (route, match obj_get o route with
                 | Some c => c
                 | None => default VUndef (obj_get o "/")
                 end) st.
Proof.
  intros Hp Hk.
  assert (Hr : exists route, getCurrentRoute st = Ok route st)
    by (eexists; reflexivity).
  destruct Hr as (route & Hr).
  exists route. split; [exact Hr|].
  unfold selected_component, bind, config_field. rewrite Hr, Hp. cbn.
  rewrite (route_keys_no_method o "hasOwnProperty" Hk eq_refl).
  destruct (obj_get o route); reflexivity.
Qed.

(** C2 (as the code has it): when the selected body component is not a
    function, [renderApp] writes one diagnostic and returns; the document,
    the registry, the configuration and the loaded styles are unchanged. *)
Theorem renderApp_invalid_component (jrec : list value -> M value)
  (st : state) (route : string) (c : value) :
  selected_component st = Ok (route, c) st ->
  typeof c <> "function" ->
  exists st',
    renderApp jrec st = Ok VUndef st' /\
    console st' = console st ++ ["Invalid component for route: " +:+ route] /\
    heap st' = heap st /\ registry st' = registry st /\
    config st' = config st /\ loadedStyles st' = loadedStyles st.
Proof.
  intros Hs Ht. unfold renderApp, bind. rewrite Hs. cbn [fst snd].
  destruct (String.eqb_spec (typeof c) "function") as [E|_]; [contradiction|].
  cbn. eexists. split; [reflexivity|]. repeat split.
Qed.

(** ** Rules for specifications *)

Lemma hoare_ret {A} F (P : state -> Prop) (a : A) (Q : A -> state -> Prop)
  (E : state -> Prop) :
  (forall st, P st -> Q a st) -> hoare F P (ret a) Q E.
Proof. intros H st HP. cbn. auto. Qed.

Lemma hoare_throw {A} F (P : state -> Prop) (e : string)
  (Q : A -> state -> Prop) (E : state -> Prop) :
  (forall st, P st -> E st) -> hoare F P (throw e) Q E.
Proof. intros H st HP. cbn. auto. Qed.

Lemma hoare_bind {A B} F (P : state -> Prop) (m : M A) (k : A -> M B)
  (Q : A -> state -> Prop) (R : B -> state -> Prop) (E : state -> Prop) :
  hoare F P m Q E -> (forall a, hoare F (Q a) (k a) R E) ->
  hoare F P (bind m k) R E.
Proof.
  intros Hm Hk st HP. unfold bind. specialize (Hm st HP).
  destruct (m st) as [a st'| |]; [apply (Hk a st' Hm) | exact Hm | exact Hm].
Qed.

Lemma hoare_weaken {A} F (P P' : state -> Prop) (m : M A)
  (Q Q' : A -> state -> Prop) (E E' : state -> Prop) :
  hoare F P' m Q' E' ->
  (forall st, P st -> P' st) -> (forall a st, Q' a st -> Q a st) ->
  (forall st, E' st -> E st) ->
  hoare F P m Q E.
Proof.
  intros H HP HQ HE st Hst. specialize (H st (HP st Hst)).
  destruct (m st); auto.
Qed.

Lemma hoare_assume {A} F (P : state -> Prop) (H : Prop) (m : M A)
  (Q : A -> state -> Prop) (E : state -> Prop) :
  (H -> hoare F P m Q E) -> hoare F (fun st => P st /\ H) m Q E.
Proof. intros Hm st [HP HH]. exact (Hm HH st HP). Qed.

(** An invariant of all outcomes is in particular one of the returns. *)
Lemma preserves_returns {A} F (I : state -> Prop) (m : M A) :
  preserves F I m -> hoare F I m (fun _ => I) (fun _ => True).
Proof. intros H st HI. specialize (H st HI). destruct (m st); auto. Qed.

Lemma hoare_modify F (P : state -> Prop) (f : state -> state)
  (Q : unit -> state -> Prop) (E : state -> Prop) :
  (forall st, P st -> Q tt (f st)) -> hoare F P (modify f) Q E.
Proof. intros H st HP. cbn. auto. Qed.

Lemma preserves_ret {A} F (I : state -> Prop) (a : A) : preserves F I (ret a).
Proof. apply hoare_ret. auto. Qed.

Lemma preserves_throw {A} F (I : state -> Prop) (e : string) :
  preserves F I (@throw A e).
Proof. apply hoare_throw. auto. Qed.

Lemma preserves_bind {A B} F (I : state -> Prop) (m : M A) (k : A -> M B) :
  preserves F I m -> (forall a, preserves F I (k a)) -> preserves F I (bind m k).
Proof. intros Hm Hk. eapply hoare_bind; [exact Hm | exact Hk]. Qed.

Lemma preserves_forEach {A} F (I : state -> Prop) (f : A -> M unit)
  (l : list A) :
  (forall x, preserves F I (f x)) -> preserves F I (forEach f l).
Proof.
  intros Hf. induction l as [|x l IH]; cbn [forEach].
  - apply preserves_ret.
  - apply preserves_bind; [apply Hf | intros _; exact IH].
Qed.

(** A computation that only reads the state. *)
Lemma preserves_read {A} F (I : state -> Prop) (m : M A) :
  (forall st, match m st with
              | Ok _ st' | Throw _ st' => st' = st
              | OutOfFuel => False
              end) ->
  preserves F I m.
Proof.
  intros H st HI. specialize (H st). destruct (m st); subst; auto; tauto.
Qed.

(** ** Host primitives keep stable invariants *)

Create HintDb pres discriminated.

#[local] Hint Resolve preserves_ret preserves_throw : pres.

Ltac pres_step :=
  match goal with
  | H : preserves _ _ ?m |- preserves _ _ ?m => exact H
  | |- preserves _ _ (bind _ _) => apply preserves_bind; [|intros ?]
  | |- preserves _ _ (forEach _ _) => apply preserves_forEach; intros ?
  | |- preserves _ _ (forEach_value _ _) => unfold forEach_value
  | |- preserves _ _ (if ?b then _ else _) => destruct b
  | |- preserves _ _ (match ?x with _ => _ end) => destruct x
  | |- preserves _ _ (let (_, _) := ?x in _) => destruct x
  | |- preserves _ _ _ => solve [eauto with pres]
  end.

Ltac pres := repeat pres_step.

Lemma with_attrs_kind f n : n_kind (with_attrs f n) = n_kind n.
Proof. reflexivity. Qed.
Lemma with_classes_kind f n : n_kind (with_classes f n) = n_kind n.
Proof. reflexivity. Qed.
Lemma with_style_kind f n : n_kind (with_style f n) = n_kind n.
Proof. reflexivity. Qed.
Lemma with_kids_kind f n : n_kind (with_kids f n) = n_kind n.
Proof. reflexivity. Qed.
Lemma with_parent_kind p n : n_kind (with_parent p n) = n_kind n.
Proof. reflexivity. Qed.

#[local] Hint Resolve with_attrs_kind with_classes_kind with_style_kind
  with_kids_kind with_parent_kind : pres.

Section Stability.

Variable F : Prop.
Variable N : node_kind -> Prop.
Variable I : state -> Prop.
Hypothesis HS : stable N I.

Lemma stable_alter_heap st h r f :
  (forall n, n_kind (f n) = n_kind n) ->
  I (set_heap h st) -> I (set_heap (alter f r h) st).
Proof. intros Hf Hh. exact (stable_alter N I HS (set_heap h st) r f Hf Hh). Qed.

Lemma stable_same_heap st : I st -> I (set_heap (heap st) st).
Proof. destruct st; exact id. Qed.

Lemma stable_detach st h c : I (set_heap h st) -> I (set_heap (detach c h) st).
Proof.
  intros Hh. unfold detach. destruct (h !! c) as [n|]; [|exact Hh].
  destruct (n_parent n); [|exact Hh].
  do 2 (apply stable_alter_heap; [auto with pres|]). exact Hh.
Qed.

Lemma stable_clear st h (l : list nat) :
  I (set_heap h st) ->
  I (set_heap (foldr (fun k acc => alter (with_parent None) k acc) h l) st).
Proof.
  intros Hh. induction l as [|k l IH]; [exact Hh|].
  cbn [foldr]. apply stable_alter_heap; [auto with pres | exact IH].
Qed.

Lemma alloc_preserves k : N k -> preserves F I (alloc (new_node k)).
Proof. intros Hk st HI. cbn. apply (stable_alloc N I HS); assumption. Qed.

Lemma document_createElement_preserves tag :
  (forall name, to_string tag = Some name -> N (KElement (lower name))) ->
  preserves F I (document_createElement tag).
Proof.
  intros Hn. unfold document_createElement.
  destruct (to_string tag) as [name|]; [|apply preserves_throw].
  destruct (valid_tag name); [|apply preserves_throw].
  apply alloc_preserves. auto.
Qed.

Lemma document_createTextNode_preserves d :
  N (KText d) -> preserves F I (document_createTextNode d).
Proof. apply alloc_preserves. Qed.

Lemma modify_alter_preserves r f :
  (forall n, n_kind (f n) = n_kind n) ->
  preserves F I (modify (fun st => set_heap (alter f r (heap st)) st)).
Proof.
  intros Hf. apply hoare_modify. intros st HI.
  apply (stable_alter N I HS); assumption.
Qed.

Lemma setAttribute_preserves el name v : preserves F I (setAttribute el name v).
Proof.
  unfold setAttribute. pres. apply modify_alter_preserves. auto with pres.
Qed.

Lemma set_reflected_preserves el name v :
  preserves F I (set_reflected el name v).
Proof.
  unfold set_reflected. pres. apply modify_alter_preserves. auto with pres.
Qed.

Lemma classList_add_preserves el token : preserves F I (classList_add el token).
Proof.
  unfold classList_add. pres. apply modify_alter_preserves. auto with pres.
Qed.

Lemma style_set_preserves el prop v : preserves F I (style_set el prop v).
Proof.
  unfold style_set. pres; apply modify_alter_preserves; auto with pres.
Qed.

Lemma appendChild_preserves parent child : preserves F I (appendChild parent child).
Proof.
  intros st HI. unfold appendChild.
  destruct child; try exact HI.
  destruct (heap st !! parent); [|exact HI].
  destruct (heap st !! r); [|exact HI].
  match goal with |- context [if ?b then _ else _] => destruct b end;
    [exact HI|].
  do 2 (apply stable_alter_heap; [auto with pres|]).
  apply stable_detach, stable_same_heap, HI.
Qed.

Lemma replaceChild_preserves parent newNode old :
  preserves F I (replaceChild parent newNode old).
Proof.
  intros st HI. unfold replaceChild.
  destruct newNode; try exact HI.
  destruct (heap st !! parent); [|exact HI].
  destruct (heap st !! r); [|exact HI].
  destruct (heap st !! old); [|exact HI].
  repeat match goal with
         | |- context [if ?b then _ else _] => destruct b; [exact HI|]
         end.
  do 3 (apply stable_alter_heap; [auto with pres|]).
  apply stable_detach, stable_same_heap, HI.
Qed.

Lemma clear_children_preserves el : preserves F I (clear_children el).
Proof.
  apply hoare_modify. intros st HI. cbv zeta.
  destruct (heap st !! el) as [n|]; [|exact HI].
  apply stable_alter_heap; [auto with pres|].
  apply stable_clear, stable_same_heap, HI.
Qed.

End Stability.

#[local] Hint Resolve setAttribute_preserves set_reflected_preserves
  classList_add_preserves style_set_preserves appendChild_preserves
  replaceChild_preserves clear_children_preserves : pres.

(** ** Computations that only read the state *)

Lemma getElementById_preserves F I id : preserves F I (getElementById id).
Proof.
  apply preserves_read. intros st. unfold getElementById.
  destruct (to_string id); reflexivity.
Qed.

Lemma parentNode_preserves F I r : preserves F I (parentNode r).
Proof. apply preserves_read. intros st. reflexivity. Qed.

Lemma loaded_preserves F I url : preserves F I (loaded url).
Proof. apply preserves_read. intros st. reflexivity. Qed.

Lemma head_or_throw_preserves F I : preserves F I head_or_throw.
Proof.
  apply preserves_read. intros st. unfold head_or_throw.
  destruct (document_head (heap st)); reflexivity.
Qed.

Lemma body_or_throw_preserves F I : preserves F I body_or_throw.
Proof.
  apply preserves_read. intros st. unfold body_or_throw.
  destruct (document_body (heap st)); reflexivity.
Qed.

Lemma config_field_preserves F I k : preserves F I (config_field k).
Proof. apply preserves_read. intros st. reflexivity. Qed.

Lemma get_field_preserves F I v k : preserves F I (get_field v k).
Proof. apply preserves_read. intros st. destruct v; reflexivity. Qed.

Lemma includes_preserves F I a x : preserves F I (includes a x).
Proof. apply preserves_read. intros st. destruct a; reflexivity. Qed.

Lemma getCurrentRoute_preserves F I : preserves F I getCurrentRoute.
Proof. apply preserves_read. intros st. reflexivity. Qed.

Lemma evalTemplate_preserves F I s : preserves F I (evalTemplate s).
Proof.
  apply preserves_read. intros st. unfold evalTemplate.
  destruct (replace_inline (globals st) s None); reflexivity.
Qed.

Lemma text_of_preserves F I v : preserves F I (text_of v).
Proof.
  apply preserves_read. intros st. unfold text_of.
  destruct (String_ v); reflexivity.
Qed.

Lemma entries_or_throw_preserves F I v : preserves F I (entries_or_throw v).
Proof.
  apply preserves_read. intros st. unfold entries_or_throw.
  destruct (entries st v); reflexivity.
Qed.

Lemma node_or_throw_preserves F I v : preserves F I (node_or_throw v).
Proof. apply preserves_read. intros st. destruct v; reflexivity. Qed.

Lemma get_state_preserves F I : preserves F I get_state.
Proof. apply preserves_read. intros st. reflexivity. Qed.

Lemma select_component_preserves F I pages route :
  preserves F I (select_component pages route).
Proof.
  apply preserves_read. intros st. unfold select_component.
  destruct pages; try reflexivity.
  destruct (obj_get o "hasOwnProperty") as [[| | | | | | | |[]| |]|];
    try reflexivity.
  destruct (obj_get o route); reflexivity.
Qed.

#[local] Hint Resolve getElementById_preserves parentNode_preserves
  loaded_preserves head_or_throw_preserves body_or_throw_preserves
  config_field_preserves get_field_preserves includes_preserves
  getCurrentRoute_preserves evalTemplate_preserves text_of_preserves
  entries_or_throw_preserves node_or_throw_preserves get_state_preserves
  select_component_preserves : pres.

Lemma shouldHaveGlobal_preserves F I page : preserves F I (shouldHaveGlobal page).
Proof. unfold shouldHaveGlobal. pres. Qed.

#[local] Hint Resolve shouldHaveGlobal_preserves : pres.

Lemma getGlobalHeaders_preserves F I page : preserves F I (getGlobalHeaders page).
Proof. unfold getGlobalHeaders. pres. Qed.

Lemma getGlobalFooters_preserves F I page : preserves F I (getGlobalFooters page).
Proof. unfold getGlobalFooters. pres. Qed.

Lemma selected_component_preserves F I : preserves F I selected_component.
Proof. unfold selected_component. pres. Qed.

#[local] Hint Resolve getGlobalHeaders_preserves getGlobalFooters_preserves
  selected_component_preserves : pres.

(** ** Style injection keeps stable invariants *)

Section StyleStability.

Variable F : Prop.
Variable N : node_kind -> Prop.
Variable I : state -> Prop.
Hypothesis HS : stable N I.
Hypothesis Nlink : N (KElement "link").
Hypothesis Nstyle : N (KElement "style").
Hypothesis Ntext : forall d, N (KText d).

Lemma addStyle_preserves url : preserves F I (addStyle url).
Proof.
  unfold addStyle. pres.
  - eapply document_createElement_preserves; [exact HS|].
    intros name [= <-]. exact Nlink.
  - apply hoare_modify. intros st. apply (stable_loaded N I HS).
Qed.

Lemma addStyles_preserves urls : preserves F I (addStyles urls).
Proof.
  unfold addStyles, forEach_value. pres. apply addStyle_preserves.
Qed.

Lemma addInlineStyle_preserves css : preserves F I (addInlineStyle css).
Proof.
  unfold addInlineStyle. pres.
  - eapply document_createElement_preserves; [exact HS|].
    intros name [= <-]. exact Nstyle.
  - eapply document_createTextNode_preserves; [exact HS|]. apply Ntext.
Qed.

End StyleStability.

(** ** Configuration *)

Lemma obj_get_set (o : list (string * value)) (k k' : string) (v : value) :
  obj_get (obj_set o k v) k' = if String.eqb k k' then Some v else obj_get o k'.
Proof.
  induction o as [|[k0 v0] o IH]; cbn [obj_set obj_get].
  - reflexivity.
  - destruct (String.eqb_spec k0 k) as [->|Hne]; cbn [obj_get].
    + destruct (String.eqb k k'); reflexivity.
    + rewrite IH. destruct (String.eqb_spec k0 k') as [->|_]; [|reflexivity].
      destruct (String.eqb_spec k k') as [->|_]; [congruence | reflexivity].
Qed.

(** Assigning the entries of an object whose keys are distinct: every key
    of the source reads as in the source, every other key as before. *)
Lemma obj_get_assign (o target : list (string * value)) (k : string) :
  NoDup (fst <$> o) ->
  obj_get (foldl (fun acc kv => obj_set acc (fst kv) (snd kv)) target o) k =
  match obj_get o k with
  | Some v => Some v
  | None => obj_get target k
  end.
Proof.
  revert target. induction o as [|[k0 v0] o IH]; intros target Hnd.
  - reflexivity.
  - cbn [foldl fst snd obj_get]. apply NoDup_cons in Hnd as [Hnin Hnd].
    rewrite (IH _ Hnd), obj_get_set.
    destruct (String.eqb_spec k0 k) as [->|_]; [|reflexivity].
    destruct (obj_get o k) eqn:E; [|reflexivity].
    exfalso. apply Hnin. clear -E.
    induction o as [|[k1 v1] o IH]; [discriminate|].
    cbn [obj_get] in E. cbn [fmap list_fmap fst].
    destruct (String.eqb_spec k1 k) as [->|_]; [left | right; auto].
Qed.

Lemma config_stable (c : list (string * value)) :
  stable (fun _ => True) (fun st => config st = c).
Proof. split; intros; assumption. Qed.

(** ** Inline expressions *)

Lemma append_nil_r (s : string) : s +:+ "" = s.
Proof.
  induction s as [|a s IH]; [reflexivity|].
  change (String a (s +:+ "") = String a s). now rewrite IH.
Qed.

Lemma append_snoc (s e : string) (a : ascii) :
  (s +:+ String a "") +:+ e = s +:+ String a e.
Proof.
  induction s as [|b s IH]; [reflexivity|].
  change (String b ((s +:+ String a "") +:+ e) = String b (s +:+ String a e)).
  now rewrite IH.
Qed.

Lemma replace_inline_body (g : gmap string value) (e body : string) :
  has_close e = false ->
  body +:+ e <> "" ->
  replace_inline g (e +:+ "}") (Some body)
  = to_string (inline_value g (body +:+ e)).
Proof.
  revert body. induction e as [|a e IH]; intros body Hc Hb.
  - rewrite append_nil_r in *.
    change (replace_inline g ("" +:+ "}") (Some body))
      with (if String.eqb body ""
            then (fun t => "J{}" +:+ t) <$> Some ""
            else match to_string (inline_value g body) with
                 | Some t => (fun u => t +:+ u) <$> Some ""
                 | None => None
                 end).
    destruct (String.eqb_spec body "") as [->|_]; [congruence|].
    destruct (to_string (inline_value g body)) as [t|]; [|reflexivity].
    cbn [fmap option_fmap option_map]. now rewrite append_nil_r.
  - cbn [has_close] in Hc. apply orb_false_iff in Hc as [Ha Hc].
    change (replace_inline g (String a e +:+ "}") (Some body))
      with (if Ascii.eqb a "}"
            then if String.eqb body ""
                 then (fun t => "J{}" +:+ t) <$> replace_inline g (e +:+ "}") None
                 else match to_string (inline_value g body) with
                      | Some t =>
                          (fun u => t +:+ u) <$> replace_inline g (e +:+ "}") None
                      | None => None
                      end
            else replace_inline g (e +:+ "}") (Some (body +:+ String a ""))).
    rewrite Ha, IH.
    + now rewrite append_snoc.
    + exact Hc.
    + rewrite append_snoc. destruct body; discriminate.
Qed.

(** The pattern [J{e}] alone in a text: the value of [e], converted by
    [replace]. *)
Lemma replace_inline_single (g : gmap string value) (e : string) :
  e <> "" ->
  has_close e = false ->
  replace_inline g ("J{" +:+ e +:+ "}") None = to_string (inline_value g e).
Proof.
  intros Hne Hc.
  change (replace_inline g ("J{" +:+ e +:+ "}") None)
    with (replace_inline g (e +:+ "}") (Some "")).
  apply (replace_inline_body g e ""); assumption.
Qed.

(** Text children [J{1+1}] and [J{undefinedVar}]: when the expression
    evaluates to the number 2 the text is [2]; when evaluating throws the
    text is [undefined]. *)
Lemma replace_inline_examples (g : gmap string value) :
  (call_Function g "return 1+1" = Some (VNum 2) ->
   replace_inline g "J{1+1}" None = Some "2") /\
  (call_Function g "return undefinedVar" = None ->
   replace_inline g "J{undefinedVar}" None = Some "undefined").
Proof.
  split; intros H.
  - change "J{1+1}" with ("J{" +:+ "1+1" +:+ "}").
    rewrite (replace_inline_single g "1+1") by (reflexivity || discriminate).
    unfold inline_value. change ("return " +:+ "1+1") with "return 1+1".
    rewrite H. reflexivity.
  - change "J{undefinedVar}" with ("J{" +:+ "undefinedVar" +:+ "}").
    rewrite (replace_inline_single g "undefinedVar")
      by (reflexivity || discriminate).
    unfold inline_value.
    change ("return " +:+ "undefinedVar") with "return undefinedVar".
    rewrite H. reflexivity.
Qed.

(** C3: a text child whose inline expression evaluates to a symbol makes
    the builder throw: [replace] converts what the callback returned
    outside of the [try] block. *)
Theorem inline_symbol_escapes (fuel : nat) (st : state) (d : string) :
  call_Function (globals st) "return Symbol()" = Some (VSym d) ->
  valid_tag "span" = true ->
  j (S fuel) [VStr "span"; VNull; VStr "J{Symbol()}"] st =
    Throw "TypeError" (set_heap (heap st ++ [new_node (KElement "span")]) st).
Proof.
  intros He Hv.
  assert (Ht : forall s, globals s = globals st ->
                 evalTemplate "J{Symbol()}" s = Throw "TypeError" s).
  { intros s Hs. unfold evalTemplate.
    change "J{Symbol()}" with ("J{" +:+ "Symbol()" +:+ "}").
    rewrite (replace_inline_single _ "Symbol()") by (reflexivity || discriminate).
    unfold inline_value.
    change ("return " +:+ "Symbol()") with "return Symbol()".
    rewrite Hs, He. reflexivity. }
  cbn. unfold createElement, bind, register_template.
  cbn. unfold document_createElement, bind. cbn. rewrite Hv. cbn.
  rewrite Ht by reflexivity. reflexivity.
Qed.

(** ** Partial re-render on a missing target *)

(** When no live node has the identifier, or the node found has no
    parent, or the registry read gives [undefined], [rcmp] returns and
    changes nothing. *)
Lemma rcmp_silent (jrec : list value -> M value) (st : state) (s : string) :
  live_node st s = None \/
  (exists node, live_node st s = Some node /\ parent_of st node = None) \/
  (exists node, live_node st s = Some node /\
                registry_get st (KStr s) = RUndefined) ->
  rcmp jrec (VStr s) st = Ok VUndef st.
Proof.
  unfold rcmp, bind, getElementById, parentNode, live_node, parent_of.
  cbn.
  intros [H|[(node & H & Hp)|(node & H & Hr)]]; rewrite H; try reflexivity.
  - rewrite Hp. reflexivity.
  - destruct (match heap st !! node with
              | Some n => n_parent n
              | None => None
              end); [|reflexivity].
    rewrite Hr. reflexivity.
Qed.

(** C5: for an identifier that names a member of [Object.prototype], a
    live attached node and an empty registry do not make [rcmp] a no-op:
    the registry read gives the inherited member, and spreading its
    missing [children] throws. *)
Theorem rcmp_inherited_name_throws (jrec : list value -> M value)
  (st : state) (name : string) (node parent : nat) :
  inherited name = true ->
  live_node st name = Some node ->
  parent_of st node = Some parent ->
  registry st !! KStr name = None ->
  rcmp jrec (VStr name) st = Throw "TypeError" st.
Proof.
  intros Hi Hn Hp Hr.
  unfold rcmp, bind, getElementById, parentNode.
  unfold live_node in Hn. unfold parent_of in Hp.
  cbn. rewrite Hn, Hp. unfold registry_get. rewrite Hr, Hi. reflexivity.
Qed.

(** ** Induction on nested values and expressions *)

Lemma value_nested_ind (P : value -> Prop) :
  (forall v, (forall l, v <> VArr l) -> P v) ->
  (forall l, Forall P l -> P (VArr l)) ->
  forall v, P v.
Proof.
  intros Hbase Harr.
  fix IH 1. intros v.
  destruct v as [| | | | | |l| | | |]; try (apply Hbase; discriminate).
  apply Harr. induction l as [|x l IHl]; constructor; [apply IH | exact IHl].
Qed.

Lemma expr_nested_ind (P : expr -> Prop) :
  (forall v, P (ELit v)) ->
  (forall es, Forall P es -> P (EArr es)) ->
  (forall hd props kids, Forall P kids -> P (ECall hd props kids)) ->
  forall e, P e.
Proof.
  intros Hlit Harr Hcall.
  fix IH 1. intros e.
  destruct e as [v|es|hd props kids].
  - apply Hlit.
  - apply Harr. induction es as [|x l IHl]; constructor; [apply IH | exact IHl].
  - apply Hcall.
    induction kids as [|x l IHl]; constructor; [apply IH | exact IHl].
Qed.

Lemma eval_expr_arr jrec es :
  eval_expr jrec (EArr es) =
    (let! vs := eval_list (eval_expr jrec) es in ret (VArr vs)).
Proof.
  cbn [eval_expr]. f_equal. induction es as [|x l IH]; [reflexivity|].
  cbn [eval_list]. rewrite <- IH. reflexivity.
Qed.

Lemma eval_expr_call jrec hd props kids :
  eval_expr jrec (ECall hd props kids) =
    (let! vs := eval_list (eval_expr jrec) kids in
     jrec (head_value hd :: props :: vs)).
Proof.
  cbn [eval_expr]. f_equal. induction kids as [|x l IH]; [reflexivity|].
  cbn [eval_list]. rewrite <- IH. reflexivity.
Qed.

Lemma append_child_arr element l :
  append_child element (VArr l) = forEach (append_child element) l.
Proof.
  cbn [append_child]. induction l as [|x l IH]; [reflexivity|].
  cbn [forEach]. rewrite <- IH. reflexivity.
Qed.

(** ** Invariants of the dispatch function *)

Section Invariant.

(** [I] is a stable invariant, [A] a condition on the arguments of [j].
    The calls made by user code, by [renderApp] and by the replay of a
    registered template satisfy [A]; a build whose arguments satisfy [A]
    may add its element and its registry entry. *)
Variable N : node_kind -> Prop.
Variable I : state -> Prop.
Variable A : list value -> Prop.
Hypothesis HS : stable N I.
Hypothesis Ntext : forall d, N (KText d).
Hypothesis Nlink : N (KElement "link").
Hypothesis Nstyle : N (KElement "style").
Hypothesis Hconfig : forall st c, I st -> I (set_config c st).
Hypothesis Hroot : A [VStr "div"; VObj [("id", VStr "app")]].
Hypothesis Hmain : A [VStr "div"; VObj [("class", VStr "main-content")]].
Hypothesis Hcall : forall hd props vs, A (head_value hd :: props :: vs).
Hypothesis Hreplay : forall st k d,
  I st -> registry st !! k = Some d ->
  A (d_tag d :: d_props d :: d_children d).
Hypothesis Hnode : forall args name,
  A args -> builds args = true ->
  to_string (default VUndef (args !! 0)) = Some name ->
  N (KElement (lower name)).
Hypothesis Hregister : forall st args k,
  A args -> builds args = true -> I st -> registry st !! k = None ->
  I (set_registry
       (<[k := Descriptor (default VUndef (args !! 0))
                          (default VUndef (args !! 1)) (drop 2 args)]>
          (registry st)) st).

Section Step.

Variable jrec : list value -> M value.
Hypothesis Hj : forall args, A args -> preserves True I (jrec args).

Lemma eval_expr_preserves e : preserves True I (eval_expr jrec e).
Proof.
  induction e as [v|es IH|hd props kids IH] using expr_nested_ind.
  - apply preserves_ret.
  - rewrite eval_expr_arr. apply preserves_bind; [|intros; apply preserves_ret].
    induction IH as [|x l Hx _ IHl]; cbn [eval_list]; pres.
  - rewrite eval_expr_call. apply preserves_bind; [|intros; apply Hj, Hcall].
    induction IH as [|x l Hx _ IHl]; cbn [eval_list]; pres.
Qed.

Lemma instantiate_and_render_preserves f props :
  preserves True I (instantiate_and_render (eval_expr jrec) f props).
Proof. destruct f; cbn; [apply eval_expr_preserves | apply preserves_throw]. Qed.

Lemma renderComponent_preserves c : preserves True I (renderComponent jrec c).
Proof.
  destruct c; cbn; try apply preserves_throw.
  apply instantiate_and_render_preserves.
Qed.

Lemma set_property_preserves element kv :
  preserves True I (set_property element kv).
Proof. unfold set_property. pres. Qed.

Lemma append_child_preserves element child :
  preserves True I (append_child element child).
Proof.
  induction child as [v Hv|l IH] using value_nested_ind.
  - destruct v; cbn [append_child]; try (exfalso; eapply Hv; reflexivity);
      pres; eapply document_createTextNode_preserves; eauto.
  - rewrite append_child_arr.
    induction IH as [|x l' Hx _ IHl]; cbn [forEach]; pres.
Qed.

Lemma registry_not_truthy st k :
  registry_truthy (registry_get st k) = false -> registry st !! k = None.
Proof.
  unfold registry_get. destruct (registry st !! k); [discriminate|reflexivity].
Qed.

Lemma register_template_preserves args :
  A args -> builds args = true ->
  preserves True I
    (register_template (default VUndef (args !! 0))
       (default VUndef (args !! 1)) (drop 2 args)).
Proof.
  intros HA Hb st HI. unfold register_template.
  destruct (truthy (if truthy (default VUndef (args !! 1))
                    then get_id st (default VUndef (args !! 1))
                    else default VUndef (args !! 1))); [|exact HI].
  destruct (to_key _) as [k|]; [|exact HI].
  destruct (registry_truthy (registry_get st k)) eqn:E; [exact HI|].
  apply Hregister; auto using registry_not_truthy.
Qed.

Lemma createElement_preserves args :
  A args ->
  value_eqb (default VUndef (args !! 0)) (VStr "cfg") = false ->
  value_eqb (default VUndef (args !! 0)) (VStr "render") = false ->
  value_eqb (default VUndef (args !! 0)) (VStr "rcmp") = false ->
  preserves True I
    (createElement (eval_expr jrec) (default VUndef (args !! 0))
       (default VUndef (args !! 1)) (drop 2 args)).
Proof.
  intros HA H1 H2 H3.
  assert (Hb : is_function (default VUndef (args !! 0)) = false ->
               builds args = true).
  { intros Hf. unfold builds. cbv zeta. rewrite H1, H2, H3, Hf. reflexivity. }
  assert (Hbody : is_function (default VUndef (args !! 0)) = false ->
    preserves True I
      (register_template (default VUndef (args !! 0))
         (default VUndef (args !! 1)) (drop 2 args) ;;
       let! element := document_createElement (default VUndef (args !! 0)) in
       (if truthy (default VUndef (args !! 1))
        then let! l := entries_or_throw (default VUndef (args !! 1)) in
             forEach (set_property element) l
        else ret tt) ;;
       forEach (append_child element) (drop 2 args) ;;
       ret (VNode element))).
  { intros Hf. specialize (Hb Hf).
    apply preserves_bind; [apply register_template_preserves; assumption|].
    intros _. apply preserves_bind.
    { eapply document_createElement_preserves; [exact HS|].
      intros name Hn. eapply Hnode; eassumption. }
    intros element. apply preserves_bind.
    { destruct (truthy _); [|apply preserves_ret].
      apply preserves_bind; [auto with pres|]. intros l.
      apply preserves_forEach. intros kv. apply set_property_preserves. }
    intros _. apply preserves_bind; [|intros _; apply preserves_ret].
    apply preserves_forEach. intros c. apply append_child_preserves. }
  unfold createElement.
  destruct (default VUndef (args !! 0)) eqn:E;
    try (apply Hbody; reflexivity).
  apply instantiate_and_render_preserves.
Qed.

#[local] Hint Resolve renderComponent_preserves : pres.

#[local] Hint Extern 1 (preserves _ _ (addStyle _)) =>
  eapply addStyle_preserves; eassumption : pres.
#[local] Hint Extern 1 (preserves _ _ addDefaultStyles) =>
  eapply addStyle_preserves; eassumption : pres.
#[local] Hint Extern 1 (preserves _ _ (addStyles _)) =>
  eapply addStyles_preserves; eassumption : pres.
#[local] Hint Extern 1 (preserves _ _ (addInlineStyle _)) =>
  eapply addInlineStyle_preserves; eassumption : pres.

Lemma cfg_preserves overlay : preserves True I (cfg overlay).
Proof.
  unfold cfg. apply preserves_bind.
  { apply hoare_modify. intros st HI. apply Hconfig, HI. }
  intros _. pres.
Qed.

Lemma mount_container_preserves : preserves True I (mount_container jrec).
Proof.
  unfold mount_container. apply preserves_bind; [eauto with pres|].
  intros found. destruct found; [apply preserves_ret|].
  apply preserves_bind; [apply Hj, Hroot|]. intros v. pres.
Qed.

Lemma fill_container_preserves root route component :
  preserves True I (fill_container jrec root route component).
Proof.
  unfold fill_container. destruct (truthy _); [|apply preserves_ret].
  apply preserves_bind; [eauto with pres|]. intros content.
  apply preserves_bind; [eauto with pres|]. intros has.
  apply preserves_bind; [pres|]. intros _.
  apply preserves_bind; [eauto with pres|]. intros style.
  apply preserves_bind; [pres|]. intros _.
  apply preserves_bind; [eauto with pres|]. intros styles.
  apply preserves_bind; [pres|]. intros _.
  apply preserves_bind; [eauto with pres|]. intros _.
  apply preserves_bind; [apply Hj, Hmain|]. intros mainv.
  pres.
Qed.

Lemma renderApp_preserves : preserves True I (renderApp jrec).
Proof.
  unfold renderApp. apply preserves_bind; [eauto with pres|]. intros rc.
  destruct (negb _).
  { apply preserves_bind; [|intros; apply preserves_ret].
    apply hoare_modify. intros st HI. apply (stable_console N I HS), HI. }
  apply preserves_bind; [apply mount_container_preserves|]. intros root.
  apply fill_container_preserves.
Qed.

Lemma rcmp_preserves id : preserves True I (rcmp jrec id).
Proof.
  unfold rcmp. apply preserves_bind; [eauto with pres|]. intros [node|];
    [|apply preserves_ret].
  apply preserves_bind; [eauto with pres|]. intros [parent|];
    [|apply preserves_ret].
  intros st HI. destruct (to_key id) as [k|]; [|exact HI].
  unfold registry_get. destruct (registry st !! k) as [tpl|] eqn:E.
  - assert (H : preserves True I
                  (let! newNode :=
                     jrec (d_tag tpl :: d_props tpl :: d_children tpl) in
                   replaceChild parent newNode node ;; ret VUndef)).
    { apply preserves_bind; [eapply Hj, Hreplay; eassumption|]. intros v.
      pres. }
    apply (H st HI).
  - destruct k as [s|d]; [destruct (inherited s)|]; exact HI.
Qed.

Lemma dispatch_preserves args : A args -> preserves True I (dispatch jrec args).
Proof.
  intros HA. unfold dispatch. cbv zeta.
  destruct (value_eqb _ (VStr "cfg")) eqn:E1; [apply cfg_preserves|].
  destruct (value_eqb _ (VStr "render")) eqn:E2; [apply renderApp_preserves|].
  destruct (value_eqb _ (VStr "rcmp")) eqn:E3; [apply rcmp_preserves|].
  apply createElement_preserves; assumption.
Qed.

End Step.

(** Every state a call of [j] ends in satisfies the invariant. *)
Lemma j_invariant fuel args : A args -> preserves True I (j fuel args).
Proof.
  revert args. induction fuel as [|n IH]; intros args HA.
  - intros st _. exact Logic.I.
  - cbn [j]. apply dispatch_preserves; assumption.
Qed.

End Invariant.

(** ** The template registry is first-write-wins *)

Lemma registry_stable (k : pkey) (d : descriptor) :
  stable (fun _ => True) (fun st => registry st !! k = Some d).
Proof. split; intros; assumption. Qed.

(** An entry of the registry is never overwritten, whatever [j] is called
    with and however the call ends. *)
Lemma registry_entry_kept (fuel : nat) (args : list value) (k : pkey)
  (d : descriptor) :
  preserves True (fun st => registry st !! k = Some d) (j fuel args).
Proof.
  apply (j_invariant (fun _ => True) _ (fun _ => True));
    try (intros; exact Logic.I); try exact Logic.I.
  - apply registry_stable.
  - intros st c H. exact H.
  - intros st a k' _ _ H Hk'. cbn.
    rewrite lookup_insert_ne; [exact H | congruence].
Qed.

(** The first build with a truthy [id] whose key reads [undefined] in the
    registry stores its own arguments under that key. *)
Lemma first_build_registers (fuel : nat) (tag : value)
  (o : list (string * value)) (children : list value) (idv : value)
  (k : pkey) (st : state) :
  builds (tag :: VObj o :: children) = true ->
  obj_get o "id" = Some idv -> truthy idv = true -> to_key idv = Some k ->
  registry_get st k = RUndefined ->
  hoare True (fun s => s = st) (j (S fuel) (tag :: VObj o :: children))
    (fun _ s => registry s !! k = Some (Descriptor tag (VObj o) children))
    (fun s => registry s !! k = Some (Descriptor tag (VObj o) children)).
Proof.
  intros Hb Hid Ht Hk Hr.
  set (D := Descriptor tag (VObj o) children).
  pose proof (registry_stable k D) as HS.
  assert (Hreg : hoare True (fun s => s = st)
                   (register_template tag (VObj o) children)
                   (fun _ s => registry s !! k = Some D)
                   (fun s => registry s !! k = Some D)).
  { intros s ->. unfold register_template. cbv zeta.
    change (truthy (VObj o)) with true. cbv iota. cbn [get_id].
    rewrite Hid. cbn [default from_option]. unfold id. rewrite Ht, Hk, Hr.
    cbn [registry_truthy registry set_registry].
    apply lookup_insert_eq. }
  unfold builds in Hb. cbn [lookup list_lookup default] in Hb.
  apply andb_prop in Hb as [Hb Hf]. apply andb_prop in Hb as [Hb H3].
  apply andb_prop in Hb as [H1 H2].
  apply negb_true_iff in H1, H2, H3, Hf.
  cbn [j]. unfold dispatch. cbn [lookup list_lookup default drop].
  rewrite H1, H2, H3. unfold createElement.
  assert (Hbody : hoare True (fun s => s = st)
    (register_template tag (VObj o) children ;;
     let! element := document_createElement tag in
     (if truthy (VObj o)
      then let! l := entries_or_throw (VObj o) in
           forEach (set_property element) l
      else ret tt) ;;
     forEach (append_child element) children ;;
     ret (VNode element))
    (fun _ s => registry s !! k = Some D)
    (fun s => registry s !! k = Some D)).
  { eapply hoare_bind with (Q := fun _ s => registry s !! k = Some D);
      [exact Hreg|]. intros _.
    apply preserves_bind.
    { eapply document_createElement_preserves; [exact HS | intros; exact Logic.I]. }
    intros element. apply preserves_bind.
    { cbn [truthy]. apply preserves_bind; [eauto with pres|]. intros l.
      apply preserves_forEach. intros kv.
      eapply set_property_preserves; exact HS. }
    intros _. apply preserves_bind; [|intros _; apply preserves_ret].
    apply preserves_forEach. intros c.
    eapply append_child_preserves; [exact HS | intros; exact Logic.I]. }
  destruct tag; try exact Hbody. discriminate.
Qed.

Lemma registry_get_own (st : state) (k : pkey) (d : descriptor) :
  registry st !! k = Some d -> registry_get st k = RDescriptor d.
Proof. intros H. unfold registry_get. rewrite H. reflexivity. Qed.

(** C1 (as the code has it): a build through [j] whose [id] is truthy and
    whose key reads [undefined] in the registry (no entry yet, and not a
    name inherited from [Object.prototype]) registers its arguments, and
    the entry is still the same after any later call of [j], so also after
    a second build with the same [id] and another descriptor. *)
Theorem registry_first_write_wins (fuel1 fuel2 : nat) (tag : value)
  (o : list (string * value)) (children args2 : list value) (idv v1 : value)
  (k : pkey) (st st1 st2 : state) :
  builds (tag :: VObj o :: children) = true ->
  obj_get o "id" = Some idv -> truthy idv = true -> to_key idv = Some k ->
  registry_get st k = RUndefined ->
  j fuel1 (tag :: VObj o :: children) st = Ok v1 st1 ->
  final_state (j fuel2 args2 st1) = Some st2 ->
  registry_get st1 k = RDescriptor (Descriptor tag (VObj o) children) /\
  registry_get st2 k = RDescriptor (Descriptor tag (VObj o) children).
Proof.
  intros Hb Hid Ht Hk Hr H1 H2.
  destruct fuel1 as [|fuel1]; [discriminate|].
  pose proof (first_build_registers fuel1 tag o children idv k st
                Hb Hid Ht Hk Hr st eq_refl) as Hfirst.
  rewrite H1 in Hfirst.
  split; [apply registry_get_own, Hfirst|].
  pose proof (registry_entry_kept fuel2 args2 k _ st1 Hfirst) as Hkept.
  apply registry_get_own.
  destruct (j fuel2 args2 st1); simplify_eq/=; exact Hkept.
Qed.

(** ** How the host primitives change the store *)

Lemma hkids_alter (f : dnode -> dnode) (r x : nat) (h : list dnode) :
  hkids (alter f r h) x
  = if decide (r = x) then (fun n => n_kids (f n)) <$> h !! x else hkids h x.
Proof.
  unfold hkids. rewrite list_lookup_alter.
  destruct (decide (r = x)) as [->|]; [|reflexivity].
  destruct (h !! x); reflexivity.
Qed.

Lemma hpar_alter (f : dnode -> dnode) (r x : nat) (h : list dnode) :
  hpar (alter f r h) x
  = if decide (r = x) then (fun n => n_parent (f n)) <$> h !! x else hpar h x.
Proof.
  unfold hpar. rewrite list_lookup_alter.
  destruct (decide (r = x)) as [->|]; [|reflexivity].
  destruct (h !! x); reflexivity.
Qed.

Lemma hkids_alter_keep (f : dnode -> dnode) (r x : nat) (h : list dnode) :
  (forall n, n_kids (f n) = n_kids n) -> hkids (alter f r h) x = hkids h x.
Proof.
  intros Hf. rewrite hkids_alter. destruct (decide (r = x)); [|reflexivity].
  unfold hkids. destruct (h !! x); cbn; [rewrite Hf|]; reflexivity.
Qed.

Lemma hpar_alter_keep (f : dnode -> dnode) (r x : nat) (h : list dnode) :
  (forall n, n_parent (f n) = n_parent n) -> hpar (alter f r h) x = hpar h x.
Proof.
  intros Hf. rewrite hpar_alter. destruct (decide (r = x)); [|reflexivity].
  unfold hpar. destruct (h !! x); cbn; [rewrite Hf|]; reflexivity.
Qed.

Lemma hface_alter_keep (f : dnode -> dnode) (r x : nat) (h : list dnode) :
  (forall n, n_kind (f n) = n_kind n /\ n_attrs (f n) = n_attrs n) ->
  hface (alter f r h) x = hface h x.
Proof.
  intros Hf. unfold hface. rewrite list_lookup_alter.
  destruct (decide (r = x)) as [->|]; [|reflexivity].
  destruct (h !! x) as [nd|]; [|reflexivity]. cbn.
  destruct (Hf nd) as [-> ->]. reflexivity.
Qed.

Lemma hpar_detach_other (c x : nat) (h : list dnode) :
  x <> c -> hpar (detach c h) x = hpar h x.
Proof.
  intros Hx. unfold detach. destruct (h !! c) as [n|]; [|reflexivity].
  destruct (n_parent n) as [q|]; [|reflexivity].
  rewrite hpar_alter. destruct (decide (c = x)); [congruence|].
  apply hpar_alter_keep. reflexivity.
Qed.

Lemma hkids_detach (c x : nat) (h : list dnode) :
  hkids (detach c h) x
  = if decide (hpar h c = Some (Some x))
    then remove_ref c <$> hkids h x else hkids h x.
Proof.
  unfold detach, hpar. destruct (h !! c) as [n|] eqn:E; cbn.
  - destruct (n_parent n) as [q|] eqn:Eq.
    + rewrite hkids_alter_keep by reflexivity. rewrite hkids_alter.
      destruct (decide (q = x)) as [->|Hne].
      * rewrite decide_True by reflexivity. unfold hkids.
        destruct (h !! x); reflexivity.
      * rewrite decide_False by congruence. reflexivity.
    + rewrite decide_False by congruence. reflexivity.
  - rewrite decide_False by congruence. reflexivity.
Qed.

Lemma hkids_detach_free (c x : nat) (h : list dnode) :
  hpar h c = Some None -> hkids (detach c h) x = hkids h x.
Proof. intros H. rewrite hkids_detach, H, decide_False by congruence. reflexivity. Qed.

Lemma detach_free (c : nat) (h : list dnode) :
  hpar h c = Some None -> detach c h = h.
Proof.
  unfold hpar, detach. destruct (h !! c) as [n|]; [|discriminate].
  cbn. intros [= ->]. reflexivity.
Qed.

Lemma length_detach (c : nat) (h : list dnode) : length (detach c h) = length h.
Proof.
  unfold detach. destruct (h !! c) as [n|]; [|reflexivity].
  destruct (n_parent n); [|reflexivity]. now rewrite !length_alter.
Qed.

Lemma agree_refl n h : agree n h h.
Proof. intros y _. reflexivity. Qed.

Lemma agree_trans n h1 h2 h3 : agree n h1 h2 -> agree n h2 h3 -> agree n h1 h3.
Proof. intros H12 H23 y Hy. rewrite H23, H12 by exact Hy. reflexivity. Qed.

Lemma agree_le n m h h' : n <= m -> agree m h h' -> agree n h h'.
Proof. intros Hnm H y Hy. apply H. lia. Qed.

Lemma agree_alter n f r h : n <= r -> agree n h (alter f r h).
Proof. intros Hr y Hy. apply list_lookup_alter_ne. lia. Qed.

Lemma agree_app n h l : n <= length h -> agree n h (h ++ l).
Proof. intros Hn y Hy. apply lookup_app_l. lia. Qed.

Lemma agree_hkids n h h' x : agree n h h' -> x < n -> hkids h' x = hkids h x.
Proof. intros H Hx. unfold hkids. now rewrite H. Qed.

Lemma agree_hpar n h h' x : agree n h h' -> x < n -> hpar h' x = hpar h x.
Proof. intros H Hx. unfold hpar. now rewrite H. Qed.

Lemma agree_detach n c h :
  n <= c -> new_parents n h -> agree n h (detach c h).
Proof.
  intros Hc Hnp. unfold detach. destruct (h !! c) as [nd|] eqn:E;
    [|apply agree_refl].
  destruct (n_parent nd) as [q|] eqn:Eq; [|apply agree_refl].
  eapply agree_trans; apply agree_alter; [|exact Hc].
  eapply Hnp; eassumption.
Qed.

Lemma new_parents_alter n f r h :
  new_parents n h ->
  (forall nd q, h !! r = Some nd -> n_parent (f nd) = Some q ->
                n_parent nd = Some q \/ n <= q) ->
  new_parents n (alter f r h).
Proof.
  intros Hnp Hf x nd q Hx Hn Hq. rewrite list_lookup_alter in Hx.
  destruct (decide (r = x)) as [->|_]; [|eapply Hnp; eassumption].
  destruct (h !! x) as [nd0|] eqn:E; simplify_eq/=.
  destruct (Hf nd0 q eq_refl Hq) as [H|H]; [eapply Hnp; eassumption | exact H].
Qed.

Lemma new_parents_app n h nd :
  new_parents n h -> n_parent nd = None -> new_parents n (h ++ [nd]).
Proof.
  intros Hnp Hnone x nd' q Hx Hn Hq.
  apply lookup_snoc_Some in Hx as [[_ Hx]|[_ <-]]; [|congruence].
  eapply Hnp; eassumption.
Qed.

Lemma new_parents_detach n c h : new_parents n h -> new_parents n (detach c h).
Proof.
  intros Hnp. unfold detach. destruct (h !! c) as [nd|]; [|exact Hnp].
  destruct (n_parent nd); [|exact Hnp].
  apply new_parents_alter; [apply new_parents_alter; [exact Hnp|]|].
  - intros ? ? _ H. left. exact H.
  - intros ? ? _ H. discriminate.
Qed.

(** The successful case of [appendChild]. *)
Lemma appendChild_ok parent c st st' :
  appendChild parent (VNode c) st = Ok tt st' ->
  st' = set_heap (alter (with_parent (Some parent)) c
                    (alter (with_kids (fun l => l ++ [c])) parent
                       (detach c (heap st)))) st /\
  c <> parent /\ is_Some (heap st !! parent) /\ is_Some (heap st !! c).
Proof.
  unfold appendChild. cbv zeta.
  destruct (heap st !! parent) as [pn|]; [|discriminate].
  destruct (heap st !! c) as [cn|]; [|discriminate].
  destruct (is_text pn || is_document cn
            || inclusive_ancestor (length (heap st)) (heap st) c parent
            || is_document pn && (is_text cn || has_element_child (heap st) pn None))
    eqn:E; [discriminate|].
  intros [= <-]. repeat split; eauto.
  intros ->. apply orb_false_iff in E as [E _].
  apply orb_false_iff in E as [_ E].
  destruct (length (heap st)); cbn in E; rewrite Nat.eqb_refl in E;
    discriminate.
Qed.

(** ** Building on new nodes leaves the old ones alone *)

Lemma child_nodes_from_arr n l :
  child_nodes_from n (VArr l) <-> Forall (child_nodes_from n) l.
Proof.
  cbn [child_nodes_from]. induction l as [|x l IH].
  - split; [constructor | intros; exact Logic.I].
  - rewrite Forall_cons, IH. reflexivity.
Qed.

Lemma appendChild_throw parent child st e st' :
  appendChild parent child st = Throw e st' -> st' = st.
Proof.
  unfold appendChild. cbv zeta. destruct child; try (intros [= _ <-]; reflexivity).
  destruct (heap st !! parent); [|intros [= _ <-]; reflexivity].
  destruct (heap st !! r); [|intros [= _ <-]; reflexivity].
  destruct (_ || _); [intros [= _ <-]; reflexivity | discriminate].
Qed.

Lemma appendChild_total parent child st :
  appendChild parent child st <> OutOfFuel.
Proof.
  unfold appendChild. cbv zeta. destruct child; try discriminate.
  destruct (heap st !! parent); [|discriminate].
  destruct (heap st !! r); [|discriminate].
  destruct (_ || _); discriminate.
Qed.

Section Building.

Variable F : Prop.
Variable n : nat.
Variable st0 : state.
Variable el : nat.

Lemma building_alter f s :
  (forall nd, n_parent (f nd) = n_parent nd) ->
  building n st0 el s ->
  building n st0 el (set_heap (alter f el (heap s)) s).
Proof.
  intros Hf ((Hlen & Hag & Hnp & Hc & Hg) & Hel & Hp).
  split; [split; [|split; [|split; [|split]]]|split];
      cbn [heap set_heap config globals]; try assumption.
  - now rewrite length_alter.
  - eapply agree_trans; [exact Hag | apply agree_alter, Hel].
  - apply new_parents_alter; [exact Hnp|]. intros nd q _ H. left.
    now rewrite Hf in H.
  - now rewrite hpar_alter_keep.
Qed.

Lemma building_alloc k s :
  building n st0 el s ->
  building n st0 el (set_heap (heap s ++ [new_node k]) s).
Proof.
  intros ((Hlen & Hag & Hnp & Hc & Hg) & Hel & Hp).
  split; [split; [|split; [|split; [|split]]]|split];
      cbn [heap set_heap config globals]; try assumption.
  - rewrite length_app. lia.
  - eapply agree_trans; [exact Hag | apply agree_app, Hlen].
  - apply new_parents_app; [exact Hnp | reflexivity].
  - unfold hpar in *. destruct (heap s !! el) as [nd|] eqn:E; [|discriminate].
    rewrite lookup_app_l by (eapply lookup_lt_Some; eassumption).
    now rewrite E.
Qed.

Lemma building_appendChild c :
  n <= c -> preserves F (building n st0 el) (appendChild el (VNode c)).
Proof.
  intros Hc s HB.
  destruct (appendChild el (VNode c) s) as [[] s'|e s'|] eqn:E.
  - apply appendChild_ok in E as (-> & Hne & _ & _).
    destruct HB as ((Hlen & Hag & Hnp & Hcf & Hg) & Hel & Hp).
    split; [split; [|split; [|split; [|split]]]|split];
      cbn [heap set_heap config globals]; try assumption.
    + now rewrite !length_alter, length_detach.
    + eapply agree_trans; [exact Hag|].
      eapply agree_trans; [apply (agree_detach n c); assumption|].
      apply (agree_trans _ _
               (alter (with_kids (fun l => l ++ [c])) el (detach c (heap s))));
        apply agree_alter; assumption.
    + apply new_parents_alter.
      * apply new_parents_alter; [apply new_parents_detach, Hnp|].
        intros nd q _ H. left. exact H.
      * intros nd q _ [= <-]. right. exact Hel.
    + rewrite hpar_alter, decide_False by exact Hne.
      rewrite hpar_alter_keep by reflexivity.
      rewrite hpar_detach_other by congruence. exact Hp.
  - apply appendChild_throw in E as ->. exact HB.
  - exfalso. eapply appendChild_total, E.
Qed.

Lemma modify_alter_building f :
  (forall nd, n_parent (f nd) = n_parent nd) ->
  preserves F (building n st0 el)
    (modify (fun s => set_heap (alter f el (heap s)) s)).
Proof. intros Hf. apply hoare_modify. intros s. now apply building_alter. Qed.

Lemma setAttribute_building name v :
  preserves F (building n st0 el) (setAttribute el name v).
Proof. unfold setAttribute. pres. now apply modify_alter_building. Qed.

Lemma classList_add_building token :
  preserves F (building n st0 el) (classList_add el token).
Proof. unfold classList_add. pres. now apply modify_alter_building. Qed.

Lemma style_set_building prop v :
  preserves F (building n st0 el) (style_set el prop v).
Proof. unfold style_set. pres; now apply modify_alter_building. Qed.

Lemma set_property_building kv :
  preserves F (building n st0 el) (set_property el kv).
Proof.
  unfold set_property. pres;
    auto using setAttribute_building, classList_add_building,
      style_set_building.
Qed.

Lemma createTextNode_building d :
  hoare F (building n st0 el) (document_createTextNode d)
    (fun t s => building n st0 el s /\ n <= t) (building n st0 el).
Proof.
  intros s HB. cbn. split; [now apply building_alloc|].
  destruct HB as ((Hlen & _) & _). exact Hlen.
Qed.

Lemma append_text_building d :
  preserves F (building n st0 el)
    (let! t := document_createTextNode d in appendChild el (VNode t)).
Proof.
  eapply hoare_bind; [apply createTextNode_building|].
  intros t. apply hoare_assume. intros Ht. now apply building_appendChild.
Qed.

Lemma append_child_building child :
  child_nodes_from n child ->
  preserves F (building n st0 el) (append_child el child).
Proof.
  induction child as [v Hv|l IH] using value_nested_ind; intros Hc.
  - destruct v; cbn [append_child]; try (exfalso; eapply Hv; reflexivity);
      try apply preserves_ret;
      try (apply preserves_bind; [apply text_of_preserves|]; intros ?;
           try (apply preserves_bind; [apply evalTemplate_preserves|];
                intros ?);
           apply append_text_building).
    now apply building_appendChild.
  - rewrite append_child_arr. apply child_nodes_from_arr in Hc.
    induction IH as [|x l' Hx _ IHl]; cbn [forEach].
    + apply preserves_ret.
    + apply Forall_cons in Hc as [Hc1 Hc2].
      apply preserves_bind; [now apply Hx | intros _; now apply IHl].
Qed.

End Building.

Lemma register_template_frame tag props children st :
  match register_template tag props children st with
  | Ok _ s' | Throw _ s' =>
      heap s' = heap st /\ config s' = config st /\ globals s' = globals st
  | OutOfFuel => False
  end.
Proof.
  unfold register_template. cbv zeta.
  destruct (truthy (if truthy props then get_id st props else props));
    [|repeat split].
  destruct (to_key _) as [k|]; [|repeat split].
  destruct (registry_truthy _); repeat split.
Qed.

Lemma built_over_same n st0 s s' :
  built_over n st0 s ->
  heap s' = heap s -> config s' = config s -> globals s' = globals s ->
  built_over n st0 s'.
Proof. unfold built_over. intros H -> -> ->. exact H. Qed.

Lemma hpar_lt h x p : hpar h x = Some p -> x < length h.
Proof.
  unfold hpar. destruct (h !! x) eqn:E; [|discriminate].
  intros _. eapply lookup_lt_Some, E.
Qed.

(** The builder on a tag name, with children whose nodes are from [n] on:
    the result is the node allocated first, it has no parent, and the
    nodes below [n] are untouched. *)
Lemma createElement_builds ev tag props children n st0 m :
  is_function tag = false ->
  Forall (child_nodes_from n) children ->
  hoare True (fun s => built_over n st0 s /\ length (heap s) = m)
    (createElement ev tag props children)
    (fun v s => v = VNode m /\ building n st0 m s /\ m < length (heap s))
    (fun _ => True).
Proof.
  intros Hf Hch.
  assert (Hbody : hoare True (fun s => built_over n st0 s /\ length (heap s) = m)
    (register_template tag props children ;;
     let! element := document_createElement tag in
     (if truthy props
      then let! l := entries_or_throw props in
           forEach (set_property element) l
      else ret tt) ;;
     forEach (append_child element) children ;;
     ret (VNode element))
    (fun v s => v = VNode m /\ building n st0 m s /\ m < length (heap s))
    (fun _ => True)).
  { eapply hoare_bind
      with (Q := fun _ s => built_over n st0 s /\ length (heap s) = m).
    { intros s [HB Hm].
      pose proof (register_template_frame tag props children s) as H.
      destruct (register_template tag props children s) as [a s'|e s'|];
        [|exact Logic.I|exact Logic.I].
      destruct H as (Hh & Hc & Hg). split; [|congruence].
      eapply built_over_same; eassumption. }
    intros _.
    eapply hoare_bind
      with (Q := fun e s => e = m /\ building n st0 m s).
    { intros s [HB Hm]. unfold document_createElement.
      destruct (to_string tag) as [name|]; [|exact Logic.I].
      destruct (valid_tag name); [|exact Logic.I].
      cbn. split; [exact Hm|].
      destruct HB as (Hlen & Hag & Hnp & Hc & Hg).
      split; [split; [|split; [|split; [|split]]]|split];
        cbn [heap set_heap config globals]; try assumption.
      - rewrite length_app. lia.
      - eapply agree_trans; [exact Hag | apply agree_app, Hlen].
      - apply new_parents_app; [exact Hnp | reflexivity].
      - lia.
      - unfold hpar. rewrite list_lookup_middle by congruence. reflexivity. }
    intros e. apply hoare_weaken
      with (P' := fun s => building n st0 m s /\ e = m)
           (Q' := fun v s => v = VNode m /\ building n st0 m s
                             /\ m < length (heap s))
           (E' := fun _ => True); [|intros; cbn beta in *; tauto..].
    apply hoare_assume. intros ->.
    eapply hoare_bind with (Q := fun _ => building n st0 m).
    { apply preserves_returns.
      destruct (truthy props); [|apply preserves_ret].
      apply preserves_bind; [apply entries_or_throw_preserves|]. intros l.
      apply preserves_forEach. intros kv. apply set_property_building. }
    intros _.
    eapply hoare_bind with (Q := fun _ => building n st0 m).
    { apply preserves_returns.
      induction Hch as [|c cs Hc _ IH]; cbn [forEach].
      - apply preserves_ret.
      - apply preserves_bind; [now apply append_child_building|].
        intros _. exact IH. }
    intros _. apply hoare_ret. intros s HB. split; [reflexivity|].
    split; [exact HB|]. destruct HB as (_ & _ & Hp). eapply hpar_lt, Hp. }
  unfold createElement. destruct tag; try exact Hbody. discriminate.
Qed.

(** ** Returns of sequences *)

Lemma bind_ok {A B} (m : M A) (k : A -> M B) st b st' :
  bind m k st = Ok b st' ->
  exists a s, m st = Ok a s /\ k a s = Ok b st'.
Proof.
  unfold bind. destruct (m st) as [a s| |]; [eauto | discriminate..].
Qed.

Lemma forEach_cons_ok {A} (f : A -> M unit) x l st st' :
  forEach f (x :: l) st = Ok tt st' ->
  exists s, f x st = Ok tt s /\ forEach f l s = Ok tt st'.
Proof.
  cbn [forEach]. intros H. apply bind_ok in H as ([] & s & H1 & H2). eauto.
Qed.

(** ** Text children *)

Lemma hpar_new h k : hpar (h ++ [new_node k]) (length h) = Some None.
Proof. unfold hpar. rewrite list_lookup_middle; reflexivity. Qed.

(** A text child: one new text node, whose data is the text after
    substitution with the current global variables, becomes the last
    child of the element. *)
Lemma append_text_ok el text s s1 :
  append_child el (VStr text) s = Ok tt s1 ->
  exists t,
    replace_inline (globals s) text None = Some t /\
    el < length (heap s) /\
    s1 = set_heap
           (alter (with_parent (Some el)) (length (heap s))
              (alter (with_kids (fun l => l ++ [length (heap s)])) el
                 (heap s ++ [new_node (KText t)]))) s.
Proof.
  cbn [append_child]. unfold text_of.
  intros H. apply bind_ok in H as (x & s0 & H0 & H). cbn in H0.
  injection H0 as <- <-.
  apply bind_ok in H as (t & s0 & H0 & H). unfold evalTemplate in H0.
  destruct (replace_inline (globals s) text None) as [t'|] eqn:Et;
    [|discriminate]. injection H0 as <- <-.
  apply bind_ok in H as (i & s0 & H0 & H). cbn in H0. injection H0 as <- <-.
  apply appendChild_ok in H as (-> & Hne & [pn Hp] & _).
  cbn [heap set_heap] in *. exists t'. split; [reflexivity|].
  assert (Hlt : el < length (heap s)).
  { apply lookup_lt_Some in Hp. rewrite length_app in Hp. cbn in Hp. lia. }
  split; [exact Hlt|]. rewrite detach_free by apply hpar_new. reflexivity.
Qed.

Lemma text_kids_agree g el h h' ks texts :
  text_kids g el h ks texts ->
  (forall k, k ∈ ks -> h' !! k = h !! k) ->
  text_kids g el h' ks texts.
Proof.
  unfold text_kids. induction 1 as [|k text ks texts (t & Ht & Hk) _ IH];
    intros Hag; constructor.
  - exists t. split; [exact Ht|]. rewrite Hag; [exact Hk | left].
  - apply IH. intros k' Hk'. apply Hag. right. exact Hk'.
Qed.

(** Text children only: the element gains one text node per child, in
    order; nothing else changes below the old end of the store. *)
Lemma append_texts_ok el texts :
  forall s s' ks,
    forEach (append_child el) (VStr <$> texts) s = Ok tt s' ->
    hkids (heap s) el = Some ks ->
    exists ks',
      hkids (heap s') el = Some (ks ++ ks') /\
      text_kids (globals s) el (heap s') ks' texts /\
      Forall (fun k => length (heap s) <= k) ks' /\
      (forall y, y < length (heap s) -> y <> el -> heap s' !! y = heap s !! y) /\
      hpar (heap s') el = hpar (heap s) el /\
      n_kind <$> heap s' !! el = n_kind <$> heap s !! el /\
      length (heap s) <= length (heap s') /\
      globals s' = globals s.
Proof.
  induction texts as [|text texts IH]; intros s s' ks H Hk.
  - cbn in H. injection H as <-. exists []. rewrite app_nil_r.
    split; [exact Hk|]. split; [constructor|]. split; [constructor|].
    repeat split; auto.
  - cbn [fmap list_fmap] in H. apply forEach_cons_ok in H as (s1 & H1 & H).
    apply append_text_ok in H1 as (t & Ht & Hlt & ->).
    set (i := length (heap s)) in *.
    set (h1 := alter (with_parent (Some el)) i
                 (alter (with_kids (fun l => l ++ [i])) el
                    (heap s ++ [new_node (KText t)]))) in *.
    assert (Hne : i <> el) by lia.
    assert (Hk1 : hkids h1 el = Some (ks ++ [i])).
    { unfold h1. rewrite hkids_alter_keep by reflexivity.
      rewrite hkids_alter, decide_True by reflexivity.
      rewrite lookup_app_l by exact Hlt.
      unfold hkids in Hk. destruct (heap s !! el); simplify_eq/=. reflexivity. }
    assert (Hi : h1 !! i = Some (text_node el t)).
    { unfold h1. rewrite list_lookup_alter_eq.
      rewrite list_lookup_alter_ne by congruence.
      rewrite list_lookup_middle by reflexivity. reflexivity. }
    assert (Hlen1 : length h1 = S i).
    { unfold h1. rewrite !length_alter, length_app. cbn. lia. }
    assert (Hold : forall y, y < i -> y <> el -> h1 !! y = heap s !! y).
    { intros y Hy Hye. unfold h1.
      rewrite !list_lookup_alter_ne by lia. now apply lookup_app_l. }
    assert (Hp1 : hpar h1 el = hpar (heap s) el).
    { unfold h1. rewrite hpar_alter, decide_False by exact Hne.
      rewrite hpar_alter_keep by reflexivity. unfold hpar.
      now rewrite lookup_app_l. }
    assert (Hkd1 : n_kind <$> h1 !! el = n_kind <$> heap s !! el).
    { unfold h1. rewrite list_lookup_alter_ne by exact Hne.
      rewrite list_lookup_alter_eq, lookup_app_l by exact Hlt.
      destruct (heap s !! el); reflexivity. }
    destruct (IH _ _ _ H Hk1)
      as (ks' & Hk' & Htk & Hge & Hag & Hp & Hkd & Hlen & Hg).
    cbn [heap set_heap globals] in *.
    exists (i :: ks'). rewrite <- app_assoc in Hk'.
    split; [exact Hk'|]. split; [|split; [|split; [|split; [|split; [|split]]]]].
    + constructor.
      * exists t. split; [exact Ht|]. rewrite Hag; [exact Hi | lia | exact Hne].
      * exact Htk.
    + constructor; [lia|]. eapply Forall_impl; [exact Hge|].
      cbn. intros k Hk0. lia.
    + intros y Hy Hye. rewrite Hag by lia. now apply Hold.
    + congruence.
    + congruence.
    + lia.
    + exact Hg.
Qed.

(** ** Setting properties changes attributes, classes and style only *)

Section Cosmetic.

Variable F : Prop.
Variable I : state -> Prop.
Variable el : nat.
Hypothesis HI : forall s f, cosmetic f -> I s ->
                            I (set_heap (alter f el (heap s)) s).

Lemma modify_cosmetic f :
  cosmetic f ->
  preserves F I (modify (fun s => set_heap (alter f el (heap s)) s)).
Proof. intros Hf. apply hoare_modify. intros s. now apply HI. Qed.

Lemma setAttribute_cosmetic name v : preserves F I (setAttribute el name v).
Proof.
  unfold setAttribute. pres. apply modify_cosmetic. intros nd. repeat split.
Qed.

Lemma classList_add_cosmetic token : preserves F I (classList_add el token).
Proof.
  unfold classList_add. pres. apply modify_cosmetic. intros nd. repeat split.
Qed.

Lemma style_set_cosmetic prop v : preserves F I (style_set el prop v).
Proof.
  unfold style_set. pres; apply modify_cosmetic; intros nd; repeat split.
Qed.

Lemma set_property_cosmetic kv : preserves F I (set_property el kv).
Proof.
  unfold set_property. pres;
    auto using setAttribute_cosmetic, classList_add_cosmetic,
      style_set_cosmetic.
Qed.

Lemma set_properties_cosmetic props :
  preserves F I
    (if truthy props
     then let! l := entries_or_throw props in forEach (set_property el) l
     else ret tt).
Proof.
  destruct (truthy props); [|apply preserves_ret].
  apply preserves_bind; [apply entries_or_throw_preserves|]. intros l.
  apply preserves_forEach. intros kv. apply set_property_cosmetic.
Qed.

End Cosmetic.

(** The builder on a tag name with text children only. *)
Lemma createElement_texts_ok ev tag props texts st v st1 :
  createElement ev (VStr tag) props (VStr <$> texts) st = Ok v st1 ->
  v = VNode (length (heap st)) /\
  agree (length (heap st)) (heap st) (heap st1) /\
  globals st1 = globals st /\
  hpar (heap st1) (length (heap st)) = Some None /\
  n_kind <$> heap st1 !! length (heap st) = Some (KElement (lower tag)) /\
  exists ks,
    hkids (heap st1) (length (heap st)) = Some ks /\
    text_kids (globals st) (length (heap st)) (heap st1) ks texts /\
    Forall (fun k => length (heap st) < k) ks.
Proof.
  set (m := length (heap st)).
  unfold createElement. intros H.
  apply bind_ok in H as ([] & s0 & H0 & H).
  pose proof (register_template_frame (VStr tag) props (VStr <$> texts) st) as Hf.
  rewrite H0 in Hf. destruct Hf as (Hh0 & _ & Hg0).
  apply bind_ok in H as (el & s1 & H1 & H).
  unfold document_createElement in H1.
  change (to_string (VStr tag)) with (Some tag) in H1. cbv iota beta in H1.
  destruct (valid_tag tag); [|discriminate]. cbn in H1.
  injection H1 as <- <-. rewrite Hh0 in H. fold m in H.
  set (Ip := fun s : state =>
         globals s = globals st /\ length (heap s) = S m /\
         agree m (heap st) (heap s) /\ hkids (heap s) m = Some [] /\
         hpar (heap s) m = Some None /\
         n_kind <$> heap s !! m = Some (KElement (lower tag))).
  assert (Hstable : forall s f, cosmetic f -> Ip s ->
                      Ip (set_heap (alter f m (heap s)) s)).
  { intros s f Hc (Hg & Hl & Ha & Hk & Hp & Hkd).
    unfold Ip. cbn [heap set_heap globals].
    split; [exact Hg|]. split; [now rewrite length_alter|].
    split; [eapply agree_trans; [exact Ha | now apply agree_alter]|].
    split; [rewrite hkids_alter_keep; [exact Hk | apply Hc]|].
    split; [rewrite hpar_alter_keep; [exact Hp | apply Hc]|].
    rewrite list_lookup_alter_eq. destruct (heap s !! m) as [nd|]; [|discriminate].
    cbn in *. destruct (Hc nd) as (-> & _). exact Hkd. }
  apply bind_ok in H as ([] & s2 & H2 & H).
  assert (Ip2 : Ip s2).
  { pose proof (set_properties_cosmetic True Ip m Hstable props) as Hp.
    specialize (Hp (set_heap (heap st ++ [new_node (KElement (lower tag))]) s0)).
    rewrite H2 in Hp. apply Hp. unfold Ip. cbn [heap set_heap globals].
    fold m.
    split; [exact Hg0|]. split; [rewrite length_app; cbn; lia|].
    split; [apply agree_app; lia|].
    unfold hkids, hpar. rewrite list_lookup_middle by reflexivity.
    repeat split. }
  destruct Ip2 as (Hg2 & Hl2 & Ha2 & Hk2 & Hp2 & Hkd2).
  apply bind_ok in H as ([] & s3 & H3 & H). cbn in H. injection H as <- <-.
  destruct (append_texts_ok m texts _ _ _ H3 Hk2)
    as (ks & Hk & Htk & Hge & Hag & Hp & Hkd & Hlen & Hg).
  split; [reflexivity|].
  split. { intros y Hy. rewrite Hag by lia. now apply Ha2. }
  split; [congruence|]. split; [congruence|]. split; [congruence|].
  exists ks. split; [exact Hk|]. split; [now rewrite <- Hg2|].
  eapply Forall_impl; [exact Hge|]. cbn. intros k Hk0. lia.
Qed.

(** ** Partial re-render replays the registered descriptor *)

Lemma dispatch_build jrec tag props children :
  builds (tag :: props :: children) = true ->
  dispatch jrec (tag :: props :: children)
  = createElement (eval_expr jrec) tag props children.
Proof.
  unfold builds, dispatch. cbv zeta.
  change ((tag :: props :: children) !! 0) with (Some tag).
  change ((tag :: props :: children) !! 1) with (Some props).
  change (default VUndef (Some tag)) with tag.
  change (default VUndef (Some props)) with props.
  change (drop 2 (tag :: props :: children)) with children.
  intros Hb. apply andb_prop in Hb as [Hb _].
  apply andb_prop in Hb as [Hb H3]. apply andb_prop in Hb as [H1 H2].
  apply negb_true_iff in H1, H2, H3. now rewrite H1, H2, H3.
Qed.

Lemma tag_ok_builds tag props children :
  tag_ok (VStr tag) = true -> builds (VStr tag :: props :: children) = true.
Proof.
  cbn [tag_ok]. intros H. apply negb_true_iff, bool_decide_eq_false in H.
  unfold builds. cbv zeta.
  change ((VStr tag :: props :: children) !! 0) with (Some (VStr tag)).
  change (default VUndef (Some (VStr tag))) with (VStr tag).
  cbn [value_eqb is_function negb andb].
  assert (G : forall t, t ∈ control_tokens -> String.eqb tag t = false).
  { intros t Ht. destruct (String.eqb_spec tag t) as [->|]; [|reflexivity].
    contradiction. }
  rewrite !G; [reflexivity| | |]; unfold control_tokens; set_solver.
Qed.

(** A new node is no ancestor of an old one when the old parents are old. *)
Lemma no_new_ancestor fuel h m x :
  x < m ->
  (forall y nd q, y < m -> h !! y = Some nd -> n_parent nd = Some q -> q < m) ->
  inclusive_ancestor fuel h m x = false.
Proof.
  intros Hx Hcl. revert x Hx. induction fuel as [|f IH]; intros x Hx;
    cbn [inclusive_ancestor];
    (replace (Nat.eqb m x) with false by (symmetry; apply Nat.eqb_neq; lia));
    [reflexivity|].
  cbn [orb]. destruct (h !! x) as [nd|] eqn:E; [|reflexivity].
  destruct (n_parent nd) as [q|] eqn:Eq; [|reflexivity].
  apply IH. eapply Hcl; eassumption.
Qed.

Lemma closed_parents_lookup h y nd q :
  closed_parents h -> h !! y = Some nd -> n_parent nd = Some q -> q < length h.
Proof.
  unfold closed_parents. rewrite Forall_lookup. intros H Hy Hq.
  specialize (H y nd Hy). cbn in H. now rewrite Hq in H.
Qed.

(** ** Render bodies that build anew *)

Lemma node_free_arr l : node_free (VArr l) = forallb node_free l.
Proof.
  cbn [node_free]. induction l as [|x l IH]; [reflexivity|].
  cbn [forallb]. now rewrite IH.
Qed.

Lemma pure_expr_arr es : pure_expr (EArr es) = forallb pure_expr es.
Proof.
  cbn [pure_expr]. induction es as [|x l IH]; [reflexivity|].
  cbn [forallb]. now rewrite IH.
Qed.

Lemma pure_expr_call hd props kids :
  pure_expr (ECall hd props kids)
  = match hd with HTag t => tag_ok (VStr t) | HFun _ => true end
    && forallb pure_expr kids.
Proof.
  cbn [pure_expr]. f_equal.
Qed.

Lemma node_free_child_nodes n v : node_free v = true -> child_nodes_from n v.
Proof.
  induction v as [v Hv|l IH] using value_nested_ind.
  - destruct v; try (intros; exact Logic.I); [|cbn; discriminate].
    exfalso. eapply Hv. reflexivity.
  - rewrite node_free_arr, child_nodes_from_arr. intros H.
    induction IH as [|x l' Hx _ IHl]; [constructor|].
    cbn [forallb] in H. apply andb_prop in H as [H1 H2].
    constructor; [now apply Hx | now apply IHl].
Qed.

Lemma node_free_nodes_of v : node_free v = true -> nodes_of v = [].
Proof.
  destruct v; try reflexivity; [|cbn; discriminate].
  rewrite node_free_arr. cbn [nodes_of]. intros H.
  induction l as [|x l IH]; [reflexivity|].
  cbn [forallb] in H. apply andb_prop in H as [H1 H2].
  unfold top_nodes in *. cbn [omap list_omap]. rewrite IH by exact H2.
  destruct x; try reflexivity. discriminate.
Qed.

Lemma child_nodes_from_le n m v :
  n <= m -> child_nodes_from m v -> child_nodes_from n v.
Proof.
  intros Hnm. induction v as [v Hv|l IH] using value_nested_ind.
  - destruct v; try (intros; exact Logic.I);
      [exfalso; eapply Hv; reflexivity | cbn; lia].
  - rewrite !child_nodes_from_arr. intros H.
    induction IH as [|x l' Hx _ IHl]; [constructor|].
    apply Forall_cons in H as [H1 H2]. constructor; auto.
Qed.

Lemma fresh_value_le n m h v :
  n <= m -> fresh_value m h v -> fresh_value n h v.
Proof.
  intros Hnm (H1 & H2). split; [eapply child_nodes_from_le; eassumption|].
  exact H2.
Qed.

Lemma top_nodes_from n l :
  Forall (child_nodes_from n) l -> Forall (fun r => n <= r) (top_nodes l).
Proof.
  induction 1 as [|x l Hx _ IH]; [constructor|].
  unfold top_nodes in *. cbn [omap list_omap].
  destruct x; try exact IH. constructor; [exact Hx | exact IH].
Qed.

Lemma built_over_refl st : built_over (length (heap st)) st st.
Proof.
  split; [reflexivity|]. split; [apply agree_refl|]. split; [|split; reflexivity].
  intros r nd q Hr Hn _. apply lookup_lt_Some in Hr. lia.
Qed.

Lemma built_over_trans n st0 s1 s2 :
  built_over n st0 s1 -> built_over (length (heap s1)) s1 s2 ->
  built_over n st0 s2.
Proof.
  intros (Hl1 & Ha1 & Hn1 & Hc1 & Hg1) (Hl2 & Ha2 & Hn2 & Hc2 & Hg2).
  split; [lia|]. split.
  { eapply agree_trans; [exact Ha1 | eapply agree_le; [|exact Ha2]; lia]. }
  split; [|split; congruence].
  intros r nd q Hr Hnr Hq.
  destruct (decide (r < length (heap s1))) as [Hlt|Hge].
  - rewrite Ha2 in Hr by exact Hlt. eapply Hn1; eassumption.
  - assert (length (heap s1) <= q) by (eapply Hn2; [eassumption | lia | assumption]).
    lia.
Qed.

Section PureStep.

Variable jrec : list value -> M value.
Hypothesis Hcall : call_spec jrec.

(** The specification of one evaluation. *)
Let eval_spec (e : expr) : Prop :=
  forall n st0 st v st',
    pure_expr e = true -> built_over n st0 st ->
    eval_expr jrec e st = Ok v st' ->
    built_over n st0 st' /\ length (heap st) <= length (heap st') /\
    fresh_value (length (heap st)) (heap st') v.

Lemma eval_list_pure es :
  Forall eval_spec es ->
  forall n st0 st vs st',
    forallb pure_expr es = true -> built_over n st0 st ->
    eval_list (eval_expr jrec) es st = Ok vs st' ->
    built_over n st0 st' /\ length (heap st) <= length (heap st') /\
    Forall (child_nodes_from (length (heap st))) vs /\
    Forall (fun r => hpar (heap st') r = Some None) (top_nodes vs) /\
    NoDup (top_nodes vs).
Proof.
  induction 1 as [|x r Hx _ IH]; intros n st0 st vs st' Hp HB H.
  - cbn in H. injection H as <- <-.
    split; [exact HB|]. split; [reflexivity|].
    repeat split; constructor.
  - cbn [eval_list] in H. cbn [forallb] in Hp.
    apply andb_prop in Hp as [Hp1 Hp2].
    apply bind_ok in H as (v & s1 & H1 & H).
    apply bind_ok in H as (vs' & s2 & H2 & H). cbn in H.
    injection H as <- <-.
    destruct (Hx n st0 st v s1 Hp1 HB H1) as (HB1 & Hl1 & Hc1 & Hd1 & Hnd1).
    destruct (IH n st0 s1 vs' s2 Hp2 HB1 H2) as (HB2 & Hl2 & Hc2 & Hd2 & Hnd2).
    destruct (IH _ s1 s1 vs' s2 Hp2 (built_over_refl s1) H2)
      as ((_ & Hag & _) & _).
    split; [exact HB2|]. split; [lia|]. split.
    { constructor; [exact Hc1|]. eapply Forall_impl; [exact Hc2|].
      intros y. apply child_nodes_from_le. exact Hl1. }
    pose proof (top_nodes_from _ _ Hc2) as Hfrom.
    unfold top_nodes in *. cbn [omap list_omap].
    destruct v; try (split; assumption).
    cbn [nodes_of] in Hd1, Hnd1. apply Forall_cons in Hd1 as [Hd1 _].
    assert (Hr : r0 < length (heap s1)) by (eapply hpar_lt, Hd1).
    split.
    + constructor; [|exact Hd2]. rewrite (agree_hpar _ _ _ _ Hag Hr). exact Hd1.
    + constructor; [|exact Hnd2]. intros Hin.
      rewrite Forall_forall in Hfrom. specialize (Hfrom _ Hin). lia.
Qed.

Lemma eval_pure e : eval_spec e.
Proof.
  induction e as [lit|es IH|hd props kids IH] using expr_nested_ind;
    intros n st0 st v st' Hp HB H.
  - cbn in H. injection H as <- <-. cbn [pure_expr] in Hp.
    split; [exact HB|]. split; [reflexivity|]. split.
    + now apply node_free_child_nodes.
    + rewrite node_free_nodes_of by exact Hp. split; constructor.
  - rewrite eval_expr_arr in H. rewrite pure_expr_arr in Hp.
    apply bind_ok in H as (vs & s1 & H1 & H). cbn in H. injection H as <- <-.
    destruct (eval_list_pure es IH n st0 st vs s1 Hp HB H1)
      as (HB1 & Hl & Hc & Hd & Hnd).
    split; [exact HB1|]. split; [exact Hl|]. split.
    + now apply child_nodes_from_arr.
    + split; assumption.
  - rewrite eval_expr_call in H. rewrite pure_expr_call in Hp.
    apply andb_prop in Hp as [Hhd Hp].
    apply bind_ok in H as (vs & s1 & H1 & H).
    destruct (eval_list_pure kids IH n st0 st vs s1 Hp HB H1)
      as (HB1 & Hl & Hc & _).
    assert (Hn : n <= length (heap st)) by apply HB.
    destruct (Hcall hd props vs n st0 s1 v st') as (HB2 & Hl2 & Hf); auto.
    + destruct hd; [exact Hhd | exact Logic.I].
    + eapply Forall_impl; [exact Hc|]. intros y.
      now apply child_nodes_from_le.
    + split; [exact HB2|]. split; [lia|].
      eapply fresh_value_le; [|exact Hf]. exact Hl.
Qed.

End PureStep.

(** A call of [j] with no control token as its first argument, made while
    every component renders anew, works on new nodes only. *)
Lemma j_call_spec (fuel : nat) :
  (forall c props, pure_expr (render_of c props) = true) ->
  call_spec (j fuel).
Proof.
  intros Hpure. induction fuel as [|f IH];
    intros hd props vs n st0 st v st' Hhd Hvs HB H; [discriminate|].
  cbn [j] in H. destruct hd as [t|fn]; cbn [head_value] in H.
  - rewrite dispatch_build in H by now apply tag_ok_builds.
    pose proof (createElement_builds (eval_expr (j f)) (VStr t) props vs
                  n st0 (length (heap st)) eq_refl Hvs st
                  (conj HB eq_refl)) as Hb.
    rewrite H in Hb. destruct Hb as (-> & (HB' & Hn & Hp) & Hlt).
    split; [exact HB'|]. split; [lia|]. split; [cbn; lia|].
    cbn [nodes_of]. split; repeat constructor; [exact Hp | set_solver].
  - change (dispatch (j f) (VFun fn :: props :: vs))
      with (instantiate_and_render (eval_expr (j f)) fn props) in H.
    cbn [instantiate_and_render] in H.
    destruct fn as [c|k]; [|discriminate].
    eapply (eval_pure (j f) IH); [apply Hpure | exact HB | exact H].
Qed.

(** ** The pieces of a render pass *)

Lemma renderComponent_pure fuel comp st v st' :
  (forall c props, pure_expr (render_of c props) = true) ->
  renderComponent (j fuel) comp st = Ok v st' ->
  built_over (length (heap st)) st st' /\
  length (heap st) <= length (heap st') /\
  fresh_value (length (heap st)) (heap st') v.
Proof.
  intros Hpure H. destruct comp; try discriminate.
  destruct f as [c|k]; [|discriminate]. cbn in H.
  eapply (eval_pure (j fuel) (j_call_spec fuel Hpure));
    [apply Hpure | apply built_over_refl | exact H].
Qed.

Lemma alter_new (f : dnode -> dnode) (h : list dnode) (nd : dnode) :
  alter f (length h) (h ++ [nd]) = h ++ [f nd].
Proof.
  replace (length h) with (length h + 0) at 1 by lia.
  rewrite alter_app_r. reflexivity.
Qed.

(** The two elements [renderApp] builds itself. *)
Lemma root_div_ok fuel st v st' :
  j fuel [VStr "div"; VObj [("id", VStr "app")]] st = Ok v st' ->
  v = VNode (length (heap st)) /\
  heap st' = heap st ++ [DNode (KElement "div") [("id", "app")] [] [] [] None] /\
  config st' = config st.
Proof.
  destruct fuel as [|f]; [discriminate|]. cbn [j].
  rewrite dispatch_build by reflexivity.
  unfold createElement, bind, register_template, document_createElement.
  cbn. unfold registry_get.
  destruct (registry st !! KStr "app"); cbn;
    (destruct (valid_tag "div"); [|discriminate]); cbn;
    unfold setAttribute; cbn;
    (destruct (valid_attr "id"); [|discriminate]); cbn;
    intros [= <- <-]; cbn; rewrite alter_new; repeat split.
Qed.

Lemma main_div_ok fuel st v st' :
  j fuel [VStr "div"; VObj [("class", VStr "main-content")]] st = Ok v st' ->
  v = VNode (length (heap st)) /\
  st' = set_heap (heap st ++ [DNode (KElement "div")
                                [("class", "main-content")] [] [] [] None]) st.
Proof.
  destruct fuel as [|f]; [discriminate|]. cbn [j].
  rewrite dispatch_build by reflexivity.
  unfold createElement, bind, register_template, document_createElement.
  cbn. destruct (valid_tag "div"); [|discriminate]. cbn.
  unfold setAttribute. cbn.
  destruct (valid_attr "class"); [|discriminate]. cbn.
  intros [= <- <-]. cbn. rewrite alter_new. destruct st; repeat split.
Qed.

Lemma first_some_Some {A B} (f : A -> option B) (l : list A) (y : B) :
  first_some f l = Some y -> exists k, k ∈ l /\ f k = Some y.
Proof.
  induction l as [|x l IH]; [discriminate|]. cbn [first_some].
  destruct (f x) as [y'|] eqn:E.
  - intros [= <-]. exists x. split; [left | exact E].
  - intros H. destruct (IH H) as (k & Hk & Hf). exists k. split; [now right|].
    exact Hf.
Qed.

Lemma find_by_id_valid fuel h id r x :
  find_by_id fuel h id r = Some x -> x < length h.
Proof.
  revert r. induction fuel as [|f IH]; intros r; [discriminate|].
  cbn [find_by_id]. destruct (h !! r) as [nd|] eqn:E; [|discriminate].
  destruct (_ && _).
  - intros [= <-]. eapply lookup_lt_Some, E.
  - intros H. apply first_some_Some in H as (k & _ & Hk). eapply IH, Hk.
Qed.

Lemma live_node_valid st id x : live_node st id = Some x -> x < length (heap st).
Proof.
  unfold live_node. destruct (String.eqb id ""); [discriminate|].
  apply find_by_id_valid.
Qed.

(** *** Style injection *)

Section Kept.

Variable F : Prop.
Variable n : nat.
Variable s0 : state.

Lemma parents_kept_alter f r s :
  (forall nd, n_parent (f nd) = n_parent nd) ->
  parents_kept n s0 s -> parents_kept n s0 (set_heap (alter f r (heap s)) s).
Proof.
  intros Hf (Hl & Hp & Hc). split; [|split]; cbn [heap set_heap config].
  - now rewrite length_alter.
  - intros x Hx. rewrite hpar_alter_keep by exact Hf. now apply Hp.
  - exact Hc.
Qed.

Lemma parents_kept_alloc k s :
  parents_kept n s0 s -> parents_kept n s0 (set_heap (heap s ++ [new_node k]) s).
Proof.
  intros (Hl & Hp & Hc). split; [|split]; cbn [heap set_heap config].
  - rewrite length_app. lia.
  - intros x Hx. rewrite <- Hp by exact Hx. unfold hpar.
    rewrite lookup_app_l by lia. reflexivity.
  - exact Hc.
Qed.

Lemma parents_kept_appendChild parent c :
  n <= c -> preserves F (parents_kept n s0) (appendChild parent (VNode c)).
Proof.
  intros Hc s HK.
  destruct (appendChild parent (VNode c) s) as [[] s'|e s'|] eqn:E.
  - apply appendChild_ok in E as (-> & _ & _ & _).
    destruct HK as (Hl & Hp & Hcf). split; [|split]; cbn [heap set_heap config].
    + now rewrite !length_alter, length_detach.
    + intros x Hx. rewrite hpar_alter, decide_False by lia.
      rewrite hpar_alter_keep by reflexivity.
      rewrite hpar_detach_other by lia. now apply Hp.
    + exact Hcf.
  - apply appendChild_throw in E as ->. exact HK.
  - exfalso. eapply appendChild_total, E.
Qed.

Lemma set_reflected_kept el name v :
  preserves F (parents_kept n s0) (set_reflected el name v).
Proof.
  unfold set_reflected. destruct (to_string v); [|apply preserves_throw].
  apply hoare_modify. intros st. now apply parents_kept_alter.
Qed.

Lemma addStyle_kept url : preserves F (parents_kept n s0) (addStyle url).
Proof.
  unfold addStyle. apply preserves_bind; [apply loaded_preserves|].
  intros has. destruct has; [apply preserves_ret|].
  eapply hoare_bind
    with (Q := fun link s => parents_kept n s0 s /\ n <= link).
  { intros s HK. unfold document_createElement.
    destruct (to_string (VStr "link")) as [name|]; [|exact HK].
    destruct (valid_tag name); [|exact HK]. cbn.
    split; [now apply parents_kept_alloc | apply HK]. }
  intros link. apply hoare_assume. intros Hlink.
  apply preserves_bind; [apply set_reflected_kept|]. intros _.
  apply preserves_bind; [apply set_reflected_kept|]. intros _.
  apply preserves_bind; [apply head_or_throw_preserves|]. intros head.
  apply preserves_bind; [now apply parents_kept_appendChild|]. intros _.
  apply hoare_modify. intros s HK. exact HK.
Qed.

End Kept.

Lemma preserves_ok {A} F (I : state -> Prop) (m : M A) s a s' :
  preserves F I m -> I s -> m s = Ok a s' -> I s'.
Proof. intros H HI E. specialize (H s HI). now rewrite E in H. Qed.

Lemma length_unparent (l : list nat) (h : list dnode) :
  length (foldr (fun k acc => alter (with_parent None) k acc) h l) = length h.
Proof. induction l as [|k l IH]; cbn [foldr]; [|rewrite length_alter]; auto. Qed.

Lemma hpar_unparent (l : list nat) (h : list dnode) (x : nat) :
  hpar h x = Some None ->
  hpar (foldr (fun k acc => alter (with_parent None) k acc) h l) x = Some None.
Proof.
  intros Hx. induction l as [|k l IH]; cbn [foldr]; [exact Hx|].
  rewrite hpar_alter. destruct (decide (k = x)) as [->|]; [|exact IH].
  unfold hpar in IH.
  destruct (foldr _ h l !! x); [reflexivity | discriminate].
Qed.

(** Clearing the mount container: it has no children afterwards, and a
    node without a parent still has none. *)
Lemma clear_children_ok el s :
  exists s',
    clear_children el s = Ok tt s' /\
    length (heap s') = length (heap s) /\ config s' = config s /\
    (el < length (heap s) -> hkids (heap s') el = Some []) /\
    (forall x, hpar (heap s) x = Some None -> hpar (heap s') x = Some None).
Proof.
  unfold clear_children, modify. eexists. split; [reflexivity|].
  cbv zeta. destruct (heap s !! el) as [nd|] eqn:E; cbn [heap set_heap config].
  - split; [now rewrite length_alter, length_unparent|].
    split; [reflexivity|]. split.
    + intros _. rewrite hkids_alter, decide_True by reflexivity.
      destruct (lookup_lt_is_Some_2
                  (foldr (fun k acc => alter (with_parent None) k acc)
                         (heap s) (n_kids nd)) el) as [nd' ->];
        [|reflexivity].
      rewrite length_unparent. eapply lookup_lt_Some, E.
    + intros x Hx. rewrite hpar_alter_keep by reflexivity.
      now apply hpar_unparent.
  - split; [reflexivity|]. split; [reflexivity|]. split; [|auto].
    intros Hlt. apply lookup_ge_None in E. lia.
Qed.

(** *** Appending rendered nodes *)

Lemma hkids_lt h x ks : hkids h x = Some ks -> x < length h.
Proof.
  unfold hkids. destruct (h !! x) eqn:E; [|discriminate].
  intros _. eapply lookup_lt_Some, E.
Qed.

Lemma appendChild_ok_node parent v s s' :
  appendChild parent v s = Ok tt s' -> exists c, v = VNode c.
Proof. destruct v; try discriminate. eauto. Qed.

(** Appending a node that has no parent. *)
Lemma appendChild_detached parent c s s' :
  appendChild parent (VNode c) s = Ok tt s' ->
  hpar (heap s) c = Some None ->
  s' = set_heap (alter (with_parent (Some parent)) c
                   (alter (with_kids (fun l => l ++ [c])) parent (heap s))) s /\
  c <> parent /\ parent < length (heap s) /\ c < length (heap s).
Proof.
  intros H Hc. apply appendChild_ok in H as (-> & Hne & [pn Hp] & [cn Hcn]).
  rewrite detach_free by exact Hc.
  repeat split; [exact Hne | |]; eapply lookup_lt_Some; eassumption.
Qed.

(** Rendering components one after the other and appending each output
    to [root]: [root] gains one new node per component, in order; every
    other node that was there is untouched. *)
Lemma render_loop fuel root comps :
  (forall c props, pure_expr (render_of c props) = true) ->
  forall s s' ks,
    forEach (fun C => let! h := renderComponent (j fuel) C in
                      appendChild root h) comps s = Ok tt s' ->
    hkids (heap s) root = Some ks ->
    exists new,
      hkids (heap s') root = Some (ks ++ new) /\
      length new = length comps /\
      Forall (fun h => length (heap s) <= h /\
                       hpar (heap s') h = Some (Some root)) new /\
      NoDup new /\
      (forall y, y < length (heap s) -> y <> root ->
                 heap s' !! y = heap s !! y) /\
      hpar (heap s') root = hpar (heap s) root /\
      length (heap s) <= length (heap s') /\
      config s' = config s /\
      render_trace (j fuel) root comps new s s'.
Proof.
  intros Hpure. induction comps as [|C comps IH]; intros s s' ks H Hk.
  - cbn in H. injection H as <-. exists []. rewrite app_nil_r.
    split; [exact Hk|]. split; [reflexivity|]. split; [constructor|].
    split; [constructor|]. repeat split; auto using render_trace_nil.
  - apply forEach_cons_ok in H as (s2 & H1 & H).
    apply bind_ok in H1 as (hv & s1 & Hr & Ha).
    destruct (appendChild_ok_node _ _ _ _ Ha) as (h & ->).
    destruct (renderComponent_pure _ _ _ _ _ Hpure Hr)
      as ((_ & Hag & _ & Hcf & _) & Hlen & Hge & Hdet & _).
    cbn [child_nodes_from] in Hge. cbn [nodes_of] in Hdet.
    apply Forall_cons in Hdet as [Hdet _].
    pose proof Ha as Ha0.
    apply appendChild_detached in Ha as (-> & Hne & Hroot1 & Hh1);
      [|exact Hdet].
    assert (Hroot : root < length (heap s)) by (eapply hkids_lt, Hk).
    set (h2 := alter (with_parent (Some root)) h
                 (alter (with_kids (fun l => l ++ [h])) root (heap s1))) in *.
    assert (Hk2 : hkids h2 root = Some ((ks ++ [h]))).
    { unfold h2. rewrite hkids_alter_keep by reflexivity.
      rewrite hkids_alter, decide_True by reflexivity.
      rewrite Hag by exact Hroot. unfold hkids in Hk.
      destruct (heap s !! root); simplify_eq/=. reflexivity. }
    assert (Hlen2 : length h2 = length (heap s1))
      by (unfold h2; now rewrite !length_alter).
    assert (Hold : forall y, y < length (heap s) -> y <> root ->
                             h2 !! y = heap s !! y).
    { intros y Hy Hyr. unfold h2. rewrite !list_lookup_alter_ne by lia.
      now apply Hag. }
    assert (Hh2 : hpar h2 h = Some (Some root)).
    { unfold h2. rewrite hpar_alter, decide_True by reflexivity.
      rewrite list_lookup_alter_ne by congruence.
      unfold hpar in Hdet. destruct (heap s1 !! h); [reflexivity|discriminate]. }
    assert (Hr2 : hpar h2 root = hpar (heap s) root).
    { unfold h2. rewrite hpar_alter, decide_False by congruence.
      rewrite hpar_alter_keep by reflexivity.
      now apply (agree_hpar _ _ _ _ Hag). }
    destruct (IH _ _ _ H Hk2)
      as (new & Hk' & Hln & Hnew & Hnd & Hag' & Hr' & Hlen' & Hcf' & Hren).
    cbn [heap set_heap config] in *.
    exists (h :: new). rewrite <- app_assoc in Hk'.
    split; [exact Hk'|]. split; [cbn; now rewrite Hln|].
    split.
    { constructor.
      - split; [exact Hge|]. unfold hpar. rewrite Hag' by lia. exact Hh2.
      - eapply Forall_impl; [exact Hnew|]. cbn. intros x [Hx1 Hx2].
        split; [lia | exact Hx2]. }
    split.
    { constructor; [|exact Hnd]. intros Hin.
      rewrite Forall_forall in Hnew. destruct (Hnew _ Hin) as [Hx _]. lia. }
    split. { intros y Hy Hyr. rewrite Hag' by lia. now apply Hold. }
    split; [congruence|]. split; [lia|]. split; [congruence|].
    eapply render_trace_cons; [exact Hr | exact Ha0 | exact Hren|].
    cbn [heap set_heap]. intros y Hy1 Hy2. apply Hag'; lia.
Qed.

(** Appending the rendered output of the body to the wrapper. *)
Lemma content_loop main l :
  forall s s' ks,
    forEach (fun element => appendChild main element) l s = Ok tt s' ->
    hkids (heap s) main = Some ks ->
    Forall (fun r => hpar (heap s) r = Some None) (top_nodes l) ->
    NoDup (top_nodes l) ->
    l = VNode <$> top_nodes l /\
    hkids (heap s') main = Some (ks ++ top_nodes l) /\
    (forall y, y <> main -> y ∉ top_nodes l -> heap s' !! y = heap s !! y) /\
    hpar (heap s') main = hpar (heap s) main /\
    hface (heap s') main = hface (heap s) main /\
    Forall (fun r => hpar (heap s') r = Some (Some main)) (top_nodes l) /\
    length (heap s') = length (heap s) /\ config s' = config s.
Proof.
  induction l as [|v l IH]; intros s s' ks H Hk Hdet Hnd.
  - cbn in H. injection H as <-. cbn. rewrite app_nil_r.
    repeat split; auto.
  - apply forEach_cons_ok in H as (s1 & Ha & H).
    destruct (appendChild_ok_node _ _ _ _ Ha) as (c & ->).
    change (top_nodes (VNode c :: l)) with (c :: top_nodes l) in *.
    apply Forall_cons in Hdet as [Hc Hdet]. apply NoDup_cons in Hnd as [Hnin Hnd].
    apply appendChild_detached in Ha as (-> & Hne & Hm & Hclt); [|exact Hc].
    set (h1 := alter (with_parent (Some main)) c
                 (alter (with_kids (fun l => l ++ [c])) main (heap s))) in *.
    assert (Hk1 : hkids h1 main = Some (ks ++ [c])).
    { unfold h1. rewrite hkids_alter_keep by reflexivity.
      rewrite hkids_alter, decide_True by reflexivity.
      unfold hkids in Hk. destruct (heap s !! main); simplify_eq/=.
      reflexivity. }
    assert (Hdet1 : Forall (fun r => hpar h1 r = Some None) (top_nodes l)).
    { rewrite Forall_forall in Hdet |- *. intros r Hr. unfold h1.
      rewrite hpar_alter, decide_False by (intros ->; contradiction).
      rewrite hpar_alter_keep by reflexivity. now apply Hdet. }
    destruct (IH _ _ _ H Hk1 Hdet1 Hnd)
      as (Hl & Hk' & Hag & Hp & Hfc & Hpar & Hlen & Hcf).
    cbn [heap set_heap config] in *.
    split; [cbn [fmap list_fmap]; now rewrite <- Hl|].
    rewrite <- app_assoc in Hk'. split; [exact Hk'|].
    split.
    { intros y Hym Hyn. apply not_elem_of_cons in Hyn as [Hyc Hyn].
      rewrite Hag by assumption. unfold h1.
      now rewrite !list_lookup_alter_ne by congruence. }
    split.
    { rewrite Hp. unfold h1. rewrite hpar_alter, decide_False by exact Hne.
      now rewrite hpar_alter_keep. }
    split.
    { rewrite Hfc. unfold h1. now rewrite !hface_alter_keep. }
    split.
    { constructor; [|exact Hpar]. unfold hpar. rewrite Hag by assumption.
      fold (hpar h1 c). unfold h1.
      rewrite hpar_alter, decide_True by reflexivity.
      rewrite list_lookup_alter_ne by congruence.
      destruct (lookup_lt_is_Some_2 (heap s) c Hclt) as [nd ->]. reflexivity. }
    split; [|exact Hcf]. rewrite Hlen. unfold h1. now rewrite !length_alter.
Qed.

(** The global lists depend on the configuration only. *)
Lemma getGlobalHeaders_eq route s :
  getGlobalHeaders route s
  = match global_list (config s) "headers" route with
    | Some v => Ok v s
    | None => Throw "TypeError" s
    end.
Proof.
  unfold getGlobalHeaders, shouldHaveGlobal, bind, config_field, global_list,
    applies_global.
  destruct (default VUndef (obj_get (config s) "global")) as
      [| | | | | | | o | | |] eqn:Eg; try reflexivity.
  cbn. destruct (default VUndef (obj_get o "pages")) as [| | | |str| |l| | | |];
    try reflexivity; cbn.
  - destruct (is_substring "*" str); cbn;
      [|destruct (is_substring route str); cbn]; rewrite ?Eg; reflexivity.
  - destruct (existsb _ l); cbn; [|destruct (existsb _ l); cbn];
      rewrite ?Eg; reflexivity.
Qed.

Lemma getGlobalFooters_eq route s :
  getGlobalFooters route s
  = match global_list (config s) "footers" route with
    | Some v => Ok v s
    | None => Throw "TypeError" s
    end.
Proof.
  unfold getGlobalFooters, shouldHaveGlobal, bind, config_field, global_list,
    applies_global.
  destruct (default VUndef (obj_get (config s) "global")) as
      [| | | | | | | o | | |] eqn:Eg; try reflexivity.
  cbn. destruct (default VUndef (obj_get o "pages")) as [| | | |str| |l| | | |];
    try reflexivity; cbn.
  - destruct (is_substring "*" str); cbn;
      [|destruct (is_substring route str); cbn]; rewrite ?Eg; reflexivity.
  - destruct (existsb _ l); cbn; [|destruct (existsb _ l); cbn];
      rewrite ?Eg; reflexivity.
Qed.

(** *** Mounting *)

Lemma getElementById_string (id : string) (st : state) :
  getElementById (VStr id) st = Ok (live_node st id) st.
Proof. reflexivity. Qed.

Lemma mount_container_ok fuel st root s :
  mount_container (j fuel) st = Ok root s ->
  (live_node st "app" = Some root \/
   live_node st "app" = None /\ root = length (heap st)) /\
  root < length (heap s) /\ config s = config st.
Proof.
  unfold mount_container. intros H.
  apply bind_ok in H as (found & s0 & Hf & H).
  rewrite getElementById_string in Hf. injection Hf as <- <-.
  destruct (live_node st "app") as [r|] eqn:E.
  - cbn in H. injection H as <- <-.
    split; [now left|]. split; [now apply (live_node_valid st "app")|reflexivity].
  - apply bind_ok in H as (v & s1 & Hd & H).
    apply root_div_ok in Hd as (-> & Hh & Hc).
    apply bind_ok in H as (body & s2 & Hb & H).
    unfold body_or_throw in Hb.
    destruct (document_body (heap s1)); [|discriminate].
    injection Hb as <- <-.
    apply bind_ok in H as ([] & s3 & Ha & H). cbn in H. injection H as <- <-.
    apply appendChild_ok in Ha as (-> & _ & _ & _).
    split; [now right|]. cbn [heap set_heap config].
    split; [|exact Hc].
    rewrite !length_alter, length_detach, Hh, length_app. cbn. lia.
Qed.

(** *** Style injection during a render pass *)

Lemma render_styles_kept n s0 :
  preserves True (parents_kept n s0)
    (let! has := loaded (VStr "defaultstyles.css") in
     (if has then ret tt else addDefaultStyles) ;;
     let! style := config_field "style" in
     (if truthy style then
        let! has := loaded style in
        if has then ret tt else addStyle style
      else ret tt) ;;
     let! styles := config_field "styles" in
     (if truthy styles then
        forEach_value (fun url =>
                         let! has := loaded url in
                         if has then ret tt else addStyle url) styles
      else ret tt)).
Proof.
  pose proof (addStyle_kept True n s0) as Hs.
  unfold addDefaultStyles. pres; apply Hs.
Qed.

(** *** Filling the mount container *)

Lemma nodes_of_from n v :
  child_nodes_from n v -> Forall (fun r => n <= r) (nodes_of v).
Proof.
  intros H. destruct v; try constructor.
  - apply child_nodes_from_arr in H. now apply top_nodes_from.
  - exact H.
  - constructor.
Qed.

Lemma forEach_value_ok (f : value -> M unit) (a : value) s s' :
  forEach_value f a s = Ok tt s' ->
  exists l, a = VArr l /\ forEach f l s = Ok tt s'.
Proof. destruct a; try discriminate. eauto. Qed.

Lemma append_content_ok main content s s' :
  (match content with
   | VArr l => forEach (fun element => appendChild main element) l
   | _ => appendChild main content
   end) s = Ok tt s' ->
  exists l, forEach (fun element => appendChild main element) l s = Ok tt s' /\
            nodes_of content = top_nodes l.
Proof.
  intros H. destruct content;
    try (destruct (appendChild_ok_node _ _ _ _ H) as (c & [=]); fail).
  - exists l. split; [exact H | reflexivity].
  - exists [VNode r]. split; [|reflexivity].
    cbn [forEach]. unfold bind. rewrite H. reflexivity.
Qed.

Lemma fill_container_ok fuel root route f st v st' :
  (forall c props, pure_expr (render_of c props) = true) ->
  root < length (heap st) ->
  fill_container (j fuel) root route (VFun f) st = Ok v st' ->
  exists main hs fs headers footers content,
    global_list (config st) "headers" route = Some (VArr headers) /\
    global_list (config st) "footers" route = Some (VArr footers) /\
    (exists sb, renderComponent (j fuel) (VFun f) st = Ok content sb) /\
    hkids (heap st') root = Some (hs ++ [main] ++ fs) /\
    length hs = length headers /\ length fs = length footers /\
    NoDup (hs ++ [main] ++ fs) /\
    (exists sh sh' sf,
       render_trace (j fuel) root headers hs sh sh' /\
       render_trace (j fuel) root footers fs sf st' /\
       hkids (heap sh) root = Some [] /\
       hkids (heap sh') root = Some hs /\
       hkids (heap sf) root = Some (hs ++ [main]) /\
       Forall (fun h => length (heap sh) <= h /\ h < length (heap sh')) hs /\
       Forall (fun h => length (heap sf) <= h /\ h < length (heap st')) fs /\
       (forall y, length (heap sh) <= y -> y < length (heap sh') ->
                  heap st' !! y = heap sh' !! y)) /\
    hface (heap st') main = Some (KElement "div", [("class", "main-content")]) /\
    hkids (heap st') main = Some (nodes_of content) /\
    hpar (heap st') main = Some (Some root) /\
    Forall (fun c => hpar (heap st') c = Some (Some main)) (nodes_of content).
Proof.
  intros Hpure Hroot H. unfold fill_container in H. cbn [truthy] in H.
  (* the body component *)
  apply bind_ok in H as (content & s4 & Hcontent & H).
  destruct (renderComponent_pure _ _ _ _ _ Hpure Hcontent)
    as ((_ & Hag4 & _ & Hcf4 & _) & Hlen4 & Hfrom & Hdet4 & Hnd).
  (* style sheets *)
  assert (Hst : exists s5, parents_kept (length (heap s4)) s4 s5 /\
            (clear_children root ;;
             let! mainv := j fuel [VStr "div"; VObj [("class", VStr "main-content")]] in
             let! headers := getGlobalHeaders route in
             forEach_value (fun HeaderClass =>
                              let! header := renderComponent (j fuel) HeaderClass in
                              appendChild root header) headers ;;
             let! main := node_or_throw mainv in
             (match content with
              | VArr l => forEach (fun element => appendChild main element) l
              | _ => appendChild main content
              end) ;;
             appendChild root mainv ;;
             let! footers := getGlobalFooters route in
             forEach_value (fun FooterClass =>
                              let! footer := renderComponent (j fuel) FooterClass in
                              appendChild root footer) footers ;;
             ret VUndef) s5 = Ok v st').
  { apply bind_ok in H as (has & sa & H1 & H).
    apply bind_ok in H as ([] & sb & H2 & H).
    apply bind_ok in H as (style & sc & H3 & H).
    apply bind_ok in H as ([] & sd & H4 & H).
    apply bind_ok in H as (styles & se & H5 & H).
    apply bind_ok in H as ([] & s5 & H6 & H).
    exists s5. split; [|exact H].
    pose proof (render_styles_kept (length (heap s4)) s4 s4) as Hk.
    unfold bind in Hk at 1. rewrite H1 in Hk.
    unfold bind in Hk at 1. rewrite H2 in Hk.
    unfold bind in Hk at 1. rewrite H3 in Hk.
    unfold bind in Hk at 1. rewrite H4 in Hk.
    unfold bind in Hk at 1. rewrite H5, H6 in Hk.
    apply Hk. split; [lia|]. split; [reflexivity|reflexivity]. }
  clear H. destruct Hst as (s5 & (Hlen5 & Hp5 & Hcf5) & H).
  set (cs := nodes_of content) in *.
  assert (Hcs : Forall (fun c => length (heap st) <= c) cs)
    by (apply nodes_of_from, Hfrom).
  assert (Hcs4 : Forall (fun c => c < length (heap s4)) cs).
  { eapply Forall_impl; [exact Hdet4|]. intros c Hc. eapply hpar_lt, Hc. }
  assert (Hdet5 : Forall (fun c => hpar (heap s5) c = Some None) cs).
  { rewrite Forall_forall in Hdet4, Hcs4 |- *. intros c Hc.
    rewrite Hp5 by now apply Hcs4. now apply Hdet4. }
  (* clearing *)
  apply bind_ok in H as ([] & s6 & Hclear & H).
  destruct (clear_children_ok root s5) as (s6' & Hc' & Hlen6 & Hcf6 & Hk6 & Hdet6).
  rewrite Hclear in Hc'. injection Hc' as <-.
  specialize (Hk6 ltac:(lia)).
  (* the wrapper *)
  apply bind_ok in H as (mainv & s7 & Hmain & H).
  apply main_div_ok in Hmain as (-> & ->).
  set (m := length (heap s6)) in *.
  set (wrapper := DNode (KElement "div") [("class", "main-content")] [] [] [] None)
    in *.
  assert (Hold7 : forall y, y < m ->
            set_heap (heap s6 ++ [wrapper]) s6
              = set_heap (heap s6 ++ [wrapper]) s6 /\
            (heap s6 ++ [wrapper]) !! y = heap s6 !! y).
  { intros y Hy. split; [reflexivity|]. apply lookup_app_l. exact Hy. }
  assert (Hm7 : (heap s6 ++ [wrapper]) !! m = Some wrapper)
    by (apply list_lookup_middle; reflexivity).
  (* the headers *)
  apply bind_ok in H as (hv & s7' & Hh & H).
  rewrite getGlobalHeaders_eq in Hh. cbn [config set_heap] in Hh.
  destruct (global_list (config s6) "headers" route) as [hv'|] eqn:Eh;
    [|discriminate]. injection Hh as <- <-.
  apply bind_ok in H as ([] & s8 & Hloop & H).
  apply forEach_value_ok in Hloop as (headers & -> & Hloop).
  destruct (render_loop fuel root headers Hpure _ _ [] Hloop)
    as (hs & Hk8 & Hlhs & Hhs & Hndhs & Hag8 & _ & Hlen8 & Hcf8 & Hrhs).
  { cbn [heap set_heap]. unfold hkids.
    rewrite (proj2 (Hold7 root ltac:(lia))). exact Hk6. }
  cbn [heap set_heap config app] in Hk8, Hhs, Hag8, Hlen8, Hcf8.
  rewrite length_app in Hhs, Hag8, Hlen8. cbn [length] in Hhs, Hag8, Hlen8.
  fold m in Hhs, Hag8, Hlen8.
  (* the body output goes into the wrapper *)
  apply bind_ok in H as (main & s8' & Hn & H). cbn in Hn.
  injection Hn as <- <-.
  apply bind_ok in H as ([] & s9 & Happ & H).
  apply append_content_ok in Happ as (l & Happ & Hl). fold cs in Hl.
  assert (Hm8 : heap s8 !! m = Some wrapper)
    by (rewrite Hag8 by lia; exact Hm7).
  assert (Hdet8 : Forall (fun c => hpar (heap s8) c = Some None) cs).
  { rewrite Forall_forall in Hdet5, Hcs4, Hcs |- *. intros c Hc.
    specialize (Hcs4 c Hc). specialize (Hcs c Hc).
    unfold hpar. rewrite Hag8 by lia.
    rewrite (proj2 (Hold7 c ltac:(lia))). apply Hdet6. now apply Hdet5. }
  destruct (content_loop m l _ _ [] Happ)
    as (_ & Hk9 & Hag9 & Hp9 & Hf9 & Hpar9 & Hlen9 & Hcf9).
  { unfold hkids. now rewrite Hm8. }
  { now rewrite <- Hl. }
  { now rewrite <- Hl. }
  rewrite <- Hl in Hk9, Hag9, Hpar9. cbn [app] in Hk9.
  assert (Hrootcs : root ∉ cs).
  { intros Hin. rewrite Forall_forall in Hcs. specialize (Hcs _ Hin). lia. }
  assert (Hkr9 : hkids (heap s9) root = Some hs).
  { unfold hkids. rewrite Hag9 by (lia || assumption). exact Hk8. }
  (* the wrapper goes into the container *)
  apply bind_ok in H as ([] & s10 & Ha & H).
  assert (Hpm9 : hpar (heap s9) m = Some None).
  { rewrite Hp9. unfold hpar. now rewrite Hm8. }
  apply appendChild_detached in Ha as (-> & Hne & _ & _); [|exact Hpm9].
  set (h10 := alter (with_parent (Some root)) m
                (alter (with_kids (fun l => l ++ [m])) root (heap s9))) in *.
  assert (Hkr10 : hkids h10 root = Some (hs ++ [m])).
  { unfold h10. rewrite hkids_alter_keep by reflexivity.
    rewrite hkids_alter, decide_True by reflexivity.
    unfold hkids in Hkr9. destruct (heap s9 !! root); simplify_eq/=.
    reflexivity. }
  assert (Hlen10 : length h10 = length (heap s8))
    by (unfold h10; now rewrite !length_alter, Hlen9).
  (* the footers *)
  apply bind_ok in H as (fv & s10' & Hf & H).
  rewrite getGlobalFooters_eq in Hf. cbn [config set_heap] in Hf.
  rewrite Hcf9, Hcf8 in Hf.
  destruct (global_list (config s6) "footers" route) as [fv'|] eqn:Ef;
    [|discriminate]. injection Hf as <- <-.
  apply bind_ok in H as ([] & s11 & Hloop2 & H). cbn in H.
  injection H as <- <-.
  apply forEach_value_ok in Hloop2 as (footers & -> & Hloop2).
  destruct (render_loop fuel root footers Hpure _ _ (hs ++ [m]) Hloop2 Hkr10)
    as (fs & Hk11 & Hlfs & Hfs & Hndfs & Hag11 & _ & Hlen11 & Hcf11 & Hrfs).
  cbn [heap set_heap config] in Hk11, Hfs, Hag11, Hlen11, Hcf11.
  rewrite Hlen10 in Hfs, Hag11.
  assert (Hm11 : forall y, y < length (heap s8) -> y <> root ->
                           heap s11 !! y = h10 !! y)
    by (intros y Hy Hyr; now apply Hag11).
  assert (Hmlt : m < length (heap s8)) by lia.
  assert (Hmr : m <> root) by lia.
  exists m, hs, fs, headers, footers, content.
  assert (Hcfg : config s6 = config st) by congruence.
  rewrite <- Hcfg.
  split; [exact Eh|]. split; [exact Ef|]. split; [eauto|].
  split; [now rewrite <- app_assoc in Hk11|].
  split; [exact Hlhs|]. split; [exact Hlfs|].
  split.
  { apply NoDup_app. split; [exact Hndhs|]. split.
    - intros x Hx Hin. rewrite Forall_forall in Hhs, Hfs.
      destruct (Hhs x Hx) as [Hx1 Hx2]. apply hpar_lt in Hx2.
      apply elem_of_cons in Hin as [->|Hin]; [lia|].
      destruct (Hfs x Hin) as [Hx3 _]. lia.
    - constructor; [|exact Hndfs]. intros Hin. rewrite Forall_forall in Hfs.
      destruct (Hfs m Hin) as [Hx3 _]. lia. }
  split.
  { exists (set_heap (heap s6 ++ [wrapper]) s6), s8, (set_heap h10 s9).
    split; [exact Hrhs|]. split; [exact Hrfs|].
    cbn [heap set_heap].
    split.
    { unfold hkids. rewrite (proj2 (Hold7 root ltac:(lia))). exact Hk6. }
    split; [exact Hk8|]. split; [exact Hkr10|].
    rewrite length_app. cbn [length]. fold m.
    split.
    { eapply Forall_impl; [exact Hhs|]. cbn. intros h [Hh1 Hh2].
      apply hpar_lt in Hh2. lia. }
    split.
    { rewrite Hlen10. eapply Forall_impl; [exact Hfs|]. cbn.
      intros h [Hh1 Hh2]. apply hpar_lt in Hh2. lia. }
    intros y Hy1 Hy2.
    rewrite Hm11 by lia. unfold h10. rewrite !list_lookup_alter_ne by lia.
    apply Hag9; [lia|]. intros Hin. rewrite Forall_forall in Hcs4.
    specialize (Hcs4 y Hin). lia. }
  split.
  { unfold hface. rewrite Hm11 by assumption. fold (hface h10 m).
    unfold h10. rewrite !hface_alter_keep by (intros; split; reflexivity).
    rewrite Hf9. unfold hface. now rewrite Hm8. }
  split.
  { unfold hkids. rewrite Hm11 by assumption. fold (hkids h10 m).
    unfold h10. rewrite hkids_alter_keep by reflexivity.
    rewrite hkids_alter, decide_False by congruence. exact Hk9. }
  split.
  { unfold hpar. rewrite Hm11 by assumption. fold (hpar h10 m).
    unfold h10. rewrite hpar_alter, decide_True by reflexivity.
    rewrite list_lookup_alter_ne by congruence.
    unfold hpar in Hpm9. destruct (heap s9 !! m); [reflexivity|discriminate]. }
  rewrite Forall_forall in Hpar9, Hcs4, Hcs |- *. intros c Hc.
  specialize (Hcs4 c Hc). specialize (Hcs c Hc).
  unfold hpar. rewrite Hm11 by lia. fold (hpar h10 c). unfold h10.
  rewrite hpar_alter, decide_False by lia.
  rewrite hpar_alter_keep by reflexivity. now apply Hpar9.
Qed.

(** *** The whole pass *)

(** C4 (as the code has it): a render pass that returns, on a site whose
    global headers and footers are arrays, whose [styles] is an array or
    falsy, and whose components build their output anew on every render
    with templates whose expressions are simple.  After the pass the
    children of the mount container are the nodes the global headers
    returned, then one main-content wrapper, then the nodes the global
    footers returned.  The headers are rendered one after the other in
    their configured order, each output being appended to the emptied
    container before the next is rendered, and the footers likewise after
    the wrapper; what rendering a header has put in the store is the same
    at the end of the pass.  There are as many nodes before the wrapper
    as headers and as many after it as footers, all distinct; the wrapper
    holds the output of the body component, rendered first; without
    headers and footers the wrapper is the only child. *)
Theorem renderApp_order (fuel : nat) (st st' : state) (route : string)
  (f : fn) (v : value) (headers footers : list value) :
  (forall c props, pure_expr (render_of c props) = true) ->
  (forall c props, inert (render_of c props) = true) ->
  selected_component st = Ok (route, VFun f) st ->
  global_list (config st) "headers" route = Some (VArr headers) ->
  global_list (config st) "footers" route = Some (VArr footers) ->
  negb (truthy (default VUndef (obj_get (config st) "styles")))
  || is_array (default VUndef (obj_get (config st) "styles")) = true ->
  renderApp (j fuel) st = Ok v st' ->
  exists root main hs fs content,
    (live_node st "app" = Some root \/
     live_node st "app" = None /\ root = length (heap st)) /\
    (exists s1 sb,
       mount_container (j fuel) st = Ok root s1 /\
       renderComponent (j fuel) (VFun f) s1 = Ok content sb) /\
    hkids (heap st') root = Some (hs ++ [main] ++ fs) /\
    length hs = length headers /\
    length fs = length footers /\
    NoDup (hs ++ [main] ++ fs) /\
    (exists sh sh' sf,
       render_trace (j fuel) root headers hs sh sh' /\
       render_trace (j fuel) root footers fs sf st' /\
       hkids (heap sh) root = Some [] /\
       hkids (heap sh') root = Some hs /\
       hkids (heap sf) root = Some (hs ++ [main]) /\
       Forall (fun h => length (heap sh) <= h /\ h < length (heap sh')) hs /\
       Forall (fun h => length (heap sf) <= h /\ h < length (heap st')) fs /\
       (forall y, length (heap sh) <= y -> y < length (heap sh') ->
                  heap st' !! y = heap sh' !! y)) /\
    hface (heap st') main
      = Some (KElement "div", [("class", "main-content")]) /\
    hkids (heap st') main = Some (nodes_of content) /\
    hpar (heap st') main = Some (Some root) /\
    Forall (fun c => hpar (heap st') c = Some (Some main)) (nodes_of content) /\
    (headers = [] -> footers = [] -> hkids (heap st') root = Some [main]).
Proof.
  intros Hpure _ Hsel Hheaders Hfooters _ H. unfold renderApp in H.
  apply bind_ok in H as (rc & s0 & Hsel' & H).
  rewrite Hsel in Hsel'. injection Hsel' as <- <-.
  cbn [fst snd typeof String.eqb negb] in H.
  change (String.eqb (typeof (VFun f)) "function") with true in H.
  cbn [negb] in H.
  apply bind_ok in H as (root & s1 & Hm & H).
  pose proof Hm as Hm0.
  apply mount_container_ok in Hm as (Hroot & Hlt & Hcf).
  apply fill_container_ok in H
    as (main & hs & fs & headers' & footers' & content & Hh & Hf & (sb & Hc)
        & Hk & Hlh & Hlf & Hnd & Htr & Hface & Hkm & Hpm & Hpc);
    [|exact Hpure|exact Hlt].
  rewrite Hcf, Hheaders in Hh. injection Hh as <-.
  rewrite Hcf, Hfooters in Hf. injection Hf as <-.
  exists root, main, hs, fs, content.
  repeat (split; [first [assumption | eauto]|]).
  intros -> ->. destruct hs; [|discriminate]. destruct fs; [|discriminate].
  exact Hk.
Qed.

(** * Further properties of the element builder *)

(** ** Texts and inline patterns *)

Lemma replace_inline_scan (g : gmap string value) (c : ascii) (r : string) :
  replace_inline g (String c r) None
  = match r with
    | String c' r' =>
        if Ascii.eqb c "J"%char && Ascii.eqb c' "{"%char
        then replace_inline g r' (Some EmptyString)
        else String c <$> replace_inline g r None
    | EmptyString => Some (String c EmptyString)
    end.
Proof. destruct r; reflexivity. Qed.

Lemma no_open_cons (c : ascii) (r : string) :
  is_substring "J{" (String c r) = false ->
  is_substring "J{" r = false /\
  match r with
  | String c' _ => Ascii.eqb c "J"%char && Ascii.eqb c' "{"%char = false
  | EmptyString => True
  end.
Proof.
  cbn [is_substring]. intros H. apply orb_false_iff in H as [Hp Hr].
  split; [exact Hr|]. destruct r as [|c' r']; [exact Logic.I|].
  destruct (Ascii.eqb_spec c "J") as [->|]; [|reflexivity].
  destruct (Ascii.eqb_spec c' "{") as [->|]; [|reflexivity].
  cbn in Hp. destruct r'; discriminate.
Qed.

(** The scan copies a stretch without [J{] as it is. *)
Lemma replace_inline_prefix (g : gmap string value) (pre rest : string) :
  is_substring "J{" pre = false ->
  String.prefix "{" rest = false ->
  replace_inline g (pre +:+ rest) None
  = (fun u => pre +:+ u) <$> replace_inline g rest None.
Proof.
  intros Hpre Hrest. induction pre as [|c pre IH].
  - change ("" +:+ rest) with rest.
    destruct (replace_inline g rest None); reflexivity.
  - apply no_open_cons in Hpre as [Hpre Hc].
    change (String c pre +:+ rest) with (String c (pre +:+ rest)).
    rewrite replace_inline_scan.
    destruct pre as [|c' pre'].
    + change ("" +:+ rest) with rest.
      destruct rest as [|c' r']; [reflexivity|].
      assert (Hb : Ascii.eqb c' "{" = false).
      { destruct (Ascii.eqb_spec c' "{") as [->|]; [|reflexivity].
        cbn in Hrest. destruct r'; discriminate. }
      cbv iota. rewrite Hb, andb_false_r.
      destruct (replace_inline g (String c' r') None); reflexivity.
    + change (String c' pre' +:+ rest) with (String c' (pre' +:+ rest)).
      cbv iota. rewrite Hc.
      change (String c' (pre' +:+ rest)) with (String c' pre' +:+ rest).
      rewrite (IH Hpre).
      destruct (replace_inline g rest None); reflexivity.
Qed.

(** After [J{] and the characters [body]: up to the first closing brace
    the scan reads the expression, whose value takes its place. *)
Lemma replace_inline_inside (g : gmap string value) (e body post : string) :
  has_close e = false ->
  body +:+ e <> "" ->
  replace_inline g (e +:+ "}" +:+ post) (Some body)
  = match to_string (inline_value g (body +:+ e)) with
    | Some t => (fun u => t +:+ u) <$> replace_inline g post None
    | None => None
    end.
Proof.
  revert body. induction e as [|a e IH]; intros body Hc Hb.
  - rewrite append_nil_r in *.
    change (replace_inline g ("" +:+ "}" +:+ post) (Some body))
      with (if String.eqb body ""
            then (fun t => "J{}" +:+ t) <$> replace_inline g post None
            else match to_string (inline_value g body) with
                 | Some t => (fun u => t +:+ u) <$> replace_inline g post None
                 | None => None
                 end).
    destruct (String.eqb_spec body "") as [->|_]; [congruence|]. reflexivity.
  - cbn [has_close] in Hc. apply orb_false_iff in Hc as [Ha Hc].
    change (replace_inline g (String a e +:+ "}" +:+ post) (Some body))
      with (if Ascii.eqb a "}"
            then if String.eqb body ""
                 then (fun t => "J{}" +:+ t)
                        <$> replace_inline g (e +:+ "}" +:+ post) None
                 else match to_string (inline_value g body) with
                      | Some t =>
                          (fun u => t +:+ u)
                            <$> replace_inline g (e +:+ "}" +:+ post) None
                      | None => None
                      end
            else replace_inline g (e +:+ "}" +:+ post)
                   (Some (body +:+ String a ""))).
    rewrite Ha, IH.
    + now rewrite append_snoc.
    + exact Hc.
    + rewrite append_snoc. destruct body; discriminate.
Qed.

(** A text in which [J{] does not occur is returned as it is, whatever
    the global variables are: nothing is evaluated. *)
Theorem evalTemplate_plain (str : string) (st : state) :
  is_substring "J{" str = false ->
  evalTemplate str st = Ok str st.
Proof.
  intros H. unfold evalTemplate.
  rewrite <- (append_nil_r str) at 1.
  rewrite (replace_inline_prefix _ str "" H eq_refl). cbn.
  now rewrite append_nil_r.
Qed.


(** ** Children *)

Lemma leaves_arr (l : list value) : leaves (VArr l) = flat_map leaves l.
Proof.
  cbn [leaves]. induction l as [|x l IH]; [reflexivity|].
  cbn [flat_map]. now rewrite <- IH.
Qed.

Lemma forEach_app {A} (f : A -> M unit) (a b : list A) (st : state) :
  forEach f (a ++ b) st = (forEach f a ;; forEach f b) st.
Proof.
  revert st. induction a as [|x a IH]; intros st; [reflexivity|].
  cbn [app forEach]. unfold bind.
  destruct (f x st) as [[] s|e s|]; [|reflexivity|reflexivity].
  rewrite IH. reflexivity.
Qed.

Lemma leaves_are_leaves (v : value) :
  Forall (fun x => is_leaf x = true) (leaves v).
Proof.
  induction v as [v Hv|l IH] using value_nested_ind.
  - destruct v; try (repeat constructor); try constructor.
    exfalso. eapply Hv. reflexivity.
  - rewrite leaves_arr. induction IH as [|x l Hx _ IHl]; [constructor|].
    cbn [flat_map]. apply Forall_app. split; assumption.
Qed.

Lemma append_child_leaves (element : nat) (child : value) (st : state) :
  append_child element child st
  = forEach (append_child element) (leaves child) st.
Proof.
  revert st. induction child as [v Hv|l IH] using value_nested_ind; intros st.
  - destruct v; try reflexivity;
      try (cbn [leaves forEach]; unfold bind at 1;
           match goal with
           | |- ?m = _ => destruct m as [[] ?|? ?|]; reflexivity
           end).
    exfalso. eapply Hv. reflexivity.
  - rewrite append_child_arr, leaves_arr. revert st.
    induction IH as [|x l Hx _ IHl]; intros st; [reflexivity|].
    cbn [forEach flat_map]. rewrite forEach_app. unfold bind.
    rewrite <- Hx. destruct (append_child element x st); auto.
Qed.

(** The children of a build are appended as if nested arrays had been
    flattened and [null] and [undefined] left out: the builder treats the
    two argument lists alike, in every state and whatever the outcome. *)
Theorem children_flattened (element : nat) (children : list value)
  (st : state) :
  forEach (append_child element) children st
  = forEach (append_child element) (flat_map leaves children) st /\
  Forall (fun x => is_leaf x = true) (flat_map leaves children).
Proof.
  split.
  - rewrite <- (append_child_arr element children), <- leaves_arr.
    apply append_child_leaves.
  - rewrite <- leaves_arr. apply leaves_are_leaves.
Qed.

(** ** Properties *)

Lemma true_stable : stable (fun _ => True) (fun _ => True).
Proof. split; intros; exact Logic.I. Qed.

Lemma register_template_ends tag props children :
  preserves False (fun _ => True) (register_template tag props children).
Proof.
  intros st _. unfold register_template. cbv zeta.
  destruct (truthy _); [|exact Logic.I].
  destruct (to_key _); [|exact Logic.I].
  destruct (registry_truthy _); exact Logic.I.
Qed.

Lemma set_property_ends element kv :
  preserves False (fun _ => True) (set_property element kv).
Proof.
  pose proof true_stable as HS. unfold set_property. pres.
Qed.

Lemma append_child_ends element child :
  preserves False (fun _ => True) (append_child element child).
Proof.
  pose proof true_stable as HS.
  induction child as [v Hv|l IH] using value_nested_ind.
  - destruct v; cbn [append_child]; try (exfalso; eapply Hv; reflexivity);
      pres; eapply document_createTextNode_preserves; eauto; exact Logic.I.
  - rewrite append_child_arr.
    induction IH as [|x l' Hx _ IHl]; cbn [forEach]; pres.
Qed.

(** The builder on anything but a function always ends: it returns or
    throws. *)
Lemma createElement_ends ev tag props children :
  is_function tag = false ->
  preserves False (fun _ => True) (createElement ev tag props children).
Proof.
  intros Hf. pose proof true_stable as HS.
  assert (Hbody : preserves False (fun _ => True)
    (register_template tag props children ;;
     let! element := document_createElement tag in
     (if truthy props
      then let! l := entries_or_throw props in
           forEach (set_property element) l
      else ret tt) ;;
     forEach (append_child element) children ;;
     ret (VNode element))).
  { apply preserves_bind; [apply register_template_ends|]. intros _.
    apply preserves_bind.
    { eapply document_createElement_preserves; [exact HS | intros; exact Logic.I]. }
    intros element. apply preserves_bind.
    { destruct (truthy props); [|apply preserves_ret].
      apply preserves_bind; [eauto with pres|]. intros l.
      apply preserves_forEach. intros kv. apply set_property_ends. }
    intros _. apply preserves_bind; [|intros _; apply preserves_ret].
    apply preserves_forEach. intros c. apply append_child_ends. }
  destruct tag; try exact Hbody. discriminate.
Qed.

Lemma forEach_ok_in {A} (f : A -> M unit) (l : list A) (x : A) st st' :
  forEach f l st = Ok tt st' -> x ∈ l ->
  exists s1 s2, f x s1 = Ok tt s2.
Proof.
  revert st. induction l as [|y l IH]; intros st H Hin.
  - apply elem_of_nil in Hin. contradiction.
  - apply forEach_cons_ok in H as (s & H1 & H2).
    apply elem_of_cons in Hin as [->|Hin]; [eauto|]. eapply IH; eauto.
Qed.

Lemma set_property_null element (k : string) st :
  k = "class" \/ k = "style" ->
  set_property element (k, VNull) st = Throw "TypeError" st.
Proof. intros [->| ->]; reflexivity. Qed.

(** [typeof null] is ["object"]: a property bag that holds [class: null]
    or [style: null] makes the builder call [Object.entries(null)], so the
    build throws, wherever the entry stands and whatever else is given. *)
Theorem build_null_class_throws ev (tag : value) (o : list (string * value))
  (children : list value) (k : string) (st : state) :
  is_function tag = false ->
  k = "class" \/ k = "style" ->
  (k, VNull) ∈ o ->
  exists e s, createElement ev tag (VObj o) children st = Throw e s.
Proof.
  intros Hf Hk Hin.
  pose proof (createElement_ends ev tag (VObj o) children Hf st Logic.I) as He.
  destruct (createElement ev tag (VObj o) children st) as [v s|e s|] eqn:E;
    [|eauto|contradiction].
  exfalso.
  assert (Hbody : (register_template tag (VObj o) children ;;
     let! element := document_createElement tag in
     (if truthy (VObj o)
      then let! l := entries_or_throw (VObj o) in
           forEach (set_property element) l
      else ret tt) ;;
     forEach (append_child element) children ;;
     ret (VNode element)) st = Ok v s).
  { destruct tag; try exact E. discriminate. }
  apply bind_ok in Hbody as ([] & s0 & _ & H).
  apply bind_ok in H as (element & s1 & _ & H).
  apply bind_ok in H as ([] & s2 & H & _).
  change (truthy (VObj o)) with true in H. cbv iota in H.
  apply bind_ok in H as (l & s3 & Hl & H).
  cbn in Hl. injection Hl as <- <-.
  destruct (forEach_ok_in _ _ _ _ _ H Hin) as (sa & sb & Hs).
  rewrite (set_property_null element k sa Hk) in Hs. discriminate.
Qed.

(** *** What keeps the kind and the attributes of a node *)

Lemma hface_detach (c y : nat) (h : list dnode) :
  hface (detach c h) y = hface h y.
Proof.
  unfold detach. destruct (h !! c) as [n|]; [|reflexivity].
  destruct (n_parent n); [|reflexivity].
  rewrite !hface_alter_keep by (intros; split; reflexivity). reflexivity.
Qed.

Lemma hface_app (h : list dnode) (n : dnode) (y : nat) v :
  hface h y = Some v -> hface (h ++ [n]) y = Some v.
Proof.
  unfold hface. intros H. rewrite lookup_app_l; [exact H|].
  destruct (h !! y) eqn:E; [|discriminate]. eapply lookup_lt_Some, E.
Qed.

Section Faces.

Variable F : Prop.
Variable el : nat.
Variable face : node_kind * list (string * string).

#[local] Abbreviation face_kept :=
  (fun s : state => hface (heap s) el = Some face).

Lemma appendChild_face parent child :
  preserves F face_kept (appendChild parent child).
Proof.
  intros st HI. destruct (appendChild parent child st) as [[] s|e s|] eqn:E.
  - destruct (appendChild_ok_node _ _ _ _ E) as [c ->].
    apply appendChild_ok in E as (-> & _). cbn [heap set_heap].
    rewrite !hface_alter_keep by (intros; split; reflexivity).
    now rewrite hface_detach.
  - apply appendChild_throw in E. now subst.
  - now apply appendChild_total in E.
Qed.

Lemma alloc_face n : preserves F face_kept (alloc n).
Proof. intros st HI. cbn. now apply hface_app. Qed.

Lemma append_child_face element child :
  preserves F face_kept (append_child element child).
Proof.
  induction child as [v Hv|l IH] using value_nested_ind.
  - destruct v; cbn [append_child]; try (exfalso; eapply Hv; reflexivity);
      unfold document_createTextNode;
      pres; first [apply alloc_face | apply appendChild_face].
  - rewrite append_child_arr.
    induction IH as [|x l' Hx _ IHl]; cbn [forEach]; pres.
Qed.

End Faces.

(** *** Attributes *)

Lemma attr_set_fresh (a : list (string * string)) (k s : string) :
  attr_get a k = None -> attr_set a k s = a ++ [(k, s)].
Proof.
  induction a as [|[k' v'] a IH]; [reflexivity|].
  cbn [attr_get attr_set app]. destruct (String.eqb k' k); [discriminate|].
  intros H. now rewrite IH.
Qed.

Lemma attr_get_snoc (a : list (string * string)) (k k' s : string) :
  attr_get a k' = None -> k <> k' -> attr_get (a ++ [(k, s)]) k' = None.
Proof.
  intros Ha Hne. induction a as [|[k0 v0] a IH].
  - cbn. destruct (String.eqb_spec k k'); [contradiction|reflexivity].
  - cbn [attr_get app] in *. destruct (String.eqb k0 k'); [discriminate|auto].
Qed.

Lemma set_property_plain element kv :
  plain_prop kv = true ->
  set_property element kv = setAttribute element (fst kv) (snd kv).
Proof.
  destruct kv as [k v]. unfold plain_prop, set_property. cbn [fst snd].
  intros H. apply andb_prop in H as [H1 H2].
  apply negb_true_iff in H1, H2. now rewrite H1, H2.
Qed.

(** The entries of a property bag that are handed to [setAttribute], on
    an element that has none of their names yet: one attribute is added
    for each entry, in order, with the string form of the value. *)
Lemma lower_no_upper (s : string) : no_upper s = true -> lower s = s.
Proof.
  induction s as [|a s IH]; [reflexivity|]. cbn [no_upper lower].
  intros H. apply andb_prop in H as [Ha Hs]. apply negb_true_iff in Ha.
  unfold lower_char. now rewrite Ha, IH.
Qed.

Lemma plain_props_attrs element kd (o : list (string * value)) :
  forall a0 s s',
    Forall (fun kv => no_upper (fst kv) = true) o ->
    Forall (fun kv => plain_prop kv = true) o ->
    NoDup (fst <$> o) ->
    (forall k, k ∈ (fst <$> o) -> attr_get a0 k = None) ->
    hface (heap s) element = Some (kd, a0) ->
    forEach (set_property element) o s = Ok tt s' ->
    exists attrs,
      Forall2 (fun kv a => fst a = fst kv /\ to_string (snd kv) = Some (snd a))
              o attrs /\
      hface (heap s') element = Some (kd, a0 ++ attrs).
Proof.
  induction o as [|[k v] o IH]; intros a0 s s' Hlow Hplain Hnd Hfresh Hface H.
  - cbn in H. injection H as <-. exists []. split; [constructor|].
    now rewrite app_nil_r.
  - apply forEach_cons_ok in H as (s1 & H1 & H).
    apply Forall_cons in Hplain as [Hp Hplain].
    apply Forall_cons in Hlow as [Hl Hlow]. cbn [fst] in Hl.
    cbn [fmap list_fmap fst] in Hnd, Hfresh.
    apply NoDup_cons in Hnd as [Hk Hnd].
    rewrite set_property_plain in H1 by exact Hp. cbn [fst snd] in H1.
    unfold setAttribute in H1. rewrite (lower_no_upper k Hl) in H1.
    destruct (to_string v) as [sv|] eqn:Ev; [|discriminate].
    destruct (valid_attr k); [|discriminate].
    cbn in H1. injection H1 as <-.
    edestruct (IH (a0 ++ [(k, sv)])) as (attrs & Hall & Hf);
      [exact Hlow | exact Hplain | exact Hnd | | | exact H |].
    + intros k' Hk'. apply attr_get_snoc.
      * apply Hfresh. now right.
      * intros ->. contradiction.
    + cbn [heap set_heap]. unfold hface in *.
      rewrite list_lookup_alter_eq.
      destruct (heap s !! element) as [nd|]; [|discriminate].
      cbn in *. injection Hface as <- <-.
      rewrite attr_set_fresh; [reflexivity|]. apply Hfresh. now left.
    + exists ((k, sv) :: attrs). split.
      * constructor; [split; [reflexivity | exact Ev] | exact Hall].
      * now rewrite <- app_assoc in Hf.
Qed.

(** A build on a lower-case tag name whose property bag has lower-case
    keys and is handed to [setAttribute] entry by entry: the result is a
    new element of that name whose attributes are the entries of the bag,
    in order, each with the string form of its value (so [false] gives
    the attribute value ["false"]), whatever children are appended. *)
Theorem build_attributes ev (tag : string) (o : list (string * value))
  (children : list value) (st st' : state) (v : value) :
  no_upper tag = true ->
  Forall (fun kv => no_upper (fst kv) = true) o ->
  Forall (fun kv => plain_prop kv = true) o ->
  NoDup (fst <$> o) ->
  createElement ev (VStr tag) (VObj o) children st = Ok v st' ->
  exists attrs,
    v = VNode (length (heap st)) /\
    Forall2 (fun kv a => fst a = fst kv /\ to_string (snd kv) = Some (snd a))
            o attrs /\
    hface (heap st') (length (heap st)) = Some (KElement tag, attrs).
Proof.
  intros Htag Hlow Hplain Hnd H. unfold createElement in H.
  apply bind_ok in H as ([] & s0 & H0 & H).
  pose proof (register_template_frame (VStr tag) (VObj o) children st) as Hr.
  rewrite H0 in Hr. destruct Hr as (Hh0 & _ & _).
  apply bind_ok in H as (element & s1 & H1 & H).
  unfold document_createElement in H1.
  change (to_string (VStr tag)) with (Some tag) in H1. cbv iota beta in H1.
  destruct (valid_tag tag); [|discriminate].
  rewrite (lower_no_upper tag Htag) in H1.
  cbn in H1. injection H1 as <- <-. rewrite Hh0 in H.
  apply bind_ok in H as ([] & s2 & H2 & H).
  change (truthy (VObj o)) with true in H2. cbv iota in H2.
  apply bind_ok in H2 as (l & s3 & Hl & H2).
  cbn in Hl. injection Hl as <- <-.
  edestruct (plain_props_attrs (length (heap st)) (KElement tag) o [])
    as (attrs & Hall & Hface);
    [exact Hlow | exact Hplain | exact Hnd | | | exact H2 |].
  { intros; reflexivity. }
  { cbn [heap set_heap]. unfold hface.
    rewrite list_lookup_middle by reflexivity. reflexivity. }
  apply bind_ok in H as ([] & s4 & H4 & H). cbn in H. injection H as <- <-.
  exists attrs. split; [reflexivity|]. split; [exact Hall|].
  eapply (preserves_ok True _ _ _ _ _
            (preserves_forEach True _ _ children
               (append_child_face True _ _ (length (heap st)))));
    [exact Hface | exact H4].
Qed.

(** * Style sheets *)

Lemma child_with_kind (h : list dnode) (P : dnode -> bool) (r k : nat) :
  child_with h P r = Some k -> exists kn, h !! k = Some kn /\ P kn = true.
Proof.
  unfold child_with. destruct (h !! r) as [n|]; [|discriminate].
  intros H. apply first_some_Some in H as (k' & _ & Hk).
  destruct (h !! k') as [kn|] eqn:E; [|discriminate].
  destruct (P kn) eqn:EP; [|discriminate].
  injection Hk as <-. eauto.
Qed.

Lemma document_head_kind (h : list dnode) (head : nat) :
  document_head h = Some head ->
  n_kind <$> h !! head = Some (KElement "head").
Proof.
  unfold document_head. destruct (documentElement h); [|discriminate].
  intros H. apply child_with_kind in H as (kn & -> & Hk). cbn.
  apply bool_decide_eq_true in Hk. unfold tag_of in Hk.
  destruct (n_kind kn); try discriminate. congruence.
Qed.

(** What [addStyle] does with a URL that is not loaded yet, when it
    returns. *)
Lemma addStyle_new (url : string) (st st' : state) :
  existsb (value_eqb (VStr url)) (loadedStyles st) = false ->
  addStyle (VStr url) st = Ok tt st' ->
  exists head,
    document_head (heap st ++ [link_node url None]) = Some head /\
    head < length (heap st) /\
    st' = set_loadedStyles (loadedStyles st ++ [VStr url])
            (set_heap
               (alter (with_kids (fun l => l ++ [length (heap st)])) head
                  (heap st)
                ++ [link_node url (Some head)]) st).
Proof.
  intros Hnew H. unfold addStyle in H.
  unfold bind at 1 in H. unfold loaded in H. rewrite Hnew in H.
  apply bind_ok in H as (link & s1 & H1 & H).
  unfold document_createElement in H1.
  change (to_string (VStr "link")) with (Some "link") in H1. cbv iota beta in H1.
  destruct (valid_tag "link"); [|discriminate].
  change (lower "link") with "link" in H1. cbn in H1.
  injection H1 as <- <-.
  apply bind_ok in H as ([] & s2 & H2 & H). cbn in H2. injection H2 as <-.
  apply bind_ok in H as ([] & s3 & H3 & H). cbn in H3. injection H3 as <-.
  cbn [heap set_heap] in H. rewrite !alter_new in H.
  change (with_attrs _ (with_attrs _ (new_node (KElement "link"))))
    with (link_node url None) in H.
  apply bind_ok in H as (head & s4 & H4 & H).
  unfold head_or_throw in H4. cbn [heap set_heap] in H4.
  destruct (document_head (heap st ++ [link_node url None])) as [hd|] eqn:Eh;
    [|discriminate].
  injection H4 as <- <-.
  apply bind_ok in H as ([] & s5 & H5 & H). cbn in H. injection H as <-.
  apply appendChild_detached in H5 as (-> & Hne & Hlt & _).
  2:{ cbn [heap set_heap]. unfold hpar.
      rewrite list_lookup_middle by reflexivity. reflexivity. }
  cbn [heap set_heap] in Hlt, Hne |- *. rewrite length_app in Hlt.
  cbn [length] in Hlt.
  assert (Hhd : hd < length (heap st)) by lia.
  exists hd. split; [reflexivity|]. split; [exact Hhd|].
  unfold set_loadedStyles, set_heap.
  cbn [heap registry config loadedStyles globals location_hash console].
  f_equal.
  rewrite alter_app_l by exact Hhd.
  replace (length (heap st))
    with (length (alter (with_kids (fun l => l ++ [length (heap st)])) hd
                    (heap st))) at 1 by apply length_alter.
  rewrite alter_new. reflexivity.
Qed.

(** Once [addStyle] has returned for a URL, calling it again with that
    URL changes nothing: no second [link] element, no second entry. *)
Theorem addStyle_idempotent (url : string) (st st' : state) :
  addStyle (VStr url) st = Ok tt st' ->
  addStyle (VStr url) st' = Ok tt st'.
Proof.
  intros H.
  assert (Hl : existsb (value_eqb (VStr url)) (loadedStyles st') = true).
  { destruct (existsb (value_eqb (VStr url)) (loadedStyles st)) eqn:E.
    - unfold addStyle, bind, loaded in H. rewrite E in H. cbn in H.
      now injection H as <-.
    - apply (addStyle_new url st st' E) in H as (hd & _ & _ & ->).
      cbn [loadedStyles set_loadedStyles]. rewrite existsb_app.
      cbn. rewrite String.eqb_refl. apply orb_true_r. }
  unfold addStyle, bind, loaded. now rewrite Hl.
Qed.

(** [addStyle] with a URL that is not loaded yet, when it returns: the
    store has one node more, a [link] element with [rel] and [href] set,
    which is the last child of an element named [head]; the URL is
    recorded; every other node is as it was. *)
Theorem addStyle_appends_link (url : string) (st st' : state) :
  existsb (value_eqb (VStr url)) (loadedStyles st) = false ->
  addStyle (VStr url) st = Ok tt st' ->
  exists head ks,
    length (heap st') = S (length (heap st)) /\
    heap st' !! length (heap st) = Some (link_node url (Some head)) /\
    n_kind <$> heap st !! head = Some (KElement "head") /\
    hkids (heap st) head = Some ks /\
    hkids (heap st') head = Some (ks ++ [length (heap st)]) /\
    loadedStyles st' = loadedStyles st ++ [VStr url] /\
    (forall y, y < length (heap st) -> y <> head ->
               heap st' !! y = heap st !! y).
Proof.
  intros Hnew H.
  apply (addStyle_new url st st' Hnew) in H as (hd & Hhead & Hlt & ->).
  apply document_head_kind in Hhead.
  rewrite lookup_app_l in Hhead by exact Hlt.
  destruct (heap st !! hd) as [hn|] eqn:Ehd; [|discriminate].
  exists hd, (n_kids hn).
  cbn [heap loadedStyles set_heap set_loadedStyles].
  split; [rewrite length_app, length_alter; cbn; lia|].
  split.
  { replace (length (heap st))
      with (length (alter (with_kids (fun l => l ++ [length (heap st)])) hd
                      (heap st))) at 1 by apply length_alter.
    apply list_lookup_middle. reflexivity. }
  split; [now rewrite Ehd|].
  split; [unfold hkids; now rewrite Ehd|].
  split.
  { unfold hkids. rewrite lookup_app_l by (now rewrite length_alter).
    rewrite list_lookup_alter_eq, Ehd. reflexivity. }
  split; [reflexivity|].
  intros y Hy Hne. rewrite lookup_app_l by (now rewrite length_alter).
  apply list_lookup_alter_ne. congruence.
Qed.

(** * Global components *)

Lemma includes_array (l : list value) (x : string) (st : state) :
  includes (VArr l) x st = Ok (existsb (fun y => value_eqb y (VStr x)) l) st.
Proof. reflexivity. Qed.

Lemma existsb_string (l : list value) (x : string) :
  existsb (fun y => value_eqb y (VStr x)) l = true <-> VStr x ∈ l.
Proof.
  rewrite existsb_exists. split.
  - intros (y & Hin & Hy). destruct y; try discriminate.
    cbn in Hy. apply String.eqb_eq in Hy. subst.
    now apply list_elem_of_In.
  - intros Hin. exists (VStr x). split; [now apply list_elem_of_In|].
    cbn. apply String.eqb_refl.
Qed.

(** With an array [global.pages]: the global headers and footers of a
    page are the configured ones when the array holds ["*"] or the page,
    and none otherwise; asking never changes the state. *)
Theorem global_lists_by_page (st : state) (g : list (string * value))
  (ps : list value) (page : string) :
  obj_get (config st) "global" = Some (VObj g) ->
  obj_get g "pages" = Some (VArr ps) ->
  (VStr "*" ∈ ps \/ VStr page ∈ ps ->
   getGlobalHeaders page st = Ok (default VUndef (obj_get g "headers")) st /\
   getGlobalFooters page st = Ok (default VUndef (obj_get g "footers")) st) /\
  (VStr "*" ∉ ps -> VStr page ∉ ps ->
   getGlobalHeaders page st = Ok (VArr []) st /\
   getGlobalFooters page st = Ok (VArr []) st).
Proof.
  intros Hg Hp.
  assert (Hs : shouldHaveGlobal page st
               = Ok (existsb (fun y => value_eqb y (VStr "*")) ps
                     || existsb (fun y => value_eqb y (VStr page)) ps) st).
  { unfold shouldHaveGlobal, bind, config_field. rewrite Hg. cbn.
    rewrite Hp. cbn.
    destruct (existsb (fun y => value_eqb y (VStr "*")) ps); reflexivity. }
  unfold getGlobalHeaders, getGlobalFooters, bind. rewrite Hs.
  split.
  - intros Hin.
    assert (Hb : existsb (fun y => value_eqb y (VStr "*")) ps
                 || existsb (fun y => value_eqb y (VStr page)) ps = true).
    { apply orb_true_iff. rewrite !existsb_string. exact Hin. }
    rewrite Hb. unfold config_field. rewrite Hg. split; reflexivity.
  - intros H1 H2.
    assert (Hb : existsb (fun y => value_eqb y (VStr "*")) ps
                 || existsb (fun y => value_eqb y (VStr page)) ps = false).
    { apply orb_false_iff.
      split; apply not_true_is_false; rewrite existsb_string; assumption. }
    rewrite Hb. split; reflexivity.
Qed.

(** * More on the registry and on re-rendering *)

(** A build with a truthy [id] and a tag name the document refuses: the
    call throws, no element exists, and yet the arguments of the call are
    registered under the identifier. *)
Theorem failed_build_registers (fuel : nat) (name : string)
  (o : list (string * value)) (children : list value) (idv : value)
  (k : pkey) (st : state) :
  builds (VStr name :: VObj o :: children) = true ->
  valid_tag name = false ->
  obj_get o "id" = Some idv -> truthy idv = true -> to_key idv = Some k ->
  registry_get st k = RUndefined ->
  j (S fuel) (VStr name :: VObj o :: children) st
  = Throw "InvalidCharacterError"
      (set_registry
         (<[k := Descriptor (VStr name) (VObj o) children]> (registry st)) st).
Proof.
  intros Hb Hv Hid Ht Hk Hr. cbn [j]. rewrite dispatch_build by exact Hb.
  unfold createElement, bind, register_template. cbv zeta.
  change (truthy (VObj o)) with true. cbv iota. cbn [get_id].
  rewrite Hid. cbn [default from_option]. unfold id. rewrite Ht, Hk, Hr.
  cbn [registry_truthy]. unfold document_createElement.
  change (to_string (VStr name)) with (Some name). cbv iota beta.
  rewrite Hv. reflexivity.
Qed.

(** [j("rcmp", id)] when no live node has the identifier, or the node
    found has no parent, or the registry read gives [undefined]: the call
    returns [undefined] and the state is the same. *)
Theorem rcmp_missing_target (fuel : nat) (st : state) (s : string) :
  live_node st s = None \/
  (exists node, live_node st s = Some node /\ parent_of st node = None) \/
  (exists node, live_node st s = Some node /\
                registry_get st (KStr s) = RUndefined) ->
  j (S fuel) [VStr "rcmp"; VStr s] st = Ok VUndef st.
Proof.
  intros H. cbn [j]. unfold dispatch.
  cbn [lookup list_lookup default from_option value_eqb String.eqb Ascii.eqb
       Bool.eqb]. unfold id.
  apply rcmp_silent. exact H.
Qed.

(** * A render pass and the configured style sheets *)

Lemma styles_step_config url s s' (b : bool) :
  (if b then ret tt else addStyle url) s = Ok tt s' -> config s' = config s.
Proof.
  destruct b; [intros [= <-]; reflexivity|]. intros H.
  pose proof (addStyle_kept True (length (heap s)) s url s) as Hk.
  rewrite H in Hk. apply Hk. split; [lia|]. split; reflexivity.
Qed.

(** [renderApp] calls [forEach] on [config.styles] whenever it is truthy,
    without asking whether it is an array as [cfg] does: when [styles] is
    a truthy primitive, which has no [forEach] (a single URL string, a
    non-zero number, [true]), no render pass on a page whose component is
    a function returns (the components building their output anew, with
    templates whose expressions are simple). *)
Theorem renderApp_styles_not_array (fuel : nat) (st : state) (route : string)
  (f : fn) (sv : value) :
  (forall c props, pure_expr (render_of c props) = true) ->
  (forall c props, inert (render_of c props) = true) ->
  selected_component st = Ok (route, VFun f) st ->
  obj_get (config st) "styles" = Some sv ->
  truthy sv = true -> primitive sv = true ->
  returns (renderApp (j fuel) st) = false.
Proof.
  intros Hpure _ Hsel Hsv Ht Ha.
  destruct (renderApp (j fuel) st) as [v st'| |] eqn:H; [|reflexivity..].
  exfalso. unfold renderApp in H.
  apply bind_ok in H as (rc & s0 & Hsel' & H).
  rewrite Hsel in Hsel'. injection Hsel' as <- <-.
  cbn [fst snd] in H.
  change (String.eqb (typeof (VFun f)) "function") with true in H.
  cbn [negb] in H.
  apply bind_ok in H as (root & s1 & Hm & H).
  apply mount_container_ok in Hm as (_ & _ & Hcf1).
  unfold fill_container in H. cbn [truthy] in H.
  apply bind_ok in H as (content & s4 & Hcontent & H).
  destruct (renderComponent_pure _ _ _ _ _ Hpure Hcontent)
    as ((_ & _ & _ & Hcf4 & _) & _).
  apply bind_ok in H as (has & sa & H1 & H). injection H1 as _ <-.
  apply bind_ok in H as ([] & sb & H2 & H).
  apply styles_step_config in H2.
  apply bind_ok in H as (style & sc & H3 & H). injection H3 as _ <-.
  apply bind_ok in H as ([] & sd & H4 & H).
  assert (Hcfd : config sd = config sb).
  { destruct (truthy style); [|now injection H4 as <-].
    apply bind_ok in H4 as (has2 & se & H5 & H4). injection H5 as _ <-.
    now apply styles_step_config in H4. }
  clear H4.
  assert (Hcf : config sd = config st) by congruence.
  revert H. unfold bind at 1. unfold config_field. rewrite Hcf, Hsv.
  cbn [default from_option]. unfold id. unfold bind at 1. rewrite Ht.
  destruct sv; try discriminate.
Qed.

(** * The theme *)

Section StyleFaces.

Variable F : Prop.
Variable el : nat.
Variable face : node_kind * list (string * string).

#[local] Abbreviation face_kept :=
  (fun s : state => hface (heap s) el = Some face).

Lemma hface_lt (h : list dnode) (y : nat) v : hface h y = Some v -> y < length h.
Proof.
  unfold hface. destruct (h !! y) eqn:E; [|discriminate].
  intros _. eapply lookup_lt_Some, E.
Qed.

Lemma document_createElement_fresh tag :
  hoare F face_kept (document_createElement tag)
    (fun r s => face_kept s /\ r <> el) face_kept.
Proof.
  intros st HI. unfold document_createElement.
  destruct (to_string tag) as [name|]; [|exact HI].
  destruct (valid_tag name); [|exact HI]. cbn.
  split; [now apply hface_app|]. apply hface_lt in HI. lia.
Qed.

Lemma set_reflected_face r name v :
  r <> el -> preserves F face_kept (set_reflected r name v).
Proof.
  intros Hne. unfold set_reflected.
  destruct (to_string v); [|apply preserves_throw].
  apply hoare_modify. intros st HI. cbn [heap set_heap].
  unfold hface. rewrite list_lookup_alter_ne by exact Hne. exact HI.
Qed.

Lemma addStyle_face url : preserves F face_kept (addStyle url).
Proof.
  unfold addStyle. apply preserves_bind; [apply loaded_preserves|].
  intros has. destruct has; [apply preserves_ret|].
  eapply hoare_bind; [apply document_createElement_fresh|].
  intros link. apply hoare_assume. intros Hlink.
  apply preserves_bind; [now apply set_reflected_face|]. intros _.
  apply preserves_bind; [now apply set_reflected_face|]. intros _.
  apply preserves_bind; [apply head_or_throw_preserves|]. intros head.
  apply preserves_bind; [apply appendChild_face|]. intros _.
  apply hoare_modify. intros st HI. exact HI.
Qed.

Lemma addStyles_face urls : preserves F face_kept (addStyles urls).
Proof.
  unfold addStyles, forEach_value.
  destruct urls; try apply preserves_throw.
  apply preserves_forEach. intros url. apply addStyle_face.
Qed.

Lemma addInlineStyle_face css : preserves F face_kept (addInlineStyle css).
Proof.
  unfold addInlineStyle.
  apply preserves_bind; [apply head_or_throw_preserves|]. intros head.
  apply preserves_bind; [apply get_state_preserves|]. intros s.
  cbv zeta. destruct (existsb _ _); [apply preserves_ret|].
  eapply hoare_bind; [apply document_createElement_fresh|].
  intros style. apply hoare_assume. intros Hstyle.
  destruct (text_data css) as [t|]; [|apply preserves_throw].
  apply preserves_bind.
  { destruct (String.eqb t ""); [apply preserves_ret|].
    apply preserves_bind; [apply alloc_face|]. intros n.
    apply appendChild_face. }
  intros _.
  apply preserves_bind; [apply head_or_throw_preserves|]. intros head'.
  apply appendChild_face.
Qed.

End StyleFaces.

Lemma attr_get_set_eq (l : list (string * string)) (k v : string) :
  attr_get (attr_set l k v) k = Some v.
Proof.
  induction l as [|[k' v'] l IH]; cbn [attr_set attr_get].
  - now rewrite String.eqb_refl.
  - destruct (String.eqb k' k) eqn:E; cbn [attr_get].
    + now rewrite String.eqb_refl.
    + now rewrite E.
Qed.

Lemma document_body_valid (h : list dnode) (body : nat) :
  document_body h = Some body -> is_Some (h !! body).
Proof.
  unfold document_body. destruct (documentElement h); [|discriminate].
  intros H. apply child_with_kind in H as (kn & -> & _). eauto.
Qed.

(** [cfg] and the theme, when the call returns with an object [ui] in the
    merged configuration.  If its [theme] is truthy, the body element
    carries the attribute [data-theme] with the string form of the theme.
    If it is falsy (an overlay [ui] without a theme replaces the whole
    default [ui]), no attribute of any node is touched: a theme set by an
    earlier call stays on the body. *)
Theorem cfg_applies_theme (overlay v : value) (st st' : state)
  (ui : list (string * value)) :
  cfg overlay st = Ok v st' ->
  obj_get (config st') "ui" = Some (VObj ui) ->
  (forall theme, obj_get ui "theme" = Some theme -> truthy theme = true ->
     exists body bn t,
       document_body (heap st) = Some body /\
       to_string theme = Some t /\
       heap st' !! body = Some bn /\
       attr_get (n_attrs bn) "data-theme" = Some t) /\
  (truthy (default VUndef (obj_get ui "theme")) = false ->
   forall y nd, heap st !! y = Some nd ->
                hface (heap st') y = Some (n_kind nd, n_attrs nd)).
Proof.
  intros H Hui. unfold cfg in H.
  apply bind_ok in H as ([] & s1 & H1 & H). cbn in H1. injection H1 as <-.
  set (s1 := set_config (object_assign st (config st) overlay) st) in *.
  apply bind_ok in H as (uiv & s1' & Hu & H). unfold config_field in Hu.
  injection Hu as <- <-.
  apply bind_ok in H as ([] & s2 & Ht & H).
  apply bind_ok in H as (style & s2' & Hs & H). unfold config_field in Hs.
  injection Hs as <- <-.
  apply bind_ok in H as ([] & s3 & Hst & H).
  apply bind_ok in H as (styles & s3' & Hss & H). unfold config_field in Hss.
  injection Hss as <- <-.
  apply bind_ok in H as ([] & s4 & Hsts & H).
  apply bind_ok in H as (inl & s4' & Hi & H). unfold config_field in Hi.
  injection Hi as <- <-.
  apply bind_ok in H as ([] & s5 & Hin & H). cbn in H. injection H as _ <-.
  assert (Hcfg : config s5 = config s1).
  { pose proof (config_stable (config s1)) as HS.
    assert (H2 : config s2 = config s1).
    { refine (preserves_ok True (fun s => config s = config s1)
                _ _ _ _ _ eq_refl Ht). pres. }
    assert (H3 : config s3 = config s1).
    { refine (preserves_ok True (fun s => config s = config s1)
                _ _ _ _ _ H2 Hst).
      pres_step; [|apply preserves_ret].
      eapply addStyle_preserves; [exact HS | exact Logic.I]. }
    assert (H4 : config s4 = config s1).
    { refine (preserves_ok True (fun s => config s = config s1)
                _ _ _ _ _ H3 Hsts).
      pres_step; [|apply preserves_ret].
      eapply addStyles_preserves; [exact HS | exact Logic.I]. }
    refine (preserves_ok True (fun s => config s = config s1)
              _ _ _ _ _ H4 Hin).
    pres_step; [|apply preserves_ret].
    eapply addInlineStyle_preserves;
      [exact HS | exact Logic.I | intros; exact Logic.I]. }
  assert (Htail : forall y fc, hface (heap s2) y = Some fc ->
                               hface (heap s5) y = Some fc).
  { intros y fc Hy.
    assert (H3 : hface (heap s3) y = Some fc).
    { refine (preserves_ok True (fun s => hface (heap s) y = Some fc)
                _ _ _ _ _ Hy Hst).
      pres_step; [apply addStyle_face | apply preserves_ret]. }
    assert (H4 : hface (heap s4) y = Some fc).
    { refine (preserves_ok True (fun s => hface (heap s) y = Some fc)
                _ _ _ _ _ H3 Hsts).
      pres_step; [apply addStyles_face | apply preserves_ret]. }
    refine (preserves_ok True (fun s => hface (heap s) y = Some fc)
              _ _ _ _ _ H4 Hin).
    pres_step; [apply addInlineStyle_face | apply preserves_ret]. }
  rewrite Hcfg in Hui.
  change (config s1) with (object_assign st (config st) overlay) in Hui.
  rewrite Hui in Ht.
  cbn [default from_option truthy] in Ht. unfold id in Ht.
  apply bind_ok in Ht as (theme & s1' & Hth & Ht). cbn in Hth.
  injection Hth as <- <-.
  split.
  - intros theme Htheme Htruthy. rewrite Htheme in Ht.
    cbn [default from_option] in Ht. unfold id in Ht. rewrite Htruthy in Ht.
    apply bind_ok in Ht as (body & s1' & Hb & Ht).
    unfold body_or_throw in Hb. change (heap s1) with (heap st) in Hb.
    destruct (document_body (heap st)) as [b|] eqn:Eb; [|discriminate].
    injection Hb as <- <-.
    destruct (document_body_valid _ _ Eb) as [bn0 Hbn0].
    unfold setAttribute in Ht.
    destruct (to_string theme) as [t|]; [|discriminate].
    destruct (valid_attr "data-theme"); [|discriminate].
    cbn in Ht. injection Ht as <-.
    specialize (Htail b (n_kind bn0, attr_set (n_attrs bn0) "data-theme" t)).
    unfold hface in Htail. cbn [heap set_heap] in Htail.
    rewrite list_lookup_alter_eq in Htail.
    change (heap s1) with (heap st) in Htail. rewrite Hbn0 in Htail.
    specialize (Htail eq_refl).
    destruct (heap s5 !! b) as [bn|] eqn:Ebn; [|discriminate].
    cbn in Htail. injection Htail as _ Ha.
    exists b, bn, t. split; [reflexivity|]. split; [reflexivity|].
    split; [exact Ebn|]. rewrite Ha. apply attr_get_set_eq.
  - intros Hfalsy y nd Hy. rewrite Hfalsy in Ht. cbn in Ht.
    injection Ht as <-. apply Htail. unfold hface.
    change (heap s1) with (heap st). now rewrite Hy.
Qed.

(** * Class names *)

(** What a projection of a node that ignores children and parent keeps
    its value under. *)
Section Views.

Context {X : Type}.
Variable view : dnode -> X.
Hypothesis view_kids : forall f n, view (with_kids f n) = view n.
Hypothesis view_parent : forall p n, view (with_parent p n) = view n.
Variable F : Prop.
Variable el : nat.
Variable x : X.

#[local] Abbreviation view_kept :=
  (fun s : state => view <$> heap s !! el = Some x).

Lemma alter_view (f : dnode -> dnode) (r : nat) (h : list dnode) :
  (forall n, view (f n) = view n) ->
  view <$> alter f r h !! el = view <$> h !! el.
Proof.
  intros Hf. rewrite list_lookup_alter.
  destruct (decide (r = el)) as [->|]; [|reflexivity].
  destruct (h !! el); cbn; [now rewrite Hf | reflexivity].
Qed.

Lemma detach_view (c : nat) (h : list dnode) :
  view <$> detach c h !! el = view <$> h !! el.
Proof.
  unfold detach. destruct (h !! c) as [n|]; [|reflexivity].
  destruct (n_parent n); [|reflexivity].
  rewrite !alter_view by auto. reflexivity.
Qed.

Lemma modify_alter_view (f : dnode -> dnode) (r : nat) :
  (forall n, view (f n) = view n) ->
  preserves F view_kept
    (modify (fun st => set_heap (alter f r (heap st)) st)).
Proof.
  intros Hf. apply hoare_modify. intros st HI. cbn [heap set_heap].
  now rewrite alter_view.
Qed.

Lemma appendChild_view parent child :
  preserves F view_kept (appendChild parent child).
Proof.
  intros st HI. destruct (appendChild parent child st) as [[] s|e s|] eqn:E.
  - destruct (appendChild_ok_node _ _ _ _ E) as [c ->].
    apply appendChild_ok in E as (-> & _). cbn [heap set_heap].
    rewrite !alter_view by auto. now rewrite detach_view.
  - apply appendChild_throw in E. now subst.
  - now apply appendChild_total in E.
Qed.

Lemma alloc_view n : preserves F view_kept (alloc n).
Proof.
  intros st HI. cbn. rewrite lookup_app_l; [exact HI|].
  destruct (heap st !! el) eqn:E; [|discriminate].
  eapply lookup_lt_Some, E.
Qed.

Lemma append_child_view element child :
  preserves F view_kept (append_child element child).
Proof.
  induction child as [v Hv|l IH] using value_nested_ind.
  - destruct v; cbn [append_child]; try (exfalso; eapply Hv; reflexivity);
      unfold document_createTextNode;
      pres; first [apply alloc_view | apply appendChild_view].
  - rewrite append_child_arr.
    induction IH as [|y l' Hy _ IHl]; cbn [forEach]; pres.
Qed.

End Views.

Lemma set_property_keeps_classes F (el element : nat) (cl : list string)
  (kv : string * value) :
  fst kv <> "class" ->
  preserves F (fun s => n_classes <$> heap s !! el = Some cl)
    (set_property element kv).
Proof.
  destruct kv as [k v]. cbn [fst]. intros Hk. unfold set_property.
  destruct (String.eqb_spec k "class") as [->|_]; [contradiction|].
  cbn [andb].
  destruct (String.eqb k "style" && String.eqb (typeof v) "object").
  - apply preserves_bind; [apply entries_or_throw_preserves|]. intros l.
    apply preserves_forEach. intros pv. unfold style_set.
    destruct (css_property (fst pv)); [|apply preserves_ret].
    destruct (match snd pv with VNull => Some "" | _ => to_string (snd pv) end);
      [|apply preserves_throw].
    now apply (modify_alter_view n_classes).
  - unfold setAttribute. destruct (to_string v); [|apply preserves_throw].
    destruct (valid_attr k); [|apply preserves_throw].
    now apply (modify_alter_view n_classes).
Qed.

(** The loop over a class object: the names with a truthy value are
    added, each once. *)
Lemma class_names_added (el : nat) (c : list (string * value)) :
  forall (cl : list string) (s s' : state),
    n_classes <$> heap s !! el = Some cl ->
    forEach (fun ce : string * value =>
               if truthy (snd ce) then classList_add el (fst ce)
               else ret tt) c s = Ok tt s' ->
    exists cl',
      n_classes <$> heap s' !! el = Some cl' /\
      (forall name, name ∈ cl' <->
                    name ∈ cl \/
                    exists val, (name, val) ∈ c /\ truthy val = true) /\
      (NoDup cl -> NoDup cl').
Proof.
  induction c as [|[name0 val0] c IH]; intros cl s s' Hcl H.
  - cbn in H. injection H as <-. exists cl. split; [exact Hcl|].
    split; [|auto]. intros name. split; [auto|].
    intros [Hin|(val & Hin & _)]; [exact Hin|].
    apply elem_of_nil in Hin. contradiction.
  - apply forEach_cons_ok in H as (s1 & H1 & H). cbn [fst snd] in H1.
    assert (Hstep : exists cl1,
              n_classes <$> heap s1 !! el = Some cl1 /\
              (forall name, name ∈ cl1 <->
                            name ∈ cl \/ (name = name0 /\ truthy val0 = true)) /\
              (NoDup cl -> NoDup cl1)).
    { destruct (truthy val0) eqn:Et.
      - unfold classList_add in H1.
        destruct (String.eqb name0 ""); [discriminate|].
        destruct (has_space name0); [discriminate|].
        cbn in H1. injection H1 as <-. cbn [heap set_heap].
        rewrite list_lookup_alter_eq.
        destruct (heap s !! el) as [nd|]; [|discriminate].
        cbn in Hcl |- *. injection Hcl as Hcl. rewrite Hcl.
        destruct (bool_decide (name0 ∈ cl)) eqn:Ein.
        + apply bool_decide_eq_true in Ein. exists cl.
          split; [reflexivity|]. split; [|auto].
          intros name. split; [auto|]. intros [?|[-> _]]; assumption.
        + apply bool_decide_eq_false in Ein. exists (cl ++ [name0]).
          split; [reflexivity|]. split.
          * intros name. rewrite elem_of_app, list_elem_of_singleton.
            intuition auto.
          * intros Hnd. apply NoDup_app. split; [exact Hnd|].
            split; [|apply NoDup_singleton].
            intros y Hy Hy'. apply list_elem_of_singleton in Hy'. now subst.
      - injection H1 as <-. exists cl. split; [exact Hcl|]. split; [|auto].
        intros name. split; [auto|]. intros [?|[_ ?]]; [assumption|discriminate]. }
    destruct Hstep as (cl1 & Hcl1 & Hin1 & Hnd1).
    destruct (IH cl1 s1 s' Hcl1 H) as (cl' & Hcl' & Hin' & Hnd').
    exists cl'. split; [exact Hcl'|]. split; [|auto].
    intros name. rewrite Hin', Hin1. split.
    + intros [[?|[-> Ht]]|(val & Hv & Ht)]; auto.
      * right. exists val0. split; [left|exact Ht].
      * right. exists val. split; [now right|exact Ht].
    + intros [?|(val & Hv & Ht)]; auto.
      apply elem_of_cons in Hv as [[= -> ->]|Hv]; [left; right; auto|].
      right. eauto.
Qed.

Lemma preserves_forEach_in {A} F (I : state -> Prop) (f : A -> M unit)
  (l : list A) :
  (forall y, y ∈ l -> preserves F I (f y)) -> preserves F I (forEach f l).
Proof.
  induction l as [|y l IH]; intros Hf; cbn [forEach].
  - apply preserves_ret.
  - apply preserves_bind; [apply Hf; left|]. intros _. apply IH.
    intros z Hz. apply Hf. now right.
Qed.

Lemma props_classes (el : nat) (o : list (string * value)) :
  forall (cl : list string) (s s' : state) (cv : value)
         (c : list (string * value)),
    NoDup (fst <$> o) ->
    n_classes <$> heap s !! el = Some cl ->
    forEach (set_property el) o s = Ok tt s' ->
    obj_get o "class" = Some cv ->
    cv = VObj c \/ (exists l, cv = VArr l /\ c = indexed 0 l) ->
    exists cl',
      n_classes <$> heap s' !! el = Some cl' /\
      (forall name, name ∈ cl' <->
                    name ∈ cl \/
                    exists val, (name, val) ∈ c /\ truthy val = true) /\
      (NoDup cl -> NoDup cl').
Proof.
  induction o as [|[k v] o IH]; intros cl s s' cv c Hnd Hcl H Hclass Hcv;
    [discriminate|].
  apply forEach_cons_ok in H as (s1 & H1 & H).
  cbn [fmap list_fmap fst] in Hnd. apply NoDup_cons in Hnd as [Hk Hnd].
  cbn [obj_get] in Hclass.
  destruct (String.eqb_spec k "class") as [->|Hne].
  - injection Hclass as ->.
    assert (Hloop : forEach (fun ce : string * value =>
                               if truthy (snd ce) then classList_add el (fst ce)
                               else ret tt) c s = Ok tt s1).
    { destruct Hcv as [->|(l & -> & ->)]; exact H1. }
    destruct (class_names_added el c cl s s1 Hcl Hloop)
      as (cl1 & Hcl1 & Hin1 & Hnd1).
    exists cl1. split; [|split; assumption].
    refine (preserves_ok True (fun s => n_classes <$> heap s !! el = Some cl1)
              _ _ _ _ _ Hcl1 H).
    apply preserves_forEach_in. intros [k' v'] Hin.
    apply set_property_keeps_classes. cbn [fst]. intros ->.
    apply Hk. apply list_elem_of_fmap. exists ("class", v'). auto.
  - assert (Hcl1 : n_classes <$> heap s1 !! el = Some cl).
    { refine (preserves_ok True (fun s => n_classes <$> heap s !! el = Some cl)
                _ _ _ _ _ Hcl H1).
      now apply set_property_keeps_classes. }
    exact (IH cl s1 s' cv c Hnd Hcl1 H Hclass Hcv).
Qed.

(** A build whose property bag (with lower-case keys) has [class] with an
    object or an array as its value: the class list of the new element
    holds exactly the keys whose value is truthy, each once.  For an
    array the keys are the indices, so [class: ["btn", "big"]] gives the
    classes [0] and [1]. *)
Theorem build_class_names ev (tag cv v : value) (o c : list (string * value))
  (children : list value) (st st' : state) :
  is_function tag = false ->
  Forall (fun kv => no_upper (fst kv) = true) o ->
  NoDup (fst <$> o) ->
  obj_get o "class" = Some cv ->
  cv = VObj c \/ (exists l, cv = VArr l /\ c = indexed 0 l) ->
  createElement ev tag (VObj o) children st = Ok v st' ->
  exists nd,
    v = VNode (length (heap st)) /\
    heap st' !! length (heap st) = Some nd /\
    NoDup (n_classes nd) /\
    forall name, name ∈ n_classes nd <->
                 exists val, (name, val) ∈ c /\ truthy val = true.
Proof.
  intros Hf _ Hnd Hclass Hcv E.
  assert (H : (register_template tag (VObj o) children ;;
     let! element := document_createElement tag in
     (if truthy (VObj o)
      then let! l := entries_or_throw (VObj o) in
           forEach (set_property element) l
      else ret tt) ;;
     forEach (append_child element) children ;;
     ret (VNode element)) st = Ok v st').
  { destruct tag; try exact E. discriminate. }
  clear E. apply bind_ok in H as ([] & s0 & H0 & H).
  pose proof (register_template_frame tag (VObj o) children st) as Hr.
  rewrite H0 in Hr. destruct Hr as (Hh0 & _ & _).
  apply bind_ok in H as (element & s1 & H1 & H).
  unfold document_createElement in H1.
  destruct (to_string tag) as [name|]; [|discriminate].
  destruct (valid_tag name); [|discriminate].
  cbn in H1. injection H1 as <- <-. rewrite Hh0 in H.
  apply bind_ok in H as ([] & s2 & H2 & H).
  change (truthy (VObj o)) with true in H2. cbv iota in H2.
  apply bind_ok in H2 as (l & s3 & Hl & H2).
  cbn in Hl. injection Hl as <- <-.
  edestruct (props_classes (length (heap st)) o [])
    as (cl & Hcl & Hin & Hndc); [exact Hnd | | exact H2 | exact Hclass
                                 | exact Hcv |].
  { cbn [heap set_heap]. rewrite list_lookup_middle by reflexivity.
    reflexivity. }
  apply bind_ok in H as ([] & s4 & H4 & H). cbn in H. injection H as <- <-.
  assert (Hcl4 : n_classes <$> heap s4 !! length (heap st) = Some cl).
  { refine (preserves_ok True
              (fun s => n_classes <$> heap s !! length (heap st) = Some cl)
              _ _ _ _ _ Hcl H4).
    apply preserves_forEach. intros child.
    now apply (append_child_view n_classes). }
  destruct (heap s4 !! length (heap st)) as [nd|]; [|discriminate].
  cbn in Hcl4. injection Hcl4 as <-.
  exists nd. split; [reflexivity|]. split; [reflexivity|].
  split; [apply Hndc; constructor|].
  intros cname. rewrite Hin. split; [|auto].
  intros [Hn|?]; [|assumption]. apply elem_of_nil in Hn. contradiction.
Qed.

(** * Text children *)

Lemma replace_inline_plain (g : gmap string value) (str : string) :
  is_substring "J{" str = false -> replace_inline g str None = Some str.
Proof.
  intros H. rewrite <- (append_nil_r str) at 1.
  rewrite (replace_inline_prefix g str "" H eq_refl). cbn.
  now rewrite append_nil_r.
Qed.

(** * Inline style sheets *)

Lemma first_some_app_Some {A B} (f : A -> option B) (l l' : list A) (y : B) :
  first_some f l = Some y -> first_some f (l ++ l') = Some y.
Proof.
  induction l as [|x l IH]; [discriminate|]. cbn [first_some app].
  destruct (f x); auto.
Qed.

Lemma first_some_ext {A B} (f g : A -> option B) (l : list A) :
  (forall x, f x = g x) -> first_some f l = first_some g l.
Proof.
  intros H. induction l as [|x l IH]; [reflexivity|].
  cbn [first_some]. now rewrite H, IH.
Qed.

(** Appending the node [c] to the node [q] does not change what
    [child_with] finds, for a test that looks at the kind of a node
    only. *)
Lemma child_with_appended (h : list dnode) (P : dnode -> bool) (r q c k : nat) :
  (forall n n', n_kind n = n_kind n' -> P n = P n') ->
  child_with h P r = Some k ->
  child_with (alter (with_parent (Some q)) c
                (alter (with_kids (fun l => l ++ [c])) q h)) P r = Some k.
Proof.
  intros HP H. unfold child_with in *.
  set (h' := alter (with_parent (Some q)) c
               (alter (with_kids (fun l => l ++ [c])) q h)).
  assert (Hkind : forall x, n_kind <$> h' !! x = n_kind <$> h !! x).
  { intros x. unfold h'. rewrite !(alter_view n_kind) by reflexivity.
    reflexivity. }
  assert (Hg : forall x,
             match h' !! x with
             | Some kn => if P kn then Some x else None
             | None => None
             end
             = match h !! x with
               | Some kn => if P kn then Some x else None
               | None => None
               end).
  { intros x. specialize (Hkind x).
    destruct (h' !! x) as [n'|], (h !! x) as [n|]; try discriminate;
      [|reflexivity].
    cbn in Hkind. injection Hkind as Hkind. now rewrite (HP _ _ Hkind). }
  destruct (h !! r) as [n|] eqn:Er; [|discriminate].
  assert (Hk : exists more, hkids h' r = Some (n_kids n ++ more)).
  { unfold h'. rewrite hkids_alter_keep by reflexivity. rewrite hkids_alter.
    destruct (decide (q = r)) as [->|].
    - rewrite Er. exists [c]. reflexivity.
    - unfold hkids. rewrite Er. exists []. cbn. now rewrite app_nil_r. }
  destruct Hk as (more & Hk). unfold hkids in Hk.
  destruct (h' !! r) as [n'|]; [|discriminate].
  cbn in Hk. injection Hk as ->.
  rewrite (first_some_ext _ _ _ Hg). now apply first_some_app_Some.
Qed.

Lemma document_head_appended (h : list dnode) (q c head : nat) :
  document_head h = Some head ->
  document_head (alter (with_parent (Some q)) c
                   (alter (with_kids (fun l => l ++ [c])) q h)) = Some head.
Proof.
  unfold document_head, documentElement.
  destruct (child_with h is_element document) as [e|] eqn:Ee; [|discriminate].
  intros H.
  rewrite (child_with_appended h is_element document q c e); [|
    intros n n' Hk; unfold is_element; now rewrite Hk | exact Ee].
  apply child_with_appended; [|exact H].
  intros n n' Hk. unfold tag_of. now rewrite Hk.
Qed.

Lemma addInlineStyle_found (css : string) (s : state) (head : nat) :
  document_head (heap s) = Some head ->
  existsb (fun x => value_eqb
                      (VStr (text_content (length (heap s)) (heap s) x))
                      (VStr css))
          (descendants_by_tag (length (heap s)) (heap s) "style" head) = true ->
  addInlineStyle (VStr css) s = Ok tt s.
Proof.
  intros Hh Hex. unfold addInlineStyle, bind, head_or_throw, get_state.
  rewrite Hh. cbv zeta. rewrite Hex. reflexivity.
Qed.

Lemma fresh_style_found (h : list dnode) (style head : nat) (css : string)
  (ks : list nat) :
  fresh_style h style css ->
  head <> style ->
  hkids h head = Some ks ->
  let h' := alter (with_parent (Some head)) style
              (alter (with_kids (fun l => l ++ [style])) head h) in
  existsb (fun x => value_eqb (VStr (text_content (length h') h' x)) (VStr css))
          (descendants_by_tag (length h') h' "style" head) = true.
Proof.
  intros (Hkind & Hpar & Hkids) Hne Hks h'.
  assert (Hk' : forall x, n_kind <$> h' !! x = n_kind <$> h !! x).
  { intros x. unfold h'. rewrite !(alter_view n_kind) by reflexivity.
    reflexivity. }
  assert (Hkids' : hkids h' style = hkids h style).
  { unfold h'. rewrite hkids_alter_keep by reflexivity.
    rewrite hkids_alter, decide_False by exact Hne. reflexivity. }
  assert (Hhead' : hkids h' head = Some (ks ++ [style])).
  { unfold h'. rewrite hkids_alter_keep by reflexivity.
    rewrite hkids_alter, decide_True by reflexivity.
    unfold hkids in Hks. destruct (h !! head); [|discriminate].
    cbn in *. now injection Hks as ->. }
  assert (Hlen : length h' = length h)
    by (unfold h'; now rewrite !length_alter).
  assert (Hstyle : exists sn, h' !! style = Some sn /\
                              n_kind sn = KElement "style" /\
                              hkids h style = Some (n_kids sn)).
  { specialize (Hk' style). rewrite Hkind in Hk'. rewrite <- Hkids'.
    unfold hkids. destruct (h' !! style) as [sn|]; [|discriminate].
    cbn in Hk'. injection Hk' as Hk'. eauto. }
  destruct Hstyle as (sn & Hsn & Hsk & Hskids).
  assert (Hlt : style < length h') by (eapply lookup_lt_Some, Hsn).
  apply existsb_exists. exists style. split.
  - destruct (length h') as [|f] eqn:El; [lia|].
    cbn [descendants_by_tag]. unfold hkids in Hhead'.
    destruct (h' !! head) as [hn|]; [|discriminate].
    cbn in Hhead'. injection Hhead' as ->.
    apply in_flat_map. exists style. split.
    + apply in_or_app. right. left. reflexivity.
    + rewrite Hsn. apply in_or_app. left.
      unfold tag_of. rewrite Hsk.
      rewrite bool_decide_eq_true_2 by reflexivity. left. reflexivity.
  - cbn [value_eqb]. apply String.eqb_eq.
    destruct (length h') as [|f] eqn:El; [lia|].
    cbn [text_content]. rewrite Hsn, Hsk.
    destruct Hkids as [[Hk ->]|[Hk Ht]]; rewrite Hk in Hskids;
      injection Hskids as <-; [reflexivity|].
    cbn [foldr]. rewrite append_nil_r.
    specialize (Hk' (S style)). rewrite Ht in Hk'.
    destruct (h' !! S style) as [tn|] eqn:Etn; [|discriminate].
    assert (S style < S f) by (rewrite <- El; eapply lookup_lt_Some, Etn).
    destruct f as [|f']; [lia|]. cbn [text_content]. rewrite Etn.
    cbn in Hk'. injection Hk' as ->. reflexivity.
Qed.

(** Once [addInlineStyle] has returned for a CSS text, calling it again
    with that text changes nothing: the [style] element made by the first
    call is found in the head, with the same text. *)
Theorem addInlineStyle_idempotent (css : string) (st st' : state) :
  addInlineStyle (VStr css) st = Ok tt st' ->
  addInlineStyle (VStr css) st' = Ok tt st'.
Proof.
  intros H. unfold addInlineStyle in H.
  apply bind_ok in H as (head & s0 & Hh & H). unfold head_or_throw in Hh.
  destruct (document_head (heap st)) as [hd|] eqn:Ehd; [|discriminate].
  injection Hh as <- <-.
  apply bind_ok in H as (s & s0 & Hg & H). injection Hg as <- <-.
  cbv zeta in H.
  destruct (existsb
              (fun x => value_eqb
                          (VStr (text_content (length (heap st)) (heap st) x))
                          (VStr css))
              (descendants_by_tag (length (heap st)) (heap st) "style" hd))
    eqn:Ex.
  { injection H as <-. now apply (addInlineStyle_found css st hd). }
  apply bind_ok in H as (style & s1 & Hs & H).
  unfold document_createElement in Hs.
  change (to_string (VStr "style")) with (Some "style") in Hs.
  cbv iota beta in Hs. destruct (valid_tag "style"); [|discriminate].
  change (lower "style") with "style" in Hs.
  cbn in Hs. injection Hs as <- <-.
  change (to_string (VStr css)) with (Some css) in H. cbv iota beta in H.
  apply bind_ok in H as ([] & s2 & Ht & H).
  apply bind_ok in H as (head' & s2' & Hh' & H). unfold head_or_throw in Hh'.
  destruct (document_head (heap s2)) as [hd'|] eqn:Ehd'; [|discriminate].
  injection Hh' as <- <-.
  set (style := length (heap st)) in *.
  assert (Hfresh : fresh_style (heap s2) style css).
  { destruct (String.eqb_spec css "") as [->|Hne].
    - injection Ht as <-. cbn [heap set_heap]. unfold fresh_style, hpar, hkids.
      rewrite list_lookup_middle by reflexivity. cbn. auto.
    - apply bind_ok in Ht as (t & s1' & Ha & Ht). cbn in Ha.
      injection Ha as <- <-.
      apply appendChild_detached in Ht as (-> & _).
      2:{ cbn [heap set_heap]. apply hpar_new. }
      cbn [heap set_heap]. rewrite length_app. cbn [length].
      replace (length (heap st) + 1) with (S style) by (unfold style; lia).
      set (h := (heap st ++ [new_node (KElement "style")])
                  ++ [new_node (KText css)]).
      assert (Hs : h !! style = Some (new_node (KElement "style"))).
      { unfold h. rewrite lookup_app_l by (rewrite length_app; cbn; lia).
        apply list_lookup_middle. reflexivity. }
      assert (Ht : h !! S style = Some (new_node (KText css))).
      { unfold h. apply list_lookup_middle. rewrite length_app. cbn.
        unfold style. lia. }
      unfold fresh_style. rewrite !(alter_view n_kind) by reflexivity.
      rewrite Hs, Ht. split; [reflexivity|].
      split.
      + rewrite hpar_alter, decide_False by lia.
        rewrite hpar_alter_keep by reflexivity. unfold hpar. now rewrite Hs.
      + right. split; [|reflexivity].
        rewrite hkids_alter_keep by reflexivity.
        rewrite hkids_alter, decide_True by reflexivity. now rewrite Hs. }
  apply appendChild_detached in H as (-> & Hne & Hlt & _);
    [|apply Hfresh].
  destruct (heap s2 !! hd') as [hn|] eqn:Ehn;
    [|apply lookup_ge_None in Ehn; lia].
  apply (addInlineStyle_found css _ hd').
  - cbn [heap set_heap]. now apply document_head_appended.
  - cbn [heap set_heap].
    apply (fresh_style_found (heap s2) style hd' css (n_kids hn));
      [exact Hfresh | congruence |]. unfold hkids. now rewrite Ehn.
Qed.

(** * Texts that only look like patterns *)

Lemma replace_inline_open (g : gmap string value) (s body : string) :
  has_close s = false ->
  replace_inline g s (Some body) = Some ("J{" +:+ body +:+ s).
Proof.
  revert body. induction s as [|a s IH]; intros body Hc.
  - cbn [replace_inline]. now rewrite append_nil_r.
  - cbn [has_close] in Hc. apply orb_false_iff in Hc as [Ha Hc].
    cbn [replace_inline]. rewrite Ha, (IH _ Hc), append_snoc. reflexivity.
Qed.

(** A pattern must be closed and must not be empty.  After a stretch
    without [J{]: an opening [J{] that no brace closes is copied as it is,
    with all that follows it, and nothing is evaluated; the empty pattern
    [J{}] is copied as it is and the scan goes on behind it. *)
Theorem replace_inline_no_pattern (g : gmap string value)
  (pre s post : string) :
  is_substring "J{" pre = false ->
  (has_close s = false ->
   replace_inline g (pre +:+ "J{" +:+ s) None = Some (pre +:+ "J{" +:+ s)) /\
  replace_inline g (pre +:+ "J{}" +:+ post) None
  = (fun u => pre +:+ "J{}" +:+ u) <$> replace_inline g post None.
Proof.
  intros Hpre. split.
  - intros Hc.
    rewrite (replace_inline_prefix g pre ("J{" +:+ s) Hpre eq_refl).
    change (replace_inline g ("J{" +:+ s) None)
      with (replace_inline g s (Some "")).
    rewrite (replace_inline_open g s "" Hc). reflexivity.
  - rewrite (replace_inline_prefix g pre ("J{}" +:+ post) Hpre eq_refl).
    change (replace_inline g ("J{}" +:+ post) None)
      with ((fun t => "J{}" +:+ t) <$> replace_inline g post None).
    destruct (replace_inline g post None); reflexivity.
Qed.

(** * The mount container is a registered template *)

(** A render pass that has to create the mount container builds it with
    [j("div", {id: "app"})], so when the pass returns the registry holds
    that empty template under [app] (re-rendering [app] would put an empty
    container in the place of the rendered page). *)
Theorem renderApp_registers_container (fuel : nat) (st st' : state)
  (route : string) (f : fn) (v : value) :
  selected_component st = Ok (route, VFun f) st ->
  live_node st "app" = None ->
  registry_get st (KStr "app") = RUndefined ->
  renderApp (j fuel) st = Ok v st' ->
  registry st' !! KStr "app"
  = Some (Descriptor (VStr "div") (VObj [("id", VStr "app")]) []).
Proof.
  intros Hsel Hlive Hreg H. unfold renderApp in H.
  apply bind_ok in H as (rc & s0 & Hsel' & H).
  rewrite Hsel in Hsel'. injection Hsel' as <- <-.
  cbn [fst snd] in H.
  change (String.eqb (typeof (VFun f)) "function") with true in H.
  cbn [negb] in H.
  apply bind_ok in H as (root & s3 & Hm & H).
  set (D := Descriptor (VStr "div") (VObj [("id", VStr "app")]) []).
  assert (Hs3 : registry s3 !! KStr "app" = Some D).
  { unfold mount_container in Hm.
    apply bind_ok in Hm as (found & s0 & Hf & Hm).
    rewrite getElementById_string, Hlive in Hf. injection Hf as <- <-.
    apply bind_ok in Hm as (vr & s1 & Hd & Hm).
    destruct fuel as [|fuel]; [discriminate|].
    pose proof (first_build_registers fuel (VStr "div") [("id", VStr "app")]
                  [] (VStr "app") (KStr "app") st eq_refl eq_refl eq_refl
                  eq_refl Hreg st eq_refl) as Hfirst.
    rewrite Hd in Hfirst.
    apply bind_ok in Hm as (body & s2 & Hb & Hm).
    unfold body_or_throw in Hb.
    destruct (document_body (heap s1)); [|discriminate].
    injection Hb as <- <-.
    apply bind_ok in Hm as ([] & s4 & Ha & Hm).
    destruct (appendChild_ok_node _ _ _ _ Ha) as [c ->].
    apply appendChild_ok in Ha as (-> & _).
    cbn in Hm. injection Hm as _ <-. exact Hfirst. }
  refine (preserves_ok True (fun s => registry s !! KStr "app" = Some D)
            _ _ _ _ _ Hs3 H).
  apply (fill_container_preserves (fun _ => True) _ (fun _ => True)).
  - apply registry_stable.
  - exact Logic.I.
  - exact Logic.I.
  - intros; exact Logic.I.
  - intros args _. apply registry_entry_kept.
Qed.

(** * Loading a list of style sheets *)




(** * The control tokens of [j] *)

Lemma dispatch_builds jrec (args : list value) :
  builds args = true ->
  dispatch jrec args
  = createElement (eval_expr jrec) (default VUndef (args !! 0))
      (default VUndef (args !! 1)) (drop 2 args).
Proof.
  unfold builds, dispatch. cbv zeta.
  intros Hb. apply andb_prop in Hb as [Hb _].
  apply andb_prop in Hb as [Hb H3]. apply andb_prop in Hb as [H1 H2].
  apply negb_true_iff in H1, H2, H3. now rewrite H1, H2, H3.
Qed.

Lemma set_property_kind F (el element : nat) (k : node_kind)
  (kv : string * value) :
  preserves F (fun s => n_kind <$> heap s !! el = Some k)
    (set_property element kv).
Proof.
  destruct kv as [key v]. unfold set_property.
  destruct (String.eqb key "class" && String.eqb (typeof v) "object").
  { apply preserves_bind; [apply entries_or_throw_preserves|]. intros l.
    apply preserves_forEach. intros ce.
    destruct (truthy (snd ce)); [|apply preserves_ret].
    unfold classList_add.
    destruct (String.eqb (fst ce) ""); [apply preserves_throw|].
    destruct (has_space (fst ce)); [apply preserves_throw|].
    now apply (modify_alter_view n_kind). }
  destruct (String.eqb key "style" && String.eqb (typeof v) "object").
  - apply preserves_bind; [apply entries_or_throw_preserves|]. intros l.
    apply preserves_forEach. intros pv. unfold style_set.
    destruct (css_property (fst pv)); [|apply preserves_ret].
    destruct (match snd pv with VNull => Some "" | _ => to_string (snd pv) end);
      [|apply preserves_throw].
    now apply (modify_alter_view n_kind).
  - unfold setAttribute. destruct (to_string v); [|apply preserves_throw].
    destruct (valid_attr key); [|apply preserves_throw].
    now apply (modify_alter_view n_kind).
Qed.

(** What the builder creates for a tag that is no function: one element,
    the next node of the store, named by the lower-case string form of the
    tag. *)
Lemma createElement_names ev (tag props : value) (children : list value)
  (st st' : state) (v : value) :
  is_function tag = false ->
  createElement ev tag props children st = Ok v st' ->
  exists name,
    to_string tag = Some name /\ valid_tag name = true /\
    v = VNode (length (heap st)) /\
    n_kind <$> heap st' !! length (heap st) = Some (KElement (lower name)).
Proof.
  intros Hfun H.
  assert (E : createElement ev tag props children
              = (register_template tag props children ;;
                 let! element := document_createElement tag in
                 (if truthy props then
                    let! l := entries_or_throw props in
                    forEach (set_property element) l
                  else ret tt) ;;
                 forEach (append_child element) children ;;
                 ret (VNode element))).
  { destruct tag; try reflexivity. discriminate Hfun. }
  rewrite E in H. clear E.
  apply bind_ok in H as ([] & s0 & H0 & H).
  pose proof (register_template_frame tag props children st) as Hf.
  rewrite H0 in Hf. destruct Hf as (Hh0 & _ & _).
  apply bind_ok in H as (el & s1 & H1 & H).
  unfold document_createElement in H1.
  destruct (to_string tag) as [name|]; [|discriminate H1].
  destruct (valid_tag name) eqn:Hvalid; [|discriminate H1].
  cbn in H1. injection H1 as <- <-. rewrite Hh0 in H.
  exists name. split; [reflexivity|]. split; [exact Hvalid|].
  set (m := length (heap st)) in *.
  set (K := fun s : state =>
              n_kind <$> heap s !! m = Some (KElement (lower name))).
  apply bind_ok in H as ([] & s2 & H2 & H).
  assert (K1 : K (set_heap (heap st ++ [new_node (KElement (lower name))]) s0)).
  { unfold K. cbn [heap set_heap]. now rewrite list_lookup_middle. }
  assert (K2 : K s2).
  { refine (preserves_ok True K _ _ _ _ _ K1 H2).
    destruct (truthy props); [|apply preserves_ret].
    apply preserves_bind; [apply entries_or_throw_preserves|]. intros l.
    apply preserves_forEach. intros kv. apply set_property_kind. }
  apply bind_ok in H as ([] & s3 & H3 & H). cbn in H. injection H as <- <-.
  split; [reflexivity|].
  refine (preserves_ok True K _ _ _ _ _ K2 H3).
  apply preserves_forEach. intros c. now apply (append_child_view n_kind).
Qed.

Lemma cfg_creates_style_nodes (overlay : value) (st st' : state) :
  final_state (cfg overlay st) = Some st' ->
  forall y nd, length (heap st) <= y -> heap st' !! y = Some nd ->
               style_kind (n_kind nd).
Proof.
  set (m := length (heap st)).
  set (K := fun s : state =>
              forall y nd, m <= y -> heap s !! y = Some nd ->
                           style_kind (n_kind nd)).
  assert (HS : stable style_kind K).
  { split.
    - intros s k Hk HK y nd Hy Hnd. cbn [heap set_heap] in Hnd.
      apply lookup_app_Some in Hnd as [Hnd|[_ Hnd]]; [now apply (HK y)|].
      apply list_lookup_singleton_Some in Hnd as [_ <-]. exact Hk.
    - intros s r f Hf HK y nd Hy Hnd. cbn [heap set_heap] in Hnd.
      rewrite list_lookup_alter in Hnd.
      destruct (decide (r = y)) as [->|]; [|now apply (HK y)].
      destruct (heap s !! y) as [n0|] eqn:E; [|discriminate Hnd].
      cbn in Hnd. injection Hnd as <-. rewrite Hf. now apply (HK y).
    - intros s l HK. exact HK.
    - intros s l HK. exact HK. }
  assert (Hpres : preserves True K (cfg overlay)).
  { apply (cfg_preserves style_kind K HS).
    - intros d. right. right. now exists d.
    - now left.
    - right. now left.
    - intros s c HK. exact HK. }
  intros Hfin. specialize (Hpres st).
  destruct (cfg overlay st) as [v s|e s|]; [| |discriminate Hfin];
    cbn in Hfin; injection Hfin as <-; apply Hpres;
    intros y nd Hy Hnd; apply lookup_lt_Some in Hnd; unfold m in Hy; lia.
Qed.

(** C10 (as the code has it): a call of [j] whose first argument is one
    of the strings [cfg], [render], [rcmp] is the configuration, the full
    render, the partial re-render, and not a build; the configuration
    adds nothing to the document but the nodes of style sheets.  Every
    other call whose first argument is no function is a build: when it
    returns, it has created one element, named by the lower-case string
    form of the first argument. *)
Theorem control_tokens_shadowed (fuel : nat) (args : list value) (st : state) :
  (forall rest, args = VStr "cfg" :: rest ->
     j (S fuel) args st = cfg (default VUndef (rest !! 0)) st /\
     forall st' y nd,
       final_state (j (S fuel) args st) = Some st' ->
       length (heap st) <= y -> heap st' !! y = Some nd ->
       style_kind (n_kind nd)) /\
  (forall rest, args = VStr "render" :: rest ->
     j (S fuel) args st = renderApp (j fuel) st) /\
  (forall rest, args = VStr "rcmp" :: rest ->
     j (S fuel) args st = rcmp (j fuel) (default VUndef (rest !! 0)) st) /\
  (forall v st', builds args = true -> j (S fuel) args st = Ok v st' ->
     exists name,
       to_string (default VUndef (args !! 0)) = Some name /\
       valid_tag name = true /\
       v = VNode (length (heap st)) /\
       n_kind <$> heap st' !! length (heap st)
       = Some (KElement (lower name))).
Proof.
  split.
  { intros rest ->. split; [reflexivity|]. intros st' y nd Hfin.
    change (j (S fuel) (VStr "cfg" :: rest) st)
      with (cfg (default VUndef (rest !! 0)) st) in Hfin.
    now apply (cfg_creates_style_nodes _ _ _ Hfin). }
  split; [|split]; try (intros rest ->; reflexivity).
  intros v st' Hb H. cbn [j] in H. rewrite dispatch_builds in H by exact Hb.
  apply createElement_names in H; [exact H|].
  unfold builds in Hb. cbv zeta in Hb. apply andb_prop in Hb as [_ Hb].
  now apply negb_true_iff in Hb.
Qed.

(** * When [cfg] returns *)

Lemma bind_eq {A B} (m : M A) (k : A -> M B) (st s1 : state) (a : A) :
  m st = Ok a s1 -> bind m k st = k a s1.
Proof. intros H. unfold bind. now rewrite H. Qed.

Lemma bind_ret {A B} (a : A) (k : A -> M B) (st : state) :
  bind (ret a) k st = k a st.
Proof. reflexivity. Qed.

Lemma bind_get_state {B} (k : state -> M B) (st : state) :
  bind get_state k st = k st st.
Proof. reflexivity. Qed.

Lemma bind_modify {B} (f : state -> state) (k : unit -> M B) (st : state) :
  bind (modify f) k st = k tt (f st).
Proof. reflexivity. Qed.

Lemma bind_config_field {B} (name : string) (k : value -> M B) (st : state) :
  bind (config_field name) k st
  = k (default VUndef (obj_get (config st) name)) st.
Proof. reflexivity. Qed.

Lemma closed_parents_app (h : list dnode) (n : dnode) :
  closed_parents h ->
  match n_parent n with Some q => q < S (length h) | None => True end ->
  closed_parents (h ++ [n]).
Proof.
  unfold closed_parents. intros Hh Hn. rewrite length_app. cbn [length].
  apply Forall_app. split.
  - eapply Forall_impl; [exact Hh|]. cbn. intros nd Hnd.
    destruct (n_parent nd); [lia | exact Logic.I].
  - constructor; [|constructor]. destruct (n_parent n); [lia | exact Logic.I].
Qed.

Lemma closed_kids_app (h : list dnode) (n : dnode) :
  closed_kids h -> Forall (fun k => k < S (length h)) (n_kids n) ->
  closed_kids (h ++ [n]).
Proof.
  unfold closed_kids. intros Hh Hn. rewrite length_app. cbn [length].
  apply Forall_app. split.
  - eapply Forall_impl; [exact Hh|]. cbn. intros nd Hnd.
    eapply Forall_impl; [exact Hnd|]. cbn. intros k Hk. lia.
  - constructor; [|constructor].
    eapply Forall_impl; [exact Hn|]. cbn. intros k Hk. lia.
Qed.

Lemma closed_parents_alter (f : dnode -> dnode) (r : nat) (h : list dnode) :
  (forall n, n_parent (f n) = n_parent n \/
             exists q, n_parent (f n) = Some q /\ q < length h) ->
  closed_parents h -> closed_parents (alter f r h).
Proof.
  unfold closed_parents. intros Hf Hh. rewrite length_alter.
  apply Forall_alter; [exact Hh|]. intros n _ Hn.
  destruct (Hf n) as [->|(q & -> & Hq)]; [exact Hn | exact Hq].
Qed.

Lemma closed_kids_alter (f : dnode -> dnode) (r : nat) (h : list dnode) :
  (forall n, n_kids (f n) = n_kids n \/
             exists c, n_kids (f n) = n_kids n ++ [c] /\ c < length h) ->
  closed_kids h -> closed_kids (alter f r h).
Proof.
  unfold closed_kids. intros Hf Hh. rewrite length_alter.
  apply Forall_alter; [exact Hh|]. intros n _ Hn.
  destruct (Hf n) as [->|(c & -> & Hc)]; [exact Hn|].
  apply Forall_app. split; [exact Hn|]. constructor; [exact Hc | constructor].
Qed.

Lemma child_with_app (h : list dnode) (P : dnode -> bool) (r k : nat)
  (n : dnode) :
  closed_kids h -> child_with h P r = Some k ->
  child_with (h ++ [n]) P r = Some k.
Proof.
  unfold child_with. intros Hck H.
  destruct (h !! r) as [nd|] eqn:Er; [|discriminate H].
  rewrite (lookup_app_l_Some _ _ _ _ Er).
  unfold closed_kids in Hck. rewrite Forall_lookup in Hck.
  specialize (Hck r nd Er). revert H.
  induction Hck as [|x l Hx _ IH]; [discriminate|].
  cbn [first_some]. rewrite (lookup_app_l h [n] x Hx).
  destruct (h !! x) as [kn|]; [destruct (P kn); [auto|]|]; exact IH.
Qed.

Lemma document_head_app (h : list dnode) (hd : nat) (n : dnode) :
  closed_kids h -> document_head h = Some hd ->
  document_head (h ++ [n]) = Some hd.
Proof.
  unfold document_head, documentElement. intros Hck H.
  destruct (child_with h is_element document) as [e|] eqn:Ee;
    [|discriminate H].
  rewrite (child_with_app h is_element document e n Hck Ee).
  now apply child_with_app.
Qed.

Lemma child_with_cosmetic (h : list dnode) (P : dnode -> bool) (x r : nat)
  (f : dnode -> dnode) :
  (forall n n', n_kind n = n_kind n' -> P n = P n') ->
  (forall n, n_kind (f n) = n_kind n) -> (forall n, n_kids (f n) = n_kids n) ->
  child_with (alter f r h) P x = child_with h P x.
Proof.
  intros HP Hkind Hkids. unfold child_with.
  assert (Hg : forall y,
             match alter f r h !! y with
             | Some kn => if P kn then Some y else None
             | None => None
             end
             = match h !! y with
               | Some kn => if P kn then Some y else None
               | None => None
               end).
  { intros y. rewrite list_lookup_alter.
    destruct (decide (r = y)) as [->|]; [|reflexivity].
    destruct (h !! y) as [kn|]; [|reflexivity]. cbn.
    now rewrite (HP (f kn) kn (Hkind kn)). }
  rewrite list_lookup_alter.
  destruct (decide (r = x)) as [->|].
  - destruct (h !! x) as [nd|]; [|reflexivity]. cbn. rewrite Hkids.
    now apply first_some_ext.
  - destruct (h !! x) as [nd|]; [|reflexivity]. now apply first_some_ext.
Qed.

Lemma document_head_cosmetic (h : list dnode) (r : nat) (f : dnode -> dnode) :
  (forall n, n_kind (f n) = n_kind n) -> (forall n, n_kids (f n) = n_kids n) ->
  document_head (alter f r h) = document_head h.
Proof.
  intros Hkind Hkids. unfold document_head, documentElement.
  rewrite child_with_cosmetic; [| |exact Hkind|exact Hkids].
  2:{ intros n n' E. unfold is_element. now rewrite E. }
  destruct (child_with h is_element document) as [e|]; [|reflexivity].
  apply child_with_cosmetic; [|exact Hkind|exact Hkids].
  intros n n' E. unfold tag_of. now rewrite E.
Qed.

(** Appending a parentless node that is newer than its parent-to-be, when
    the parents of the older nodes are older. *)
Lemma appendChild_new_ok (parent c : nat) (st : state) (pn cn : dnode) :
  heap st !! parent = Some pn -> heap st !! c = Some cn ->
  is_element pn = true -> is_document cn = false -> n_parent cn = None ->
  parent < c ->
  (forall y nd q, y < c -> heap st !! y = Some nd -> n_parent nd = Some q ->
                  q < c) ->
  appendChild parent (VNode c) st
  = Ok tt (set_heap (alter (with_parent (Some parent)) c
                       (alter (with_kids (fun l => l ++ [c])) parent
                          (heap st))) st).
Proof.
  intros Hp Hc Hpe Hcd Hcp Hlt Hold. unfold appendChild. cbv zeta.
  rewrite Hp, Hc.
  assert (Ht : is_text pn = false).
  { unfold is_text, is_element in *. destruct (n_kind pn); congruence. }
  assert (Hd : is_document pn = false).
  { unfold is_document, is_element in *. destruct (n_kind pn); congruence. }
  rewrite Ht, Hcd, (no_new_ancestor _ _ c parent Hlt Hold), Hd.
  cbn [orb andb]. unfold detach. rewrite Hc, Hcp. reflexivity.
Qed.

Lemma headed_lt (hd : nat) (st : state) :
  headed hd st ->
  hd < length (heap st) /\
  exists pn, heap st !! hd = Some pn /\ is_element pn = true.
Proof.
  intros (_ & _ & Hhd). apply document_head_kind in Hhd.
  destruct (heap st !! hd) as [pn|] eqn:E; [|discriminate Hhd].
  split; [eapply lookup_lt_Some, E|]. exists pn. split; [reflexivity|].
  cbn in Hhd. injection Hhd as Hk. unfold is_element. now rewrite Hk.
Qed.

Lemma closed_old (h : list dnode) (m : nat) :
  closed_parents h -> m = length h ->
  forall y nd q, y < m -> h !! y = Some nd -> n_parent nd = Some q -> q < m.
Proof.
  intros Hcp -> y nd q _ Hy Hq. eapply closed_parents_lookup; eassumption.
Qed.

Lemma set_reflected_str (el : nat) (name s : string) (st : state) :
  set_reflected el name (VStr s) st
  = Ok tt (set_heap (alter (with_attrs (fun l => attr_set l name s)) el
                       (heap st)) st).
Proof. reflexivity. Qed.

(** [addStyle] with a URL string on a document that has a head returns,
    and the document still has that head. *)
Lemma addStyle_total (hd : nat) (url : string) (st : state) :
  valid_tag "link" = true -> headed hd st ->
  exists st', addStyle (VStr url) st = Ok tt st' /\ headed hd st' /\
              config st' = config st.
Proof.
  intros Hlink Hst. unfold addStyle. unfold bind at 1. unfold loaded.
  destruct (existsb (value_eqb (VStr url)) (loadedStyles st)).
  { exists st. split; [reflexivity|]. split; [exact Hst | reflexivity]. }
  destruct (headed_lt hd st Hst) as (Hlt & pn & Hpn & Hpe).
  destruct Hst as (Hcp & Hck & Hhd).
  rewrite (bind_eq _ _ st
             (set_heap (heap st ++ [new_node (KElement "link")]) st)
             (length (heap st))).
  2:{ unfold document_createElement.
      change (to_string (VStr "link")) with (Some "link"). cbv iota beta.
      rewrite Hlink. reflexivity. }
  rewrite (bind_eq _ _ _ _ _ (set_reflected_str _ _ _ _)).
  rewrite (bind_eq _ _ _ _ _ (set_reflected_str _ _ _ _)).
  cbn [heap set_heap]. rewrite !alter_new.
  change (with_attrs _ (with_attrs _ (new_node (KElement "link"))))
    with (link_node url None).
  set (h1 := heap st ++ [link_node url None]).
  assert (Hcp1 : closed_parents h1) by (now apply closed_parents_app).
  assert (Hck1 : closed_kids h1) by (apply closed_kids_app; [exact Hck | constructor]).
  assert (Hhd1 : document_head h1 = Some hd) by (now apply document_head_app).
  unfold bind at 1. unfold head_or_throw. cbn [heap set_heap]. rewrite Hhd1.
  unfold bind at 1.
  rewrite (appendChild_new_ok hd (length (heap st)) _ pn (link_node url None)).
  2:{ cbn [heap set_heap]. unfold h1. now rewrite lookup_app_l. }
  2:{ cbn [heap set_heap]. unfold h1. now rewrite list_lookup_middle. }
  2:{ exact Hpe. }
  2:{ reflexivity. }
  2:{ reflexivity. }
  2:{ exact Hlt. }
  2:{ cbn [heap set_heap]. intros y nd q Hy Hnd Hq. unfold h1 in Hnd.
      rewrite lookup_app_l in Hnd by exact Hy.
      eapply closed_parents_lookup; eassumption. }
  cbn [heap set_heap modify]. eexists. split; [reflexivity|].
  assert (Hlen : length h1 = S (length (heap st))).
  { unfold h1. rewrite length_app. cbn. lia. }
  split; [|reflexivity]. unfold headed.
  cbn [heap set_heap set_loadedStyles].
  split.
  { apply closed_parents_alter.
    - intros n. right. exists hd. split; [reflexivity|].
      rewrite length_alter. lia.
    - apply closed_parents_alter; [|exact Hcp1]. intros n. now left. }
  split.
  { apply closed_kids_alter; [intros n; now left|].
    apply closed_kids_alter; [|exact Hck1].
    intros n. right. eexists. split; [reflexivity|]. lia. }
  now apply document_head_appended.
Qed.

Lemma addStyles_total (hd : nat) (urls : list string) (st : state) :
  valid_tag "link" = true -> headed hd st ->
  exists st', addStyles (VArr (VStr <$> urls)) st = Ok tt st' /\
              headed hd st' /\ config st' = config st.
Proof.
  intros Hlink. unfold addStyles, forEach_value. revert st.
  induction urls as [|u urls IH]; intros st Hst.
  - exists st. split; [reflexivity|]. split; [exact Hst | reflexivity].
  - cbn [fmap list_fmap forEach].
    destruct (addStyle_total hd u st Hlink Hst) as (s1 & H1 & Hs1 & Hc1).
    rewrite (bind_eq _ _ _ _ _ H1).
    destruct (IH s1 Hs1) as (s2 & H2 & Hs2 & Hc2).
    exists s2. split; [exact H2|]. split; [exact Hs2 | congruence].
Qed.

(** [addInlineStyle] with a CSS string on a document that has a head
    returns. *)
Lemma addInlineStyle_total (hd : nat) (css : string) (st : state) :
  valid_tag "style" = true -> headed hd st ->
  exists st', addInlineStyle (VStr css) st = Ok tt st' /\
              config st' = config st.
Proof.
  intros Hstyle Hst. unfold addInlineStyle.
  destruct (headed_lt hd st Hst) as (Hlt & pn & Hpn & Hpe).
  destruct Hst as (Hcp & Hck & Hhd).
  rewrite (bind_eq _ _ st st hd).
  2:{ unfold head_or_throw. now rewrite Hhd. }
  rewrite bind_get_state. cbv zeta.
  destruct (existsb _ _).
  { exists st. split; reflexivity. }
  set (m := length (heap st)).
  set (h1 := heap st ++ [new_node (KElement "style")]).
  rewrite (bind_eq _ _ st (set_heap h1 st) m).
  2:{ unfold document_createElement.
      change (to_string (VStr "style")) with (Some "style"). cbv iota beta.
      rewrite Hstyle. reflexivity. }
  change (text_data (VStr css)) with (Some css). cbv iota beta.
  assert (Hcp1 : closed_parents h1) by (now apply closed_parents_app).
  assert (Hck1 : closed_kids h1)
    by (apply closed_kids_app; [exact Hck | constructor]).
  assert (Hhd1 : document_head h1 = Some hd) by (now apply document_head_app).
  assert (Hlen1 : length h1 = S m).
  { unfold h1. rewrite length_app. cbn. unfold m. lia. }
  assert (Htext :
    exists s2,
      (if String.eqb css "" then ret tt
       else let! t := document_createTextNode css in
            appendChild m (VNode t)) (set_heap h1 st) = Ok tt s2 /\
      config s2 = config st /\
      document_head (heap s2) = Some hd /\
      (forall y, y < m -> heap s2 !! y = heap st !! y) /\
      exists cn, heap s2 !! m = Some cn /\ is_document cn = false /\
                 n_parent cn = None).
  { destruct (String.eqb css "").
    - eexists. split; [reflexivity|]. cbn [heap set_heap config].
      split; [reflexivity|]. split; [exact Hhd1|].
      split; [intros y Hy; unfold h1; now rewrite lookup_app_l|].
      eexists. split; [unfold h1; now rewrite list_lookup_middle|].
      split; reflexivity.
    - set (h2 := h1 ++ [new_node (KText css)]).
      rewrite (bind_eq _ _ (set_heap h1 st) (set_heap h2 (set_heap h1 st))
                 (S m)).
      2:{ unfold document_createTextNode, alloc. cbn [heap set_heap].
          now rewrite Hlen1. }
      rewrite (appendChild_new_ok m (S m) _ (new_node (KElement "style"))
                 (new_node (KText css))).
      2:{ cbn [heap set_heap]. unfold h2, h1.
          rewrite lookup_app_l by (rewrite length_app; cbn; unfold m; lia).
          now rewrite list_lookup_middle. }
      2:{ cbn [heap set_heap]. unfold h2.
          now rewrite list_lookup_middle. }
      2:{ reflexivity. }
      2:{ reflexivity. }
      2:{ reflexivity. }
      2:{ lia. }
      2:{ cbn [heap set_heap]. intros y nd q Hy Hnd Hq. unfold h2 in Hnd.
          rewrite lookup_app_l in Hnd by lia.
          pose proof (closed_parents_lookup _ _ _ _ Hcp1 Hnd Hq). lia. }
      eexists. split; [reflexivity|]. cbn [heap set_heap config].
      split; [reflexivity|].
      split.
      { apply document_head_appended. unfold h2.
        now apply document_head_app. }
      split.
      { intros y Hy. rewrite !list_lookup_alter_ne by lia.
        unfold h2, h1. rewrite !lookup_app_l; [reflexivity| |].
        - fold m. lia.
        - rewrite length_app. cbn. fold m. lia. }
      eexists. split.
      { rewrite list_lookup_alter_ne by lia. rewrite list_lookup_alter_eq.
        unfold h2, h1.
        rewrite lookup_app_l by (rewrite length_app; cbn; fold m; lia).
        rewrite list_lookup_middle by reflexivity. reflexivity. }
      split; reflexivity. }
  destruct Htext as (s2 & H2 & Hc2 & Hhd2 & Hold2 & cn & Hcn & Hcd & Hcp2).
  rewrite (bind_eq _ _ _ _ _ H2).
  rewrite (bind_eq _ _ s2 s2 hd).
  2:{ unfold head_or_throw. now rewrite Hhd2. }
  rewrite (appendChild_new_ok hd m s2 pn cn).
  - eexists. split; [reflexivity|]. exact Hc2.
  - rewrite Hold2 by exact Hlt. exact Hpn.
  - exact Hcn.
  - exact Hpe.
  - exact Hcd.
  - exact Hcp2.
  - exact Hlt.
  - intros y nd q Hy Hnd Hq. rewrite Hold2 in Hnd by exact Hy.
    eapply closed_parents_lookup; eassumption.
Qed.

Lemma string_or_falsy_cases (v : value) :
  string_or_falsy v = true -> truthy v = true -> exists s, v = VStr s.
Proof.
  destruct v; cbn; intros H Ht; try discriminate H; try discriminate Ht;
    try (rewrite Ht in H; discriminate H).
  now eexists.
Qed.

Lemma setAttribute_headed (hd el : nat) (name s : string) (st : state) :
  valid_attr name = true -> headed hd st ->
  exists st', setAttribute el name (VStr s) st = Ok tt st' /\
              headed hd st' /\ config st' = config st.
Proof.
  intros Hname (Hcp & Hck & Hhd). unfold setAttribute.
  change (to_string (VStr s)) with (Some s). cbv iota beta. rewrite Hname.
  eexists. split; [reflexivity|]. split; [|reflexivity].
  unfold headed. cbn [heap set_heap].
  split; [apply closed_parents_alter; [intros n; now left | exact Hcp]|].
  split; [apply closed_kids_alter; [intros n; now left | exact Hck]|].
  rewrite document_head_cosmetic; [exact Hhd | reflexivity | reflexivity].
Qed.

(** On a document that has a head and a body, with a host that accepts
    the names [cfg] uses and a merged configuration of the documented
    shape, [cfg] returns the instance. *)
Lemma cfg_returns (st : state) (o : list (string * value)) :
  NoDup (fst <$> o) ->
  valid_tag "link" = true -> valid_tag "style" = true ->
  valid_attr "data-theme" = true ->
  well_formed st -> well_shaped (overlaid o (config st)) = true ->
  exists st', cfg (VObj o) st = Ok VInstance st'.
Proof.
  intros Hnd Hlink Hstyle Htheme (Hcp & Hck & [hd Hhd] & [bd Hbd]) Hshape.
  set (c := object_assign st (config st) (VObj o)).
  assert (Hc : forall k, obj_get c k = overlaid o (config st) k).
  { intros k. unfold c, overlaid. apply obj_get_assign, Hnd. }
  unfold well_shaped in Hshape. rewrite <- !Hc in Hshape.
  apply andb_prop in Hshape as [Hshape Hinl].
  apply andb_prop in Hshape as [Hshape Hstyles].
  apply andb_prop in Hshape as [Hui Hsty].
  unfold cfg. rewrite bind_modify. fold c.
  set (s1 := set_config c st).
  assert (Hs1 : headed hd s1) by (repeat split; assumption).
  rewrite bind_config_field. change (config s1) with c.
  assert (Hstep1 : exists s2,
    (if truthy (default VUndef (obj_get c "ui"))
     then let! theme := get_field (default VUndef (obj_get c "ui")) "theme" in
          if truthy theme
          then let! body := body_or_throw in
               setAttribute body "data-theme" theme
          else ret tt
     else ret tt) s1 = Ok tt s2 /\ headed hd s2 /\ config s2 = c).
  { destruct (obj_get c "ui") as [ui|]; cbn [default from_option];
      [|exists s1; split; [reflexivity|]; split; [exact Hs1 | reflexivity]].
    unfold id.
    destruct (truthy ui) eqn:Eui;
      [|exists s1; split; [reflexivity|]; split; [exact Hs1 | reflexivity]].
    destruct ui as [| |b|z|x|x|l|u|g|r|]; cbn in Hui;
      try discriminate Hui.
    cbn [get_field]. rewrite bind_ret.
    destruct (truthy (default VUndef (obj_get u "theme"))) eqn:Et;
      [|exists s1; split; [reflexivity|]; split; [exact Hs1 | reflexivity]].
    destruct (string_or_falsy_cases _ Hui Et) as [t ->].
    rewrite (bind_eq _ _ s1 s1 bd).
    2:{ unfold body_or_throw. cbn [heap s1 set_config]. now rewrite Hbd. }
    destruct (setAttribute_headed hd bd "data-theme" t s1 Htheme Hs1)
      as (s2 & H2 & Hh2 & Hc2).
    exists s2. split; [exact H2|]. split; [exact Hh2 | exact Hc2]. }
  destruct Hstep1 as (s2 & H2 & Hs2 & Hc2).
  rewrite (bind_eq _ _ _ _ _ H2).
  rewrite bind_config_field, Hc2.
  assert (Hstep2 : exists s3,
    (if truthy (default VUndef (obj_get c "style"))
     then addStyle (default VUndef (obj_get c "style")) else ret tt) s2
    = Ok tt s3 /\ headed hd s3 /\ config s3 = c).
  { destruct (truthy (default VUndef (obj_get c "style"))) eqn:Et;
      [|exists s2; split; [reflexivity|]; split; [exact Hs2 | exact Hc2]].
    destruct (string_or_falsy_cases _ Hsty Et) as [u ->].
    destruct (addStyle_total hd u s2 Hlink Hs2) as (s3 & H3 & Hh3 & Hc3).
    exists s3. split; [exact H3|]. split; [exact Hh3 | congruence]. }
  destruct Hstep2 as (s3 & H3 & Hs3 & Hc3).
  rewrite (bind_eq _ _ _ _ _ H3).
  rewrite bind_config_field, Hc3.
  assert (Hstep3 : exists s4,
    (if truthy (default VUndef (obj_get c "styles"))
        && is_array (default VUndef (obj_get c "styles"))
     then addStyles (default VUndef (obj_get c "styles")) else ret tt) s3
    = Ok tt s4 /\ headed hd s4 /\ config s4 = c).
  { destruct (obj_get c "styles") as [sv|]; cbn [default from_option];
      [|exists s3; split; [reflexivity|]; split; [exact Hs3 | exact Hc3]].
    unfold id.
    destruct sv as [| |b|z|x|x|l|u|g|r|];
      try (rewrite andb_false_r;
           exists s3; split; [reflexivity|]; split; [exact Hs3 | exact Hc3]).
    cbn [truthy is_array andb].
    assert (Hl : exists urls, l = VStr <$> urls).
    { clear -Hstyles. induction l as [|x l IH]; [now exists []|].
      cbn [forallb] in Hstyles. apply andb_prop in Hstyles as [Hx Hl].
      destruct x; try discriminate Hx. destruct (IH Hl) as [urls ->].
      now exists (s :: urls). }
    destruct Hl as [urls ->].
    destruct (addStyles_total hd urls s3 Hlink Hs3) as (s4 & H4 & Hh4 & Hc4).
    exists s4. split; [exact H4|]. split; [exact Hh4 | congruence]. }
  destruct Hstep3 as (s4 & H4 & Hs4 & Hc4).
  rewrite (bind_eq _ _ _ _ _ H4).
  rewrite bind_config_field, Hc4.
  assert (Hstep4 : exists s5,
    (if truthy (default VUndef (obj_get c "inlineStyle"))
     then addInlineStyle (default VUndef (obj_get c "inlineStyle"))
     else ret tt) s4 = Ok tt s5).
  { destruct (truthy (default VUndef (obj_get c "inlineStyle"))) eqn:Et;
      [|exists s4; reflexivity].
    destruct (string_or_falsy_cases _ Hinl Et) as [css ->].
    destruct (addInlineStyle_total hd css s4 Hstyle Hs4) as (s5 & H5 & _).
    now exists s5. }
  destruct Hstep4 as (s5 & H5).
  rewrite (bind_eq _ _ _ _ _ H5). now exists s5.
Qed.

(** C8 (as the code has it): [cfg] with an overlay object that has no
    own property [__proto__] always ends, by returning or by throwing; in
    both cases every field the overlay names holds the overlay's value and
    every other field the value it had, and a call that returns, returns
    the instance.  The call does return when the document has a head and a
    body, the host accepts the names [link], [style] and [data-theme],
    and the fields [ui], [style], [styles] and [inlineStyle] of the merged
    configuration have the documented shape. *)
Theorem cfg_overlay (st : state) (o : list (string * value)) :
  NoDup (fst <$> o) -> "__proto__" ∉ (fst <$> o) ->
  match cfg (VObj o) st with
  | Ok v st' =>
      v = VInstance /\
      forall k, obj_get (config st') k = overlaid o (config st) k
  | Throw _ st' =>
      forall k, obj_get (config st') k = overlaid o (config st) k
  | OutOfFuel => False
  end /\
  (valid_tag "link" = true -> valid_tag "style" = true ->
   valid_attr "data-theme" = true ->
   well_formed st -> well_shaped (overlaid o (config st)) = true ->
   exists st', cfg (VObj o) st = Ok VInstance st').
Proof.
  intros Hnd _. split; [|now apply cfg_returns].
  set (merged := fun st' : state =>
         forall k, obj_get (config st') k = overlaid o (config st) k).
  change (match cfg (VObj o) st with
          | Ok v st' => v = VInstance /\ merged st'
          | Throw _ st' => merged st'
          | OutOfFuel => False
          end).
  set (c := object_assign st (config st) (VObj o)).
  assert (Hc : forall st', config st' = c -> merged st').
  { intros st' E k. rewrite E. apply obj_get_assign, Hnd. }
  pose proof (config_stable c) as HS.
  assert (H : hoare False (fun s => s = st) (cfg (VObj o))
                (fun v s => v = VInstance /\ config s = c)
                (fun s => config s = c)).
  { unfold cfg.
    eapply hoare_bind with (Q := fun _ s => config s = c).
    { apply hoare_modify. intros s ->. reflexivity. }
    intros _.
    eapply hoare_bind with (Q := fun _ s => config s = c);
      [apply config_field_preserves|]. intros ui.
    eapply hoare_bind with (Q := fun _ s => config s = c).
    { change (preserves False (fun s => config s = c)
               (if truthy ui
                then let! theme := get_field ui "theme" in
                     if truthy theme
                     then let! body := body_or_throw in
                          setAttribute body "data-theme" theme
                     else ret tt
                else ret tt)). pres. }
    intros _.
    eapply hoare_bind with (Q := fun _ s => config s = c);
      [apply config_field_preserves|]. intros style.
    eapply hoare_bind with (Q := fun _ s => config s = c).
    { destruct (truthy style); [|apply preserves_ret].
      eapply addStyle_preserves; [exact HS | exact Logic.I]. }
    intros _.
    eapply hoare_bind with (Q := fun _ s => config s = c);
      [apply config_field_preserves|]. intros styles.
    eapply hoare_bind with (Q := fun _ s => config s = c).
    { destruct (truthy styles && is_array styles); [|apply preserves_ret].
      eapply addStyles_preserves; [exact HS | exact Logic.I]. }
    intros _.
    eapply hoare_bind with (Q := fun _ s => config s = c);
      [apply config_field_preserves|]. intros inl.
    eapply hoare_bind with (Q := fun _ s => config s = c).
    { destruct (truthy inl); [|apply preserves_ret].
      eapply addInlineStyle_preserves;
        [exact HS | exact Logic.I | intros; exact Logic.I]. }
    intros _. apply hoare_ret. auto. }
  specialize (H st eq_refl).
  destruct (cfg (VObj o) st) as [v st'| e st'|];
    [destruct H; split; auto | auto | exact H].
Qed.

(** * Partial re-render of string children *)

Lemma simple_no_close (e : string) :
  simple_chars e = true -> has_close e = false.
Proof.
  induction e as [|a e IH]; [reflexivity|]. cbn [simple_chars has_close].
  intros [Ha He]%andb_prop. rewrite (IH He), orb_false_r.
  destruct (Ascii.eqb_spec a "}"%char) as [->|]; [discriminate Ha|reflexivity].
Qed.

(** The scan of [replace] computes the text the specification describes. *)
Lemma substituted_replace (g : gmap string value) (text t : string) :
  substituted g text t -> replace_inline g text None = Some t.
Proof.
  induction 1 as [s Hs|pre e post v t rest Hpre He Hv Ht _ IH
                 |pre e post rest Hpre He Hv _ IH].
  - now apply replace_inline_plain.
  - apply andb_prop in He as [He _]. apply andb_prop in He as [Hne Hw].
    apply negb_true_iff in Hne. apply String.eqb_neq in Hne.
    rewrite (replace_inline_prefix g pre ("J{" +:+ e +:+ "}" +:+ post) Hpre
               eq_refl).
    change (replace_inline g ("J{" +:+ e +:+ "}" +:+ post) None)
      with (replace_inline g (e +:+ "}" +:+ post) (Some "")).
    rewrite (replace_inline_inside g e "" post (simple_no_close e Hw) Hne).
    change ("" +:+ e) with e. unfold inline_value. rewrite Hv, Ht, IH.
    reflexivity.
  - apply andb_prop in He as [He _]. apply andb_prop in He as [Hne Hw].
    apply negb_true_iff in Hne. apply String.eqb_neq in Hne.
    rewrite (replace_inline_prefix g pre ("J{" +:+ e +:+ "}" +:+ post) Hpre
               eq_refl).
    change (replace_inline g ("J{" +:+ e +:+ "}" +:+ post) None)
      with (replace_inline g (e +:+ "}" +:+ post) (Some "")).
    rewrite (replace_inline_inside g e "" post (simple_no_close e Hw) Hne).
    change ("" +:+ e) with e. unfold inline_value. rewrite Hv, IH.
    reflexivity.
Qed.



(** * Text children with inline expressions *)

(** [j(tag, props, ...texts)] with a tag name that is no control token
    and, as children, strings whose inline expressions are simple, when it
    returns: the result is a new element, named by the lower-case form of
    the tag name and without a parent; its children are new text nodes,
    one for each string and in their order, holding the texts the
    specification describes for the strings; the nodes that existed
    before and the global variables are as they were. *)
Theorem build_text_children (fuel : nat) (tag : string) (props v : value)
  (texts expected : list string) (st st' : state) :
  tag_ok (VStr tag) = true ->
  Forall2 (substituted (globals st)) texts expected ->
  j (S fuel) (VStr tag :: props :: (VStr <$> texts)) st = Ok v st' ->
  v = VNode (length (heap st)) /\
  agree (length (heap st)) (heap st) (heap st') /\
  globals st' = globals st /\
  hpar (heap st') (length (heap st)) = Some None /\
  n_kind <$> heap st' !! length (heap st) = Some (KElement (lower tag)) /\
  exists ks,
    hkids (heap st') (length (heap st)) = Some ks /\
    Forall2 (fun k t => heap st' !! k = Some (text_node (length (heap st)) t))
            ks expected /\
    Forall (fun k => length (heap st) < k) ks.
Proof.
  intros Ht Hexp H. cbn [j] in H.
  rewrite dispatch_build in H by now apply tag_ok_builds.
  apply createElement_texts_ok in H
    as (Hv & Hag & Hg & Hp & Hk & ks & Hks & Htk & Hlt).
  split; [exact Hv|]. split; [exact Hag|]. split; [exact Hg|].
  split; [exact Hp|]. split; [exact Hk|].
  exists ks. split; [exact Hks|]. split; [|exact Hlt].
  clear Hks Hlt. unfold text_kids in Htk. revert expected Hexp.
  induction Htk as [|k t ks' ts (t' & Ht' & Hn) _ IH]; intros expected Hexp;
    inversion Hexp as [|? e ? rest Hs Hrest]; subst; constructor.
  - apply substituted_replace in Hs. rewrite Hs in Ht'. injection Ht' as <-.
    exact Hn.
  - now apply IH.
Qed.

End JESX.

(** * The properties on the example host *)

#[local] Abbreviation run_j :=
  (j Example.host_string Example.valid_name Example.valid_name
     Example.css_property Example.call_Function Example.components).

#[local] Abbreviation run_renderApp :=
  (renderApp Example.host_string Example.valid_name Example.components).

#[local] Abbreviation run_rcmp := (rcmp Example.host_string).

#[local] Abbreviation run_cfg :=
  (cfg Example.host_string Example.valid_name Example.valid_name).

(** With the hash [#about] the route is [/about]. *)
Lemma getCurrentRoute_witness :
  getCurrentRoute (Example.with_hash "#about" Example.initial)
  = Ok "/about" (Example.with_hash "#about" Example.initial).
Proof.
  apply (proj2 (proj2 (proj2 (getCurrentRoute_spec
           (Example.with_hash "#about" Example.initial)))) "about").
  - discriminate.
  - reflexivity.
Defined.

(** On the example site the route [/about] selects its own entry. *)
Lemma selected_component_fallback_witness :
  exists route,
    getCurrentRoute (Example.with_hash "#about" Example.site)
      = Ok route (Example.with_hash "#about" Example.site) /\
    selected_component (Example.with_hash "#about" Example.site)
      = Ok (route,
            match obj_get [("/", VFun (Class 0)); ("/about", VFun (Class 4))]
                          route with
            | Some c => c
            | None => default VUndef
                        (obj_get [("/", VFun (Class 0));
                                  ("/about", VFun (Class 4))] "/")
            end) (Example.with_hash "#about" Example.site).
Proof.
  apply (selected_component_fallback
           (Example.with_hash "#about" Example.site)
           [("/", VFun (Class 0)); ("/about", VFun (Class 4))]).
  - reflexivity.
  - repeat constructor.
Defined.

(** A route without an entry selects the component of [/]. *)
Example selected_component_missing_route :
  selected_component (Example.with_hash "#nowhere" Example.site)
  = Ok ("/nowhere", VFun (Class 0)) (Example.with_hash "#nowhere" Example.site).
Proof. reflexivity. Qed.

(** With the default configuration the page map is empty, the selected
    component is [undefined], and the render pass stops with a
    diagnostic. *)
Lemma renderApp_invalid_component_witness :
  exists st',
    run_renderApp (run_j 3) Example.initial = Ok VUndef st' /\
    console st' = console Example.initial
                    ++ ["Invalid component for route: " +:+ "/"] /\
    heap st' = heap Example.initial /\
    registry st' = registry Example.initial /\
    config st' = config Example.initial /\
    loadedStyles st' = loadedStyles Example.initial.
Proof.
  apply (renderApp_invalid_component Example.host_string Example.valid_name
           Example.components (run_j 3) Example.initial "/" VUndef).
  - reflexivity.
  - discriminate.
Defined.

(** C2, counterexample: the page of [/] is an arrow function, which is a
    function but cannot be constructed.  The render pass writes no
    diagnostic, adds the mount container to the body, and throws. *)
Lemma renderApp_arrow_component :
  selected_component Example.arrow_site
    = Ok ("/", VFun (Arrow 0)) Example.arrow_site /\
  constructible (VFun (Arrow 0)) = false /\
  exists st',
    run_renderApp (run_j 3) Example.arrow_site = Throw "TypeError" st' /\
    console st' = [] /\
    heap st' <> heap Example.arrow_site /\
    (exists n, heap st' !! 3 = Some n /\ n_kids n = [4]) /\
    (exists n, heap st' !! 4 = Some n /\ n_kind n = KElement "div" /\
               n_attrs n = [("id", "app")]).
Proof.
  split; [reflexivity|]. split; [reflexivity|].
  eexists. split; [vm_compute; reflexivity|].
  split; [reflexivity|]. split; [discriminate|].
  split; eexists; (split; [reflexivity|]); repeat split.
Qed.

(** A first configuration of the example page: a title, a theme, style
    sheets and the page map. *)
Lemma cfg_overlay_witness :
  let o := [("title", VStr "Shop");
            ("ui", VObj [("theme", VStr "dark")]);
            ("style", VStr "site.css");
            ("styles", VArr [VStr "a.css"; VStr "site.css"]);
            ("inlineStyle", VStr "p { margin: 0 }");
            ("pages", VObj [("/", VFun (Class 0))])] in
  match run_cfg (VObj o) Example.initial with
  | Ok v st' =>
      v = VInstance /\
      forall k, obj_get (config st') k
                = overlaid o (config Example.initial) k
  | Throw _ st' =>
      forall k, obj_get (config st') k
                = overlaid o (config Example.initial) k
  | OutOfFuel => False
  end /\
  exists st', run_cfg (VObj o) Example.initial = Ok VInstance st'.
Proof.
  cbv zeta.
  destruct (cfg_overlay Example.host_string Example.valid_name
              Example.valid_name Example.initial
              [("title", VStr "Shop");
               ("ui", VObj [("theme", VStr "dark")]);
               ("style", VStr "site.css");
               ("styles", VArr [VStr "a.css"; VStr "site.css"]);
               ("inlineStyle", VStr "p { margin: 0 }");
               ("pages", VObj [("/", VFun (Class 0))])]) as [Hmerge Hret].
  - apply (bool_decide_unpack _). vm_compute. exact I.
  - apply (bool_decide_unpack _). vm_compute. exact I.
  - split; [exact Hmerge|]. apply Hret; try reflexivity.
    split; [repeat constructor|]. split; [repeat constructor|].
    split; eexists; reflexivity.
Defined.

(** What that call leaves in the document. *)
Example cfg_returns_instance :
  exists st',
    run_cfg (VObj [("title", VStr "Shop");
                   ("ui", VObj [("theme", VStr "dark")]);
                   ("style", VStr "site.css");
                   ("styles", VArr [VStr "a.css"; VStr "site.css"]);
                   ("inlineStyle", VStr "p { margin: 0 }");
                   ("pages", VObj [("/", VFun (Class 0))])]) Example.initial
    = Ok VInstance st' /\
    loadedStyles st' = [VStr "site.css"; VStr "a.css"] /\
    n_attrs <$> heap st' !! 3 = Some [("data-theme", "dark")] /\
    hkids (heap st') 2 = Some [4; 5; 6].
Proof. eexists. split; [vm_compute; reflexivity|]. vm_compute. tauto. Qed.

(** C8, counterexample: an overlay whose [style] is a symbol.  The
    configuration is merged, and the call throws instead of returning the
    instance: [link.href = Symbol()] is a [TypeError]. *)
Lemma cfg_symbol_style_throws :
  well_formed Example.initial /\
  exists st',
    run_cfg (VObj [("style", VSym "s")]) Example.initial
    = Throw "TypeError" st' /\
    obj_get (config st') "style" = Some (VSym "s") /\
    obj_get (config st') "title"
    = obj_get (config Example.initial) "title".
Proof.
  split.
  - split; [repeat constructor|]. split; [repeat constructor|].
    split; eexists; reflexivity.
  - eexists. split; [vm_compute; reflexivity|]. split; reflexivity.
Qed.

(** C3, at the failing input [j("span", null, "J{Symbol()}")]. *)
Lemma inline_symbol_escapes_witness :
  run_j 1 [VStr "span"; VNull; VStr "J{Symbol()}"] Example.initial =
    Throw "TypeError"
      (set_heap (heap Example.initial ++ [new_node (KElement "span")])
                Example.initial).
Proof.
  apply (inline_symbol_escapes Example.host_string Example.valid_name
           Example.valid_name Example.css_property Example.call_Function
           Example.components 0 Example.initial "").
  - reflexivity.
  - reflexivity.
Defined.

(** The two texts of the specification, on the example host. *)
Example inline_text_examples :
  (exists st', run_j 1 [VStr "span"; VNull; VStr "J{1+1}"] Example.initial
                 = Ok (VNode 4) st' /\
               n_kind <$> heap st' !! 5 = Some (KText "2")) /\
  (exists st', run_j 1 [VStr "span"; VNull; VStr "J{undefinedVar}"]
                 Example.initial = Ok (VNode 4) st' /\
               n_kind <$> heap st' !! 5 = Some (KText "undefined")).
Proof. split; eexists; (split; [vm_compute; reflexivity | reflexivity]). Qed.

(** C5, at the failing input: the body holds [<div id="constructor">],
    the registry is empty, and [j("rcmp", "constructor")] throws. *)
Lemma rcmp_inherited_name_throws_witness :
  run_rcmp (run_j 2) (VStr "constructor") Example.constructor_page
  = Throw "TypeError" Example.constructor_page.
Proof.
  apply (rcmp_inherited_name_throws Example.host_string (run_j 2)
           Example.constructor_page "constructor" 4 3).
  - reflexivity.
  - reflexivity.
  - reflexivity.
  - reflexivity.
Defined.

Example rcmp_constructor_through_j :
  run_j 3 [VStr "rcmp"; VStr "constructor"] Example.constructor_page
  = Throw "TypeError" Example.constructor_page.
Proof. reflexivity. Qed.

(** An identifier nothing is registered under and that is no inherited
    name: the call is a no-op. *)
Example rcmp_unregistered_is_silent :
  run_j 3 [VStr "rcmp"; VStr "missing"] Example.constructor_page
  = Ok VUndef Example.constructor_page.
Proof. reflexivity. Qed.

(** Two builds with the identifier [x]: the registry keeps the first. *)
Lemma registry_first_write_wins_witness :
  let first := [VStr "span"; VObj [("id", VStr "x")]; VStr "J{counter}"] in
  let second := [VStr "div"; VObj [("id", VStr "x")]; VStr "other"] in
  let st1 := state_after (run_j 1 first Example.initial) Example.initial in
  let st2 := state_after (run_j 1 second st1) st1 in
  registry_get st1 (KStr "x")
    = RDescriptor (Descriptor (VStr "span") (VObj [("id", VStr "x")])
                              [VStr "J{counter}"]) /\
  registry_get st2 (KStr "x")
    = RDescriptor (Descriptor (VStr "span") (VObj [("id", VStr "x")])
                              [VStr "J{counter}"]).
Proof.
  cbv zeta.
  apply (registry_first_write_wins Example.host_string Example.valid_name
           Example.valid_name Example.css_property Example.call_Function
           Example.components 1 1 (VStr "span") [("id", VStr "x")]
           [VStr "J{counter}"]
           [VStr "div"; VObj [("id", VStr "x")]; VStr "other"]
           (VStr "x") (VNode 4) (KStr "x") Example.initial).
  - reflexivity.
  - reflexivity.
  - reflexivity.
  - reflexivity.
  - reflexivity.
  - vm_compute. reflexivity.
  - vm_compute. reflexivity.
Defined.

(** C1, counterexample: two builds with the identifier [0].  Both
    elements carry the attribute [id="0"], and the registry has no entry
    under that key after either build. *)
Lemma registry_falsy_id_not_registered :
  let first := [VStr "span"; VObj [("id", VNum 0)]; VStr "one"] in
  let second := [VStr "div"; VObj [("id", VNum 0)]; VStr "two"] in
  to_key Example.host_string (VNum 0) = Some (KStr "0") /\
  exists st1 st2,
    run_j 1 first Example.initial = Ok (VNode 4) st1 /\
    run_j 1 second st1 = Ok (VNode 6) st2 /\
    n_attrs <$> heap st2 !! 4 = Some [("id", "0")] /\
    n_attrs <$> heap st2 !! 6 = Some [("id", "0")] /\
    registry_get st1 (KStr "0") = RUndefined /\
    registry_get st2 (KStr "0") = RUndefined /\
    registry_get st2 (KStr "0")
      <> RDescriptor (Descriptor (VStr "span") (VObj [("id", VNum 0)])
                                 [VStr "one"]).
Proof.
  cbv zeta. split; [reflexivity|].
  eexists. eexists.
  split; [vm_compute; reflexivity|].
  split; [vm_compute; reflexivity|].
  repeat split; try reflexivity. discriminate.
Qed.

(** The example page with the counter is what the builder and
    [appendChild] make when [counter] is [1]. *)
Example counter_page_built :
  let st0 := Example.with_globals {[ "counter" := VNum 1 ]} Example.initial in
  let st1 := state_after
               (run_j 1 [VStr "span"; VObj [("id", VStr "x")];
                         VStr "J{counter}"] st0) st0 in
  let st2 := state_after (appendChild 3 (VNode 4) st1) st1 in
  Example.with_globals {[ "counter" := VNum 2 ]} st2 = Example.counter_page.
Proof. vm_compute. reflexivity. Qed.



(** The text of the rebuilt element on the example page. *)
Example rcmp_counter_text :
  exists st2,
    run_j 2 [VStr "rcmp"; VStr "x"] Example.counter_page = Ok VUndef st2 /\
    n_kind <$> heap st2 !! 7 = Some (KText "2") /\
    hkids (heap st2) 6 = Some [7] /\ hkids (heap st2) 3 = Some [6].
Proof. eexists. split; [vm_compute; reflexivity|]. repeat split. Qed.

(** A render pass on the example site, whose route [/] has two global
    headers and one global footer: two nodes, the wrapper, one node, the
    two nodes being what the loop over the two headers returned. *)
Lemma renderApp_order_witness :
  exists main hs fs,
    hkids (heap (state_after (run_renderApp (run_j 3) Example.site)
                   Example.site)) 4
      = Some (hs ++ [main] ++ fs) /\
    length hs = 2 /\ length fs = 1 /\
    (exists sh sh' sf,
       render_trace Example.components (run_j 3) 4
         [VFun (Class 1); VFun (Class 2)] hs sh sh' /\
       render_trace Example.components (run_j 3) 4 [VFun (Class 3)] fs sf
         (state_after (run_renderApp (run_j 3) Example.site) Example.site) /\
       hkids (heap sh) 4 = Some [] /\
       hkids (heap sh') 4 = Some hs /\
       hkids (heap sf) 4 = Some (hs ++ [main]) /\
       Forall (fun h => length (heap sh) <= h /\ h < length (heap sh')) hs /\
       Forall (fun h =>
                 length (heap sf) <= h /\
                 h < length (heap (state_after
                                     (run_renderApp (run_j 3) Example.site)
                                     Example.site))) fs /\
       (forall y, length (heap sh) <= y -> y < length (heap sh') ->
                  heap (state_after (run_renderApp (run_j 3) Example.site)
                          Example.site) !! y = heap sh' !! y)) /\
    hface (heap (state_after (run_renderApp (run_j 3) Example.site)
                   Example.site)) main
      = Some (KElement "div", [("class", "main-content")]).
Proof.
  destruct (renderApp_order Example.host_string Example.valid_name
              Example.valid_name Example.css_property Example.call_Function
              Example.components 3 Example.site
              (state_after (run_renderApp (run_j 3) Example.site)
                 Example.site)
              "/" (Class 0) VUndef [VFun (Class 1); VFun (Class 2)]
              [VFun (Class 3)])
    as (root & main & hs & fs & content & Hroot & _ & Hk & Hlh & Hlf & _
        & Htr & Hface & _).
  - intros [|c] props; reflexivity.
  - intros [|c] props; reflexivity.
  - reflexivity.
  - reflexivity.
  - reflexivity.
  - reflexivity.
  - vm_compute. reflexivity.
  - destruct Hroot as [Hr | [_ ->]]; [vm_compute in Hr; discriminate Hr|].
    exists main, hs, fs. split; [exact Hk|]. split; [exact Hlh|].
    split; [exact Hlf|]. split; [exact Htr | exact Hface].
Defined.

(** C4, counterexample: a site with two configured headers, both the
    class that returns the node [4].  The pass returns; the container
    [5] holds that one node and the wrapper: one header node for two
    configured headers. *)
Lemma renderApp_cached_header :
  global_list (config Example.banner_site) "headers" "/"
  = Some (VArr [VFun (Class 1); VFun (Class 1)]) /\
  pure_expr (Example.cached_components 1 VUndef) = false /\
  exists st',
    renderApp Example.host_string Example.valid_name
      Example.cached_components
      (j Example.host_string Example.valid_name Example.valid_name
         Example.css_property Example.call_Function
         Example.cached_components 3) Example.banner_site
    = Ok VUndef st' /\
    live_node st' "app" = Some 5 /\
    hkids (heap st') 5 = Some [4; 9] /\
    hface (heap st') 4 = Some (KElement "header", []) /\
    hface (heap st') 9 = Some (KElement "div", [("class", "main-content")]).
Proof.
  split; [reflexivity|]. split; [reflexivity|].
  eexists. split; [vm_compute; reflexivity|]. vm_compute. tauto.
Qed.

(** The container of the example site after the pass: the two headers,
    the wrapper with the page in it, the footer. *)
Example renderApp_site_children :
  exists st',
    run_j 4 [VStr "render"] Example.site = Ok VUndef st' /\
    hkids (heap st') 4 = Some [9; 11; 8; 13] /\
    hface (heap st') 9 = Some (KElement "nav", [("id", "c1")]) /\
    hface (heap st') 11 = Some (KElement "nav", [("id", "c2")]) /\
    hface (heap st') 8 = Some (KElement "div", [("class", "main-content")]) /\
    hkids (heap st') 8 = Some [5] /\
    hface (heap st') 13 = Some (KElement "nav", [("id", "c3")]).
Proof. eexists. split; [vm_compute; reflexivity|]. vm_compute. tauto. Qed.

(** A site with one page and no global component: the wrapper is the
    only child of the container. *)
Example renderApp_no_globals :
  exists st',
    run_j 4 [VStr "render"]
      (Example.with_config
         (obj_set Example.default_config "pages"
            (VObj [("/", VFun (Class 0))])) Example.initial)
    = Ok VUndef st' /\
    hkids (heap st') 4 = Some [8] /\
    hface (heap st') 8 = Some (KElement "div", [("class", "main-content")]).
Proof. eexists. split; [vm_compute; reflexivity|]. vm_compute. tauto. Qed.

(** A text without a pattern. *)
Lemma evalTemplate_plain_witness :
  evalTemplate Example.host_string Example.call_Function "J and {braces}"
    Example.initial
  = Ok "J and {braces}" Example.initial.
Proof.
  apply (evalTemplate_plain Example.host_string Example.call_Function
           "J and {braces}" Example.initial).
  reflexivity.
Defined.


#[local] Abbreviation run_createElement :=
  (createElement Example.host_string Example.valid_name Example.valid_name
     Example.css_property Example.call_Function Example.components
     (fun _ => ret VUndef)).

(** [j("div", {id: "a", class: null})] throws. *)
Lemma build_null_class_throws_witness :
  exists e s,
    run_createElement (VStr "div")
      (VObj [("id", VStr "a"); ("class", VNull)]) [] Example.initial
    = Throw e s.
Proof.
  apply (build_null_class_throws Example.host_string Example.valid_name
           Example.valid_name Example.css_property Example.call_Function
           Example.components (fun _ => ret VUndef) (VStr "div")
           [("id", VStr "a"); ("class", VNull)] [] "class" Example.initial).
  - reflexivity.
  - left. reflexivity.
  - apply elem_of_cons. right. apply elem_of_cons. left. reflexivity.
Defined.

(** [j("a", {href: "#x", hidden: false, tabindex: 3}, "go")] *)
Lemma build_attributes_witness :
  exists attrs,
    VNode 4 = VNode (length (heap Example.initial)) /\
    Forall2 (fun (kv : string * value) (a : string * string) =>
               fst a = fst kv /\
               to_string Example.host_string (snd kv) = Some (snd a))
            [("href", VStr "#x"); ("hidden", VBool false);
             ("tabindex", VNum 3)] attrs /\
    hface (heap (state_after
                   (run_createElement (VStr "a")
                      (VObj [("href", VStr "#x"); ("hidden", VBool false);
                             ("tabindex", VNum 3)])
                      [VStr "go"] Example.initial) Example.initial))
          (length (heap Example.initial))
    = Some (KElement "a", attrs).
Proof.
  apply (build_attributes Example.host_string Example.valid_name
           Example.valid_name Example.css_property Example.call_Function
           Example.components (fun _ => ret VUndef) "a"
           [("href", VStr "#x"); ("hidden", VBool false);
            ("tabindex", VNum 3)]
           [VStr "go"] Example.initial).
  - reflexivity.
  - repeat constructor.
  - repeat constructor.
  - apply (bool_decide_unpack _). vm_compute. exact Logic.I.
  - vm_compute. reflexivity.
Defined.

(** The attributes of that element. *)
Example build_attributes_example :
  hface (heap (state_after
                 (run_createElement (VStr "a")
                    (VObj [("href", VStr "#x"); ("hidden", VBool false);
                           ("tabindex", VNum 3)])
                    [VStr "go"] Example.initial) Example.initial)) 4
  = Some (KElement "a",
          [("href", "#x"); ("hidden", "false"); ("tabindex", "3")]).
Proof. vm_compute. reflexivity. Qed.

#[local] Abbreviation run_addStyle :=
  (addStyle Example.host_string Example.valid_name).

#[local] Abbreviation run_addStyles :=
  (addStyles Example.host_string Example.valid_name).

(** Adding [site.css] to the empty document, twice. *)
Lemma addStyle_idempotent_witness :
  run_addStyle (VStr "site.css")
    (state_after (run_addStyle (VStr "site.css") Example.initial)
       Example.initial)
  = Ok tt (state_after (run_addStyle (VStr "site.css") Example.initial)
             Example.initial).
Proof.
  apply (addStyle_idempotent Example.host_string Example.valid_name
           "site.css" Example.initial).
  vm_compute. reflexivity.
Defined.

Lemma addStyle_appends_link_witness :
  exists head ks,
    length (heap (state_after (run_addStyle (VStr "site.css") Example.initial)
                    Example.initial))
    = S (length (heap Example.initial)) /\
    heap (state_after (run_addStyle (VStr "site.css") Example.initial)
            Example.initial) !! length (heap Example.initial)
    = Some (link_node "site.css" (Some head)) /\
    n_kind <$> heap Example.initial !! head = Some (KElement "head") /\
    hkids (heap Example.initial) head = Some ks /\
    hkids (heap (state_after (run_addStyle (VStr "site.css") Example.initial)
                   Example.initial)) head
    = Some (ks ++ [length (heap Example.initial)]) /\
    loadedStyles (state_after (run_addStyle (VStr "site.css") Example.initial)
                    Example.initial)
    = loadedStyles Example.initial ++ [VStr "site.css"] /\
    (forall y, y < length (heap Example.initial) -> y <> head ->
               heap (state_after
                       (run_addStyle (VStr "site.css") Example.initial)
                       Example.initial) !! y
               = heap Example.initial !! y).
Proof.
  apply (addStyle_appends_link Example.host_string Example.valid_name
           "site.css" Example.initial).
  - reflexivity.
  - vm_compute. reflexivity.
Defined.


Example addStyles_example :
  exists st',
    run_addStyles (VArr (VStr <$> ["a.css"; "b.css"; "a.css"]))
      Example.initial = Ok tt st' /\
    loadedStyles st' = [VStr "a.css"; VStr "b.css"] /\
    hkids (heap st') 2 = Some [4; 5] /\
    length (heap st') = 6.
Proof. eexists. split; [vm_compute; reflexivity|]. vm_compute. tauto. Qed.

(** On the example site the global components apply to every page. *)
Lemma global_lists_by_page_witness :
  getGlobalHeaders "/about" Example.site
  = Ok (VArr [VFun (Class 1); VFun (Class 2)]) Example.site /\
  getGlobalFooters "/about" Example.site
  = Ok (VArr [VFun (Class 3)]) Example.site.
Proof.
  apply (proj1 (global_lists_by_page Example.site
                  [("headers", VArr [VFun (Class 1); VFun (Class 2)]);
                   ("footers", VArr [VFun (Class 3)]);
                   ("pages", VArr [VStr "*"])]
                  [VStr "*"] "/about" eq_refl eq_refl)).
  left. apply elem_of_cons. left. reflexivity.
Defined.

(** A site whose global components are for [/about] only: none on [/]. *)
Example global_lists_other_page :
  getGlobalHeaders "/"
    (Example.with_config
       [("global", VObj [("headers", VArr [VFun (Class 1)]);
                         ("footers", VArr []);
                         ("pages", VArr [VStr "/about"])])]
       Example.initial)
  = Ok (VArr [])
      (Example.with_config
         [("global", VObj [("headers", VArr [VFun (Class 1)]);
                           ("footers", VArr []);
                           ("pages", VArr [VStr "/about"])])]
         Example.initial).
Proof. reflexivity. Qed.

(** [j("bad name", {id: "x"}, "text")]: the tag name has a space. *)
Lemma failed_build_registers_witness :
  run_j 1 [VStr "bad name"; VObj [("id", VStr "x")]; VStr "text"]
    Example.initial
  = Throw "InvalidCharacterError"
      (set_registry
         (<[KStr "x" := Descriptor (VStr "bad name") (VObj [("id", VStr "x")])
                          [VStr "text"]]> (registry Example.initial))
         Example.initial).
Proof.
  apply (failed_build_registers Example.host_string Example.valid_name
           Example.valid_name Example.css_property Example.call_Function
           Example.components 0 "bad name" [("id", VStr "x")] [VStr "text"]
           (VStr "x") (KStr "x") Example.initial); reflexivity.
Defined.

(** No element of the example page has the identifier [missing]. *)
Lemma rcmp_missing_target_witness :
  run_j 1 [VStr "rcmp"; VStr "missing"] Example.counter_page
  = Ok VUndef Example.counter_page.
Proof.
  apply (rcmp_missing_target Example.host_string Example.valid_name
           Example.valid_name Example.css_property Example.call_Function
           Example.components 0 Example.counter_page "missing").
  left. reflexivity.
Defined.

(** The example site with [styles: "a.css"]. *)
Lemma renderApp_styles_not_array_witness :
  returns
    (run_renderApp (run_j 3)
       (Example.with_config
          (obj_set Example.site_config "styles" (VStr "a.css"))
          Example.initial))
  = false.
Proof.
  apply (renderApp_styles_not_array Example.host_string Example.valid_name
           Example.valid_name Example.css_property Example.call_Function
           Example.components 3
           (Example.with_config
              (obj_set Example.site_config "styles" (VStr "a.css"))
              Example.initial)
           "/" (Class 0) (VStr "a.css")).
  - intros [|c] props; reflexivity.
  - intros [|c] props; reflexivity.
  - reflexivity.
  - reflexivity.
  - reflexivity.
  - reflexivity.
Defined.

(** On that site [cfg] returns and the pass throws, after the container
    was made and the default style sheet linked. *)
Example styles_string_cfg_and_render :
  (exists s, run_cfg (VObj [("styles", VStr "a.css")]) Example.site
             = Ok VInstance s) /\
  exists s,
    run_renderApp (run_j 3)
      (Example.with_config
         (obj_set Example.site_config "styles" (VStr "a.css")) Example.initial)
    = Throw "TypeError" s /\
    live_node s "app" = Some 4 /\
    loadedStyles s = [VStr "defaultstyles.css"].
Proof.
  split; [eexists; vm_compute; reflexivity|].
  eexists. split; [vm_compute; reflexivity|]. vm_compute. tauto.
Qed.

(** [j("cfg", {ui: {theme: "dark"}})] on the empty document. *)
Lemma cfg_applies_theme_witness :
  exists body bn t,
    document_body (heap Example.initial) = Some body /\
    to_string Example.host_string (VStr "dark") = Some t /\
    heap (state_after
            (run_cfg (VObj [("ui", VObj [("theme", VStr "dark")])])
               Example.initial) Example.initial) !! body = Some bn /\
    attr_get (n_attrs bn) "data-theme" = Some t.
Proof.
  apply (proj1 (cfg_applies_theme Example.host_string Example.valid_name
                  Example.valid_name
                  (VObj [("ui", VObj [("theme", VStr "dark")])]) VInstance
                  Example.initial
                  (state_after
                     (run_cfg (VObj [("ui", VObj [("theme", VStr "dark")])])
                        Example.initial) Example.initial)
                  [("theme", VStr "dark")]
                  ltac:(vm_compute; reflexivity) eq_refl)
           (VStr "dark")); reflexivity.
Defined.

(** After [cfg({ui: {theme: "dark"}})] and then [cfg({ui: {}})] the
    configuration has no theme and the body still says [dark]. *)
Example cfg_theme_stays :
  exists s1 s2 bn,
    run_cfg (VObj [("ui", VObj [("theme", VStr "dark")])]) Example.initial
    = Ok VInstance s1 /\
    run_cfg (VObj [("ui", VObj [])]) s1 = Ok VInstance s2 /\
    obj_get (config s2) "ui" = Some (VObj []) /\
    heap s2 !! 3 = Some bn /\
    attr_get (n_attrs bn) "data-theme" = Some "dark".
Proof.
  do 3 eexists. split; [vm_compute; reflexivity|].
  split; [vm_compute; reflexivity|]. vm_compute. tauto.
Qed.

(** [j("div", {id: "b", class: {btn: true, big: false, on: 1}})] *)
Lemma build_class_names_witness :
  exists nd,
    VNode 4 = VNode (length (heap Example.initial)) /\
    heap (state_after
            (run_createElement (VStr "div")
               (VObj [("id", VStr "b");
                      ("class", VObj [("btn", VBool true);
                                      ("big", VBool false);
                                      ("on", VNum 1)])])
               [] Example.initial) Example.initial)
      !! length (heap Example.initial) = Some nd /\
    NoDup (n_classes nd) /\
    forall name,
      name ∈ n_classes nd <->
      exists val, (name, val) ∈ [("btn", VBool true); ("big", VBool false);
                                 ("on", VNum 1)] /\
                  truthy val = true.
Proof.
  apply (build_class_names Example.host_string Example.valid_name
           Example.valid_name Example.css_property Example.call_Function
           Example.components (fun _ => ret VUndef) (VStr "div")
           (VObj [("btn", VBool true); ("big", VBool false); ("on", VNum 1)])
           (VNode 4)
           [("id", VStr "b");
            ("class", VObj [("btn", VBool true); ("big", VBool false);
                            ("on", VNum 1)])]
           [("btn", VBool true); ("big", VBool false); ("on", VNum 1)]
           [] Example.initial).
  - reflexivity.
  - repeat constructor.
  - apply (bool_decide_unpack _). vm_compute. exact Logic.I.
  - reflexivity.
  - left. reflexivity.
  - vm_compute. reflexivity.
Defined.

(** The class lists of that element and of one built with an array of
    class names. *)
Example build_class_names_examples :
  n_classes <$>
    heap (state_after
            (run_createElement (VStr "div")
               (VObj [("id", VStr "b");
                      ("class", VObj [("btn", VBool true);
                                      ("big", VBool false);
                                      ("on", VNum 1)])])
               [] Example.initial) Example.initial) !! 4
  = Some ["btn"; "on"] /\
  n_classes <$>
    heap (state_after
            (run_createElement (VStr "div")
               (VObj [("class", VArr [VStr "btn"; VStr "big"])])
               [] Example.initial) Example.initial) !! 4
  = Some ["0"; "1"].
Proof. split; vm_compute; reflexivity. Qed.

(** [j("P", null, "total: J{counter}", "J")] on the example page, where
    [counter] is 2. *)
Lemma build_text_children_witness :
  VNode 6 = VNode (length (heap Example.counter_page)) /\
  agree (length (heap Example.counter_page)) (heap Example.counter_page)
    (heap (state_after
             (run_j 1 [VStr "P"; VNull; VStr "total: J{counter}"; VStr "J"]
                Example.counter_page) Example.counter_page)) /\
  globals (state_after
             (run_j 1 [VStr "P"; VNull; VStr "total: J{counter}"; VStr "J"]
                Example.counter_page) Example.counter_page)
  = globals Example.counter_page /\
  hpar (heap (state_after
                (run_j 1 [VStr "P"; VNull; VStr "total: J{counter}"; VStr "J"]
                   Example.counter_page) Example.counter_page))
       (length (heap Example.counter_page)) = Some None /\
  n_kind <$>
    heap (state_after
            (run_j 1 [VStr "P"; VNull; VStr "total: J{counter}"; VStr "J"]
               Example.counter_page) Example.counter_page)
      !! length (heap Example.counter_page) = Some (KElement (lower "P")) /\
  exists ks,
    hkids (heap (state_after
                   (run_j 1 [VStr "P"; VNull; VStr "total: J{counter}";
                             VStr "J"]
                      Example.counter_page) Example.counter_page))
          (length (heap Example.counter_page)) = Some ks /\
    Forall2 (fun k t =>
               heap (state_after
                       (run_j 1 [VStr "P"; VNull; VStr "total: J{counter}";
                                 VStr "J"]
                          Example.counter_page) Example.counter_page) !! k
               = Some (text_node (length (heap Example.counter_page)) t))
            ks ["total: 2"; "J"] /\
    Forall (fun k => length (heap Example.counter_page) < k) ks.
Proof.
  apply (build_text_children Example.host_string Example.valid_name
           Example.valid_name Example.css_property Example.call_Function
           Example.components 0 "P" VNull (VNode 6)
           ["total: J{counter}"; "J"] ["total: 2"; "J"] Example.counter_page).
  - reflexivity.
  - constructor; [|constructor; [|constructor]].
    + exact (substituted_value Example.host_string Example.call_Function
               (globals Example.counter_page) "total: " "counter" ""
               (VNum 2) "2" "" eq_refl eq_refl eq_refl eq_refl
               (substituted_plain Example.host_string Example.call_Function
                  (globals Example.counter_page) "" eq_refl)).
    + exact (substituted_plain Example.host_string Example.call_Function
               (globals Example.counter_page) "J" eq_refl).
  - vm_compute. reflexivity.
Defined.

(** The paragraph and its two text nodes. *)
Example build_text_children_example :
  exists st',
    run_j 1 [VStr "P"; VNull; VStr "total: J{counter}"; VStr "J"]
      Example.counter_page
    = Ok (VNode 6) st' /\
    n_kind <$> heap st' !! 6 = Some (KElement "p") /\
    hkids (heap st') 6 = Some [7; 8] /\
    n_kind <$> heap st' !! 7 = Some (KText "total: 2") /\
    n_kind <$> heap st' !! 8 = Some (KText "J").
Proof. eexists. split; [vm_compute; reflexivity|]. vm_compute. tauto. Qed.

#[local] Abbreviation run_addInlineStyle :=
  (addInlineStyle Example.host_string Example.valid_name).

(** An inline style sheet added to the empty document, twice. *)
Lemma addInlineStyle_idempotent_witness :
  run_addInlineStyle (VStr "p { margin: 0 }")
    (state_after (run_addInlineStyle (VStr "p { margin: 0 }") Example.initial)
       Example.initial)
  = Ok tt (state_after
             (run_addInlineStyle (VStr "p { margin: 0 }") Example.initial)
             Example.initial).
Proof.
  apply (addInlineStyle_idempotent Example.host_string Example.valid_name
           "p { margin: 0 }" Example.initial).
  vm_compute. reflexivity.
Defined.

(** The head after the first call: one [style] element with the text. *)
Example addInlineStyle_example :
  exists st',
    run_addInlineStyle (VStr "p { margin: 0 }") Example.initial = Ok tt st' /\
    hkids (heap st') 2 = Some [4] /\
    n_kind <$> heap st' !! 4 = Some (KElement "style") /\
    hkids (heap st') 4 = Some [5] /\
    n_kind <$> heap st' !! 5 = Some (KText "p { margin: 0 }").
Proof. eexists. split; [vm_compute; reflexivity|]. vm_compute. tauto. Qed.

(** An unclosed and an empty pattern. *)
Lemma replace_inline_no_pattern_witness :
  replace_inline Example.host_string Example.call_Function ∅
    ("a " +:+ "J{" +:+ "1+1") None
  = Some ("a " +:+ "J{" +:+ "1+1") /\
  replace_inline Example.host_string Example.call_Function ∅
    ("a " +:+ "J{}" +:+ " b") None
  = (fun u => "a " +:+ "J{}" +:+ u)
      <$> replace_inline Example.host_string Example.call_Function ∅ " b" None.
Proof.
  destruct (replace_inline_no_pattern Example.host_string
              Example.call_Function ∅ "a " "1+1" " b" eq_refl) as [H1 H2].
  split; [exact (H1 eq_refl) | exact H2].
Defined.

(** The first pass on the example site registers the container. *)
Lemma renderApp_registers_container_witness :
  registry (state_after (run_renderApp (run_j 3) Example.site) Example.site)
    !! KStr "app"
  = Some (Descriptor (VStr "div") (VObj [("id", VStr "app")]) []).
Proof.
  apply (renderApp_registers_container Example.host_string Example.valid_name
           Example.valid_name Example.css_property Example.call_Function
           Example.components 3 Example.site
           (state_after (run_renderApp (run_j 3) Example.site) Example.site)
           "/" (Class 0) VUndef).
  - reflexivity.
  - reflexivity.
  - reflexivity.
  - vm_compute. reflexivity.
Defined.

(** After that pass [j("rcmp", "app")] puts an empty container in the
    place of the rendered one. *)
Example rcmp_app_empties_container :
  exists s1 s2,
    run_j 4 [VStr "render"] Example.site = Ok VUndef s1 /\
    hkids (heap s1) 4 = Some [9; 11; 8; 13] /\
    run_j 2 [VStr "rcmp"; VStr "app"] s1 = Ok VUndef s2 /\
    live_node s2 "app" = Some 15 /\
    hkids (heap s2) 15 = Some [] /\
    hkids (heap s2) 3 = Some [15].
Proof.
  do 2 eexists. split; [vm_compute; reflexivity|].
  split; [vm_compute; reflexivity|].
  split; [vm_compute; reflexivity|]. vm_compute. tauto.
Qed.

(** [j("Rcmp", null, "x")] is a build: it creates the element [rcmp]. *)
Lemma control_tokens_shadowed_witness :
  exists name,
    to_string Example.host_string
      (default VUndef ([VStr "Rcmp"; VNull; VStr "x"] !! 0)) = Some name /\
    Example.valid_name name = true /\
    VNode 4 = VNode (length (heap Example.initial)) /\
    n_kind <$>
      heap (state_after (run_j 1 [VStr "Rcmp"; VNull; VStr "x"]
                           Example.initial) Example.initial)
        !! length (heap Example.initial)
    = Some (KElement (lower name)).
Proof.
  apply (proj2 (proj2 (proj2
           (control_tokens_shadowed Example.host_string Example.valid_name
              Example.valid_name Example.css_property Example.call_Function
              Example.components 0 [VStr "Rcmp"; VNull; VStr "x"]
              Example.initial)))).
  - reflexivity.
  - vm_compute. reflexivity.
Defined.

(** [j("CFG")] and [j(["render"])] are builds, the first argument being
    none of the three strings: the document gets an element [cfg] and an
    element [render]. *)
Lemma control_token_elements :
  builds [VStr "CFG"] = true /\
  builds [VArr [VStr "render"]] = true /\
  (exists st',
     run_j 1 [VStr "CFG"] Example.initial = Ok (VNode 4) st' /\
     n_kind <$> heap st' !! 4 = Some (KElement "cfg")) /\
  (exists st',
     run_j 1 [VArr [VStr "render"]] Example.initial = Ok (VNode 4) st' /\
     n_kind <$> heap st' !! 4 = Some (KElement "render")).
Proof.
  split; [reflexivity|]. split; [reflexivity|].
  split; eexists; (split; [vm_compute; reflexivity | reflexivity]).
Qed.
